(** * NullabilityChecker: the nullability lattice, the per-path inference map
      and the update rules of lib/StaticAnalyzer/Checkers/NullabilityChecker.cpp

    The checker is embedded shallowly.  The analyzer engine, the AST and the
    constraint solver are collaborators: every query the checker makes
    against them appears as a field of the record that stands for the queried
    object, and the checker's callbacks are functions from those records and
    the current program state to the nodes and bug reports they produce. *)

From Stdlib Require Import ZArith String List Bool Lia.
From stdpp Require Import base countable gmap strings.

Local Open Scope Z_scope.

(* ===================================================================== *)
(** ** The lattice *)
(* ===================================================================== *)

(** [enum class Nullability : char]; the order of the enumerators matters. *)
Inductive Nullability : Type :=
  | Contradicted
  | Nullable
  | Unspecified
  | Nonnull.

(** [static_cast<char>(n)]: the enumerator's code. *)
Definition Nullability_to_char (n : Nullability) : Z :=
  match n with
  | Contradicted => 0
  | Nullable => 1
  | Unspecified => 2
  | Nonnull => 3
  end.

(** [static_cast<Nullability>(c)]: defined on the codes of the enumerators. *)
Definition Nullability_of_char (c : Z) : option Nullability :=
  match c with
  | 0 => Some Contradicted
  | 1 => Some Nullable
  | 2 => Some Unspecified
  | 3 => Some Nonnull
  | _ => None
  end.

(** [std::min(a, b)] is [(b < a) ? b : a]. *)
Definition std_min (a b : Z) : Z := if b <? a then b else a.

(** [getMostNullable].  The [None] branch stands for a code that names no
    enumerator; [getMostNullable_cast] shows it is never taken. *)
Definition getMostNullable (Lhs Rhs : Nullability) : Nullability :=
  match Nullability_of_char
          (std_min (Nullability_to_char Lhs) (Nullability_to_char Rhs)) with
  | Some n => n
  | None => Lhs
  end.

(** The ranking the enumeration induces. *)
Definition Nullability_le (a b : Nullability) : Prop :=
  Nullability_to_char a <= Nullability_to_char b.

Definition Nullability_lt (a b : Nullability) : Prop :=
  Nullability_to_char a < Nullability_to_char b.

Definition getNullabilityString (Nullab : Nullability) : string :=
  match Nullab with
  | Contradicted => "contradicted"
  | Nullable => "nullable"
  | Unspecified => "unspecified"
  | Nonnull => "nonnull"
  end.

#[global] Instance Nullability_eq_dec : EqDecision Nullability.
Proof. solve_decision. Defined.

(** [enum class ErrorKind : int], the index into [ErrorMessages]. *)
Inductive ErrorKind : Type :=
  | NilAssignedToNonnull
  | NilPassedToNonnull
  | NilReturnedToNonnull
  | NullableAssignedToNonnull
  | NullableReturnedToNonnull
  | NullableDereferenced
  | NullablePassedToNonnull.

#[global] Instance ErrorKind_eq_dec : EqDecision ErrorKind.
Proof. solve_decision. Defined.

Definition ErrorMessages (Error : ErrorKind) : string :=
  match Error with
  | NilAssignedToNonnull =>
      "Null pointer is assigned to a pointer which has _Nonnull type"
  | NilPassedToNonnull =>
      "Null pointer is passed to a parameter which is marked as _Nonnull"
  | NilReturnedToNonnull =>
      "Null pointer is returned from a function that has _Nonnull return type"
  | NullableAssignedToNonnull =>
      "Nullable pointer is assigned to a pointer which has _Nonnull type"
  | NullableReturnedToNonnull =>
      "Nullable pointer is returned from a function that has _Nonnull return type"
  | NullableDereferenced =>
      "Nullable pointer is dereferenced"
  | NullablePassedToNonnull =>
      "Nullable pointer is passed to a parameter which is marked as _Nonnull"
  end.

(* ===================================================================== *)
(** ** Types, statements, regions and symbolic values *)
(* ===================================================================== *)

(** The attribute kinds of an [AttributedType] the checker distinguishes. *)
Inductive AttrKind : Type :=
  | attr_nonnull
  | attr_nullable
  | attr_null_unspecified
  | attr_other.

#[global] Instance AttrKind_eq_dec : EqDecision AttrKind.
Proof. solve_decision. Defined.

(** What the checker asks of a [QualType]: [getAs<AttributedType>()] is
    [None] for a type that is not attributed. *)
Record QualType : Type := mkQualType {
  isAnyPointerType : bool;
  isReferenceType : bool;
  getAs_AttributedType : option AttrKind
}.

#[global] Instance QualType_eq_dec : EqDecision QualType.
Proof. solve_decision. Defined.

Definition getNullabilityAnnotation (Type_ : QualType) : Nullability :=
  match getAs_AttributedType Type_ with
  | None => Unspecified
  | Some k =>
      if decide (k = attr_nullable) then Nullable
      else if decide (k = attr_nonnull) then Nonnull
      else Unspecified
  end.

(** A [const Stmt *]: the identity of an AST node. *)
Definition Stmt : Type := positive.

(** A [const Expr *] that is not null: the node and its type. *)
Record Expr : Type := mkExpr {
  Expr_stmt : Stmt;
  Expr_getType : QualType
}.

Record ParmVarDecl : Type := mkParmVarDecl {
  isParameterPack : bool;
  Param_getType : QualType;
  Param_getName : string
}.

(** A [SymbolRef]: the symbol and its type. *)
Record SymbolRef : Type := mkSymbol {
  Sym_id : positive;
  Sym_getType : QualType
}.

#[global] Instance SymbolRef_eq_dec : EqDecision SymbolRef.
Proof. solve_decision. Defined.

(** Memory regions.  [VarRegion], [FieldRegion] and [ElementRegion] are the
    typed value regions; a [SymbolicRegion] is not one. *)
Inductive MemRegion : Type :=
  | SymbolicRegion (Sym : SymbolRef)
  | VarRegion (Decl : positive) (ValueType : QualType)
  | FieldRegion (Decl : positive) (ValueType : QualType) (Super : MemRegion)
  | ElementRegion (Index : Z) (ValueType : QualType) (Super : MemRegion).

#[global] Instance MemRegion_eq_dec : EqDecision MemRegion.
Proof. solve_decision. Defined.

Definition AttrKind_code (k : AttrKind) : nat :=
  match k with
  | attr_nonnull => 0
  | attr_nullable => 1
  | attr_null_unspecified => 2
  | attr_other => 3
  end%nat.

Definition AttrKind_of_code (n : nat) : AttrKind :=
  match n with
  | 0 => attr_nonnull
  | 1 => attr_nullable
  | 2 => attr_null_unspecified
  | _ => attr_other
  end%nat.

#[global] Instance AttrKind_countable : Countable AttrKind.
Proof.
  apply (inj_countable' AttrKind_code AttrKind_of_code).
  intros []; reflexivity.
Defined.

#[global] Instance QualType_countable : Countable QualType.
Proof.
  apply (inj_countable'
           (fun t => (isAnyPointerType t, isReferenceType t, getAs_AttributedType t))
           (fun p => mkQualType p.1.1 p.1.2 p.2)).
  intros []; reflexivity.
Defined.

(** The data a region node carries beside its super-region. *)
Definition MemRegion_label : Type := positive * Z * QualType.

Fixpoint MemRegion_to_tree (R : MemRegion) : gen_tree MemRegion_label :=
  match R with
  | SymbolicRegion Sym =>
      GenNode 0 [GenLeaf (Sym_id Sym, 0, Sym_getType Sym)]
  | VarRegion D T =>
      GenNode 1 [GenLeaf (D, 0, T)]
  | FieldRegion D T Super =>
      GenNode 2 [GenLeaf (D, 0, T); MemRegion_to_tree Super]
  | ElementRegion Idx T Super =>
      GenNode 3 [GenLeaf (1%positive, Idx, T); MemRegion_to_tree Super]
  end.

Fixpoint MemRegion_of_tree (t : gen_tree MemRegion_label) : option MemRegion :=
  match t with
  | GenNode 0 [GenLeaf (i, _, T)] => Some (SymbolicRegion (mkSymbol i T))
  | GenNode 1 [GenLeaf (D, _, T)] => Some (VarRegion D T)
  | GenNode 2 [GenLeaf (D, _, T); s] =>
      match MemRegion_of_tree s with
      | Some Super => Some (FieldRegion D T Super)
      | None => None
      end
  | GenNode 3 [GenLeaf (_, Idx, T); s] =>
      match MemRegion_of_tree s with
      | Some Super => Some (ElementRegion Idx T Super)
      | None => None
      end
  | _ => None
  end.

#[global] Instance MemRegion_countable : Countable MemRegion.
Proof.
  apply (inj_countable MemRegion_to_tree MemRegion_of_tree).
  intros R.
  induction R as [[i T] | D T | D T Super IH | Idx T Super IH]; simpl.
  - reflexivity.
  - reflexivity.
  - now rewrite IH.
  - now rewrite IH.
Defined.

(** Symbolic values.  Only [UndefinedVal] is not a [DefinedOrUnknownSVal]. *)
Inductive SVal : Type :=
  | UndefinedVal
  | UnknownVal
  | loc_MemRegionVal (R : MemRegion)
  | loc_ConcreteInt (V : Z)
  | nonloc_SymbolVal (Sym : SymbolRef)
  | nonloc_ConcreteInt (V : Z).

#[global] Instance SVal_eq_dec : EqDecision SVal.
Proof. solve_decision. Defined.

(** [Val.getAs<DefinedOrUnknownSVal>()]. *)
Definition getAs_DefinedOrUnknownSVal (Val : SVal) : option SVal :=
  match Val with
  | UndefinedVal => None
  | _ => Some Val
  end.

(** [Val.getAs<loc::MemRegionVal>()] followed by [getRegion()]. *)
Definition getAs_MemRegionVal (Val : SVal) : option MemRegion :=
  match Val with
  | loc_MemRegionVal R => Some R
  | _ => None
  end.

(** [Val.getAsRegion()], a null pointer when the value wraps no region. *)
Definition getAsRegion (Val : SVal) : option MemRegion :=
  getAs_MemRegionVal Val.

(** [dyn_cast<SymbolicRegion>(R)]. *)
Definition dyn_cast_SymbolicRegion (R : MemRegion) : option MemRegion :=
  match R with
  | SymbolicRegion _ => Some R
  | _ => None
  end.

(** [dyn_cast_or_null<TypedValueRegion>(R)] followed by [getValueType()]. *)
Definition TypedValueRegion_getValueType (R : option MemRegion) : option QualType :=
  match R with
  | Some (VarRegion _ T) => Some T
  | Some (FieldRegion _ T _) => Some T
  | Some (ElementRegion _ T _) => Some T
  | Some (SymbolicRegion _) => None
  | None => None
  end.

(** [Val.getAsSymbol()]: the symbol of a symbolic region or of a symbol
    value. *)
Definition getAsSymbol (Val : SVal) : option SymbolRef :=
  match Val with
  | loc_MemRegionVal (SymbolicRegion Sym) => Some Sym
  | nonloc_SymbolVal Sym => Some Sym
  | _ => None
  end.

(** If an SVal wraps a region that should be tracked, the wrapped region. *)
Definition getTrackRegion (Val : SVal) (CheckSuperRegion : bool) : option MemRegion :=
  match getAs_MemRegionVal Val with
  | None => None
  | Some Region =>
      if CheckSuperRegion then
        match Region with
        | FieldRegion _ _ Super => dyn_cast_SymbolicRegion Super
        | ElementRegion _ _ Super => dyn_cast_SymbolicRegion Super
        | _ => dyn_cast_SymbolicRegion Region
        end
      else dyn_cast_SymbolicRegion Region
  end.

(* ===================================================================== *)
(** ** The inference state *)
(* ===================================================================== *)

(** [class NullabilityState]: the inferred value and the statement that
    determined it ([None] is the null [Source]). *)
Record NullabilityState : Type := mkNullabilityState {
  getValue : Nullability;
  getNullabilitySource : option Stmt
}.

#[global] Instance NullabilityState_eq_dec : EqDecision NullabilityState.
Proof. solve_decision. Defined.

(** The converting constructor [NullabilityState(Nullab)], whose [Source]
    defaults to [nullptr]. *)
Definition NullabilityState_of (Nullab : Nullability) : NullabilityState :=
  mkNullabilityState Nullab None.

(** [ConditionTruthVal]: [Some true] is constrained true, [Some false]
    constrained false, [None] underconstrained. *)
Definition ConditionTruthVal : Type := option bool.

(** A program state, as far as the checker sees it: the solver's verdict on
    whether a value is null, which the checker only reads, and the
    [NullabilityMap] registered with [REGISTER_MAP_WITH_PROGRAMSTATE]. *)
Record ProgramState : Type := mkProgramState {
  isNull : SVal -> ConditionTruthVal;
  NullabilityMap : gmap MemRegion NullabilityState
}.

(** [State->get<NullabilityMap>(Region)]. *)
Definition get_NullabilityMap (State : ProgramState) (Region : MemRegion)
  : option NullabilityState :=
  NullabilityMap State !! Region.

(** [State->set<NullabilityMap>(Region, V)]. *)
Definition set_NullabilityMap (State : ProgramState) (Region : MemRegion)
    (V : NullabilityState) : ProgramState :=
  mkProgramState (isNull State) (<[Region := V]> (NullabilityMap State)).

(** [State->remove<NullabilityMap>(Region)]. *)
Definition remove_NullabilityMap (State : ProgramState) (Region : MemRegion)
  : ProgramState :=
  mkProgramState (isNull State) (delete Region (NullabilityMap State)).

Inductive NullConstraint : Type :=
  | IsNull
  | IsNotNull
  | Unknown.

#[global] Instance NullConstraint_eq_dec : EqDecision NullConstraint.
Proof. solve_decision. Defined.

Definition getNullConstraint (Val : SVal) (State : ProgramState) : NullConstraint :=
  match isNull State Val with
  | Some false => IsNotNull
  | Some true => IsNull
  | None => Unknown
  end.

(* ===================================================================== *)
(** ** What a callback does to the exploded graph *)
(* ===================================================================== *)

(** A node a callback adds: its state, whether it is a sink, and its tag. *)
Record ExplodedNode : Type := mkNode {
  getState : ProgramState;
  isSink : bool;
  getTag : option string
}.

(** [C.addTransition(State)]. *)
Definition addTransition (State : ProgramState) : ExplodedNode :=
  mkNode State false None.

(** [C.addTransition(State, C.getPredecessor(), &Tag)]. *)
Definition addTransitionTagged (State : ProgramState) (Tag : string) : ExplodedNode :=
  mkNode State false (Some Tag).

(** [C.generateSink(State, C.getPredecessor(), &Tag)]. *)
Definition generateSink (State : ProgramState) (Tag : string) : ExplodedNode :=
  mkNode State true (Some Tag).

(** The [BugReport] that [reportBug] emits. *)
Record BugReport : Type := mkBugReport {
  report_Error : ErrorKind;
  report_Msg : string;
  report_Node : ExplodedNode;
  report_InterestingRegion : option MemRegion;
  report_Range : option Stmt;
  report_trackNullOrUndefValue : bool
}.

Definition reportBug (Error : ErrorKind) (N : ExplodedNode)
    (Region : option MemRegion) (ValueExpr : option Stmt) : BugReport :=
  mkBugReport Error (ErrorMessages Error) N Region ValueExpr
    (match ValueExpr with
     | Some _ =>
         bool_decide (Error = NilAssignedToNonnull) ||
         bool_decide (Error = NilPassedToNonnull) ||
         bool_decide (Error = NilReturnedToNonnull)
     | None => false
     end).

(** The nodes a callback added and the reports it emitted, in order. *)
Record Effects : Type := mkEffects {
  nodes : list ExplodedNode;
  reports : list BugReport
}.

Definition no_effect : Effects := mkEffects [] [].

Definition transition (State : ProgramState) : Effects :=
  mkEffects [addTransition State] [].

Definition report_at (N : ExplodedNode) (R : BugReport) : Effects :=
  mkEffects [N] [R].

(** Two places of the checker read through a pointer or an [Optional]
    without a check. *)
Inductive Fault : Type :=
  | NullPointerDereference
  | EmptyOptionalAccess.

(** How a callback ends: it returns, having produced its effects, or it
    performs one of the faulty reads. *)
Inductive Result : Type :=
  | Returns (e : Effects)
  | Faults (f : Fault).

(** Modelled from the spec: the driving engine is not part of the checker.
    The spec has a callback either leave the state unchanged or produce a new
    state that becomes part of the path's history, and has a fatal violation
    stop the exploration of the path.  So a callback that adds no node leaves
    the path at the predecessor's state, and otherwise the path goes on from
    the states of the nodes that are not sinks. *)
Definition resultingStates (Pred : ProgramState) (e : Effects) : list ProgramState :=
  match nodes e with
  | [] => [Pred]
  | ns => map getState (filter (fun N => negb (isSink N)) ns)
  end.

(** [NullabilityChecksFilter]: the five check selectors. *)
Record NullabilityChecksFilter : Type := mkFilter {
  CheckNullPassedToNonnull : bool;
  CheckNullReturnedFromNonnull : bool;
  CheckNullableDereferenced : bool;
  CheckNullablePassedToNonnull : bool;
  CheckNullableReturnedFromNonnull : bool
}.

(* ===================================================================== *)
(** ** The objects the callbacks receive *)
(* ===================================================================== *)

Record FunctionType : Type := mkFunctionType {
  getReturnType : QualType
}.

(** The view of [CheckerContext] the callbacks use: the state of the
    predecessor node, the value the environment binds to a statement, the
    function type of the declaration under analysis
    ([getLocationContext()->getAnalysisDeclContext()->getDecl()->getFunctionType()],
    possibly null) and the [wasInlined] flag. *)
Record CheckerContext : Type := mkContext {
  C_getState : ProgramState;
  C_getSVal : Stmt -> SVal;
  C_getFunctionType : option FunctionType;
  C_wasInlined : bool
}.

Record SymbolReaper : Type := mkSymbolReaper {
  isLiveRegion : MemRegion -> bool
}.

Record ImplicitNullDerefEvent : Type := mkImplicitNullDerefEvent {
  Event_Location : SVal;
  Event_IsDirectDereference : bool;
  Event_SinkNode : ExplodedNode
}.

Record ReturnStmt : Type := mkReturnStmt {
  Return_stmt : Stmt;
  getRetValue : option Expr
}.

(** The callee declaration of a call: its function type, possibly null, and
    the file name component of the path of the file its start is spelled in
    ([llvm::sys::path::filename(SM.getFilename(SM.getSpellingLoc(Decl->getLocStart())))]). *)
Record Decl : Type := mkDecl {
  getFunctionType : option FunctionType;
  Decl_filename : string
}.

Inductive CallEventKind : Type :=
  | CE_Function
  | CE_CXXMember
  | CE_Block
  | CE_ObjCMessage.

#[global] Instance CallEventKind_eq_dec : EqDecision CallEventKind.
Proof. solve_decision. Defined.

(** A [CallEvent].  [getArgExpr] yields a pointer, which is kept as an option;
    [getArgSVal] is whatever the engine answers at an index, also beyond the
    actual arguments. *)
Record CallEvent : Type := mkCallEvent {
  getDecl : option Decl;
  getKind : CallEventKind;
  parameters : list ParmVarDecl;
  getNumArgs : nat;
  getArgExpr : nat -> option Expr;
  getArgSVal : nat -> SVal;
  getReturnValue : SVal
}.

Record ObjCMethodDecl : Type := mkObjCMethodDecl {
  MD_getReturnType : QualType;
  (** the name of [getClassInterface()], if there is an interface *)
  MD_getClassInterface : option string
}.

Record ObjCMessageExpr : Type := mkObjCMessageExpr {
  Message_stmt : Stmt;
  getInstanceReceiver : option Stmt
}.

Inductive ObjCMessageKind : Type :=
  | OCM_PropertyAccess
  | OCM_Subscript
  | OCM_Message.

#[global] Instance ObjCMessageKind_eq_dec : EqDecision ObjCMessageKind.
Proof. solve_decision. Defined.

Record ObjCMethodCall : Type := mkObjCMethodCall {
  M_getDecl : option ObjCMethodDecl;
  M_getReturnValue : SVal;
  M_isInstanceMessage : bool;
  (** [getSelector().getNameForSlot(0)] *)
  M_FirstSelectorSlot : string;
  M_parameters : list ParmVarDecl;
  M_getOriginExpr : ObjCMessageExpr;
  M_isReceiverSelfOrSuper : bool;
  M_getReceiverSVal : SVal;
  M_getMessageKind : ObjCMessageKind
}.

Record ExplicitCastExpr : Type := mkExplicitCastExpr {
  CE_stmt : Stmt;
  CE_getType : QualType;
  CE_getSubExpr : Expr
}.

Record BinaryOperator : Type := mkBinaryOperator {
  getLHS : Stmt;
  getRHS : Stmt
}.

(** The statement of a bind, with the result of
    [dyn_cast<BinaryOperator>(S)]. *)
Record BindStmt : Type := mkBindStmt {
  Bind_stmt : Stmt;
  dyn_cast_BinaryOperator : option BinaryOperator
}.

(** [Name.startswith(Prefix)]. *)
Definition startswith (Name Prefix : string) : bool := String.prefix Prefix Name.

(** [Name.find(Needle) != StringRef::npos]. *)
Fixpoint contains (Name Needle : string) : bool :=
  String.prefix Needle Name ||
  match Name with
  | EmptyString => false
  | String _ Rest => contains Rest Needle
  end.

(* ===================================================================== *)
(** ** The callbacks *)
(* ===================================================================== *)

(** The loop of [checkDeadSymbols] over the entries of the map. *)
Definition checkDeadSymbols_loop (SR : SymbolReaper) (State : ProgramState)
  : ProgramState :=
  fold_left
    (fun (State : ProgramState) (I : MemRegion * NullabilityState) =>
       if negb (isLiveRegion SR I.1) then remove_NullabilityMap State I.1
       else State)
    (map_to_list (NullabilityMap State)) State.

(** [checkDeadSymbols]: the state the loop computes is a local of the
    function; no node is added. *)
Definition checkDeadSymbols (SR : SymbolReaper) (C : CheckerContext) : Result :=
  let State := C_getState C in
  let State := checkDeadSymbols_loop SR State in
  Returns no_effect.

Definition checkEvent (Filter : NullabilityChecksFilter)
    (Event : ImplicitNullDerefEvent) : Result :=
  match getTrackRegion (Event_Location Event) true with
  | None => Returns no_effect
  | Some Region =>
      let State := getState (Event_SinkNode Event) in
      match get_NullabilityMap State Region with
      | None => Returns no_effect
      | Some TrackedNullability =>
          if CheckNullableDereferenced Filter &&
             bool_decide (getValue TrackedNullability = Nullable)
          then
            if Event_IsDirectDereference Event then
              Returns (mkEffects []
                [reportBug NullableDereferenced (Event_SinkNode Event)
                   (Some Region) None])
            else
              Returns (mkEffects []
                [reportBug NullablePassedToNonnull (Event_SinkNode Event)
                   (Some Region) None])
          else Returns no_effect
      end
  end.

(** [checkPreStmt(const ReturnStmt *S, CheckerContext &C)]. *)
Definition checkPreStmt (Filter : NullabilityChecksFilter) (S : ReturnStmt)
    (C : CheckerContext) : Result :=
  match getRetValue S with
  | None => Returns no_effect
  | Some RetExpr =>
  if negb (isAnyPointerType (Expr_getType RetExpr)) then Returns no_effect else
  let State := C_getState C in
  match getAs_DefinedOrUnknownSVal (C_getSVal C (Return_stmt S)) with
  | None => Returns no_effect
  | Some RetSVal =>
  match C_getFunctionType C with
  | None => Returns no_effect
  | Some FuncType =>
  let Nullness := getNullConstraint RetSVal State in
  let StaticNullability := getNullabilityAnnotation (getReturnType FuncType) in
  if CheckNullReturnedFromNonnull Filter &&
     bool_decide (Nullness = IsNull) &&
     bool_decide (StaticNullability = Nonnull)
  then
    let N := addTransitionTagged State "NullReturnedFromNonnull" in
    Returns (report_at N
               (reportBug NilReturnedToNonnull N None (Some (Return_stmt S))))
  else
  match getTrackRegion RetSVal false with
  | None => Returns no_effect
  | Some Region =>
  match get_NullabilityMap State Region with
  | Some TrackedNullability =>
      let TrackedNullabValue := getValue TrackedNullability in
      if CheckNullableReturnedFromNonnull Filter &&
         bool_decide (Nullness <> IsNotNull) &&
         bool_decide (TrackedNullabValue = Nullable) &&
         bool_decide (StaticNullability = Nonnull)
      then
        let N := addTransitionTagged State "NullableReturnedFromNonnull" in
        Returns (report_at N
                   (reportBug NullableReturnedToNonnull N (Some Region) None))
      else Returns no_effect
  | None =>
      if bool_decide (StaticNullability = Nullable) then
        Returns (transition
                   (set_NullabilityMap State Region
                      (mkNullabilityState StaticNullability
                         (Some (Return_stmt S)))))
      else Returns no_effect
  end end end end end.

(** How one iteration of the loop of [checkPreCall] ends. *)
Inductive LoopControl : Type :=
  | LoopContinue (State : ProgramState)
  | LoopBreak (State : ProgramState)
  | LoopReturn (e : Effects)
  | LoopFault (f : Fault).

(** The body of the loop of [checkPreCall], for the parameter [Param] at the
    value [Idx] of the counter. *)
Definition checkPreCall_body (Filter : NullabilityChecksFilter)
    (Call : CallEvent) (State : ProgramState) (Idx : nat)
    (Param : ParmVarDecl) : LoopControl :=
  if isParameterPack Param then LoopBreak State else
  let ArgExpr : option Expr :=
    if (Idx <? getNumArgs Call)%nat then getArgExpr Call Idx else None in
  match getAs_DefinedOrUnknownSVal (getArgSVal Call Idx) with
  | None => LoopContinue State
  | Some ArgSVal =>
  if negb (isAnyPointerType (Param_getType Param)) &&
     negb (isReferenceType (Param_getType Param))
  then LoopContinue State else
  let Nullness := getNullConstraint ArgSVal State in
  let ParamNullability := getNullabilityAnnotation (Param_getType Param) in
  match ArgExpr with
  | None => LoopFault NullPointerDereference
  | Some ArgE =>
  let ArgStaticNullability := getNullabilityAnnotation (Expr_getType ArgE) in
  if CheckNullPassedToNonnull Filter &&
     bool_decide (Nullness = IsNull) &&
     bool_decide (ArgStaticNullability <> Nonnull) &&
     bool_decide (ParamNullability = Nonnull)
  then
    let N := generateSink State "NullPassedToNonnull" in
    LoopReturn (report_at N
                  (reportBug NilPassedToNonnull N None (Some (Expr_stmt ArgE))))
  else
  match getTrackRegion ArgSVal false with
  | None => LoopContinue State
  | Some Region =>
  match get_NullabilityMap State Region with
  | Some TrackedNullability =>
      if bool_decide (Nullness = IsNotNull) ||
         bool_decide (getValue TrackedNullability <> Nullable)
      then LoopContinue State
      else if CheckNullablePassedToNonnull Filter &&
              bool_decide (ParamNullability = Nonnull)
      then
        let N := generateSink State "NullablePassedToNonnull" in
        LoopReturn (report_at N
                      (reportBug NullablePassedToNonnull N (Some Region)
                         (Some (Expr_stmt ArgE))))
      else if CheckNullableDereferenced Filter &&
              isReferenceType (Param_getType Param)
      then
        let N := generateSink State "NullableDereferenced" in
        LoopReturn (report_at N
                      (reportBug NullableDereferenced N (Some Region)
                         (Some (Expr_stmt ArgE))))
      else LoopContinue State
  | None =>
      if bool_decide (ArgStaticNullability <> Nullable) then LoopContinue State
      else LoopContinue
             (set_NullabilityMap State Region
                (mkNullabilityState ArgStaticNullability
                   (Some (Expr_stmt ArgE))))
  end end end end.

(** The loop of [checkPreCall] over [Call.parameters()], from the counter
    value [Idx]: it ends in [LoopContinue] when the parameters are used up,
    in [LoopBreak] at a parameter pack, and otherwise as the body did. *)
Fixpoint checkPreCall_loop (Filter : NullabilityChecksFilter)
    (Call : CallEvent) (State : ProgramState) (Idx : nat)
    (Params : list ParmVarDecl) : LoopControl :=
  match Params with
  | [] => LoopContinue State
  | Param :: Rest =>
      match checkPreCall_body Filter Call State Idx Param with
      | LoopContinue State' => checkPreCall_loop Filter Call State' (S Idx) Rest
      | Other => Other
      end
  end.

(** [checkPreCall].  Program states are uniqued, and the callback changes
    nothing but the map, so [State != OrigState] compares the maps. *)
Definition checkPreCall (Filter : NullabilityChecksFilter) (Call : CallEvent)
    (C : CheckerContext) : Result :=
  match getDecl Call with
  | None => Returns no_effect
  | Some _ =>
      let State := C_getState C in
      let OrigState := State in
      match checkPreCall_loop Filter Call State 0 (parameters Call) with
      | LoopContinue State | LoopBreak State =>
          if bool_decide (NullabilityMap State <> NullabilityMap OrigState)
          then Returns (transition State)
          else Returns no_effect
      | LoopReturn e => Returns e
      | LoopFault f => Faults f
      end
  end.

(** [checkPostCall]. *)
Definition checkPostCall (Call : CallEvent) (C : CheckerContext) : Result :=
  match getDecl Call with
  | None => Returns no_effect
  | Some Decl_ =>
  if bool_decide (getKind Call = CE_ObjCMessage) then Returns no_effect else
  match getFunctionType Decl_ with
  | None => Returns no_effect
  | Some FuncType =>
  let ReturnType := getReturnType FuncType in
  if negb (isAnyPointerType ReturnType) then Returns no_effect else
  match getTrackRegion (getReturnValue Call) false with
  | None => Returns no_effect
  | Some Region =>
  let State := C_getState C in
  if startswith (Decl_filename Decl_) "CG" then
    Returns (transition
               (set_NullabilityMap State Region (NullabilityState_of Contradicted)))
  else
  match get_NullabilityMap State Region with
  | None =>
      if bool_decide (getNullabilityAnnotation ReturnType = Nullable) then
        Returns (transition
                   (set_NullabilityMap State Region (NullabilityState_of Nullable)))
      else Returns no_effect
  | Some _ => Returns no_effect
  end end end end.

Definition getReceiverNullability (M : ObjCMethodCall) (State : ProgramState)
  : Nullability :=
  let RetNullability := Unspecified in
  if M_isReceiverSelfOrSuper M then Nonnull
  else
    let Receiver := M_getReceiverSVal M in
    let RetNullability :=
      match getAs_MemRegionVal Receiver with
      | Some SelfRegion =>
          match get_NullabilityMap State SelfRegion with
          | Some TrackedSelfNullability => getValue TrackedSelfNullability
          | None => RetNullability
          end
      | None => RetNullability
      end in
    match getAs_DefinedOrUnknownSVal Receiver with
    | Some DefOrUnknown =>
        let Nullness := getNullConstraint DefOrUnknown State in
        if bool_decide (Nullness = IsNotNull) then Nonnull else RetNullability
    | None => RetNullability
    end.

(** [Interface ? Interface->getName() : ""] for the class interface of a
    method declaration. *)
Definition ClassInterface_getName (Decl_ : ObjCMethodDecl) : string :=
  match MD_getClassInterface Decl_ with
  | Some n => n
  | None => EmptyString
  end.

(** The heuristics of [checkPostObjCMessage] for the Cocoa classes whose name
    starts with NS: whether the return value is to be marked contradicted. *)
Definition isCocoaSuppressed (M : ObjCMethodCall) (Name : string) : bool :=
  startswith Name "NS" &&
  ((M_isInstanceMessage M && contains Name "Dictionary") ||
   (contains Name "Array" &&
    (bool_decide (M_FirstSelectorSlot M = "firstObject") ||
     bool_decide (M_FirstSelectorSlot M = "lastObject"))) ||
   (contains Name "String" &&
    existsb (fun Param => bool_decide (Param_getName Param = "encoding"))
      (M_parameters M))).

(** [checkPostObjCMessage]. *)
Definition checkPostObjCMessage (M : ObjCMethodCall) (C : CheckerContext)
  : Result :=
  match M_getDecl M with
  | None => Returns no_effect
  | Some Decl_ =>
  let RetType := MD_getReturnType Decl_ in
  if negb (isAnyPointerType RetType) then Returns no_effect else
  match getTrackRegion (M_getReturnValue M) false with
  | None => Returns no_effect
  | Some ReturnRegion =>
  let State := C_getState C in
  let Name := ClassInterface_getName Decl_ in
  if isCocoaSuppressed M Name then
    Returns (transition
               (set_NullabilityMap State ReturnRegion
                  (NullabilityState_of Contradicted)))
  else
  let Message := M_getOriginExpr M in
  let SelfNullability := getReceiverNullability M State in
  match get_NullabilityMap State ReturnRegion with
  | Some NullabilityOfReturn =>
      let RetValTracked := getValue NullabilityOfReturn in
      let ComputedNullab := getMostNullable RetValTracked SelfNullability in
      if bool_decide (ComputedNullab <> RetValTracked) &&
         bool_decide (ComputedNullab <> Unspecified)
      then
        let NullabilitySource :=
          if bool_decide (ComputedNullab = RetValTracked)
          then getNullabilitySource NullabilityOfReturn
          else getInstanceReceiver Message in
        Returns (transition
                   (set_NullabilityMap State ReturnRegion
                      (mkNullabilityState ComputedNullab NullabilitySource)))
      else Returns no_effect
  | None =>
      let RetNullability := getNullabilityAnnotation RetType in
      let RetNullability :=
        if bool_decide (M_getMessageKind M = OCM_PropertyAccess) &&
           negb (C_wasInlined C)
        then Nonnull else RetNullability in
      let ComputedNullab := getMostNullable RetNullability SelfNullability in
      if bool_decide (ComputedNullab = Nullable) then
        let NullabilitySource :=
          if bool_decide (ComputedNullab = RetNullability)
          then Some (Message_stmt Message)
          else getInstanceReceiver Message in
        Returns (transition
                   (set_NullabilityMap State ReturnRegion
                      (mkNullabilityState ComputedNullab NullabilitySource)))
      else Returns no_effect
  end end end.

(** [checkPostStmt(const ExplicitCastExpr *CE, CheckerContext &C)].  The
    value of the cast is read through [*RegionSVal] without a check that the
    [Optional] holds one. *)
Definition checkPostStmt (CE : ExplicitCastExpr) (C : CheckerContext) : Result :=
  let OriginType := Expr_getType (CE_getSubExpr CE) in
  let DestType := CE_getType CE in
  if negb (isAnyPointerType OriginType) then Returns no_effect else
  if negb (isAnyPointerType DestType) then Returns no_effect else
  let DestNullability := getNullabilityAnnotation DestType in
  if bool_decide (DestNullability = Unspecified) then Returns no_effect else
  let State := C_getState C in
  match getAs_DefinedOrUnknownSVal (C_getSVal C (CE_stmt CE)) with
  | None => Faults EmptyOptionalAccess
  | Some RegionSVal =>
  match getTrackRegion RegionSVal false with
  | None => Returns no_effect
  | Some Region =>
  if bool_decide (DestNullability = Nonnull) &&
     bool_decide (getNullConstraint RegionSVal State = IsNull)
  then
    Returns (transition
               (set_NullabilityMap State Region (NullabilityState_of Contradicted)))
  else
  match get_NullabilityMap State Region with
  | None =>
      if bool_decide (DestNullability <> Nullable) then Returns no_effect
      else
        Returns (transition
                   (set_NullabilityMap State Region
                      (mkNullabilityState DestNullability (Some (CE_stmt CE)))))
  | Some TrackedNullability =>
      if bool_decide (getValue TrackedNullability <> DestNullability) &&
         bool_decide (getValue TrackedNullability <> Contradicted)
      then
        Returns (transition
                   (set_NullabilityMap State Region
                      (NullabilityState_of Contradicted)))
      else Returns no_effect
  end end end.

(** [checkBind]. *)
Definition checkBind (Filter : NullabilityChecksFilter) (L V : SVal)
    (S : BindStmt) (C : CheckerContext) : Result :=
  match TypedValueRegion_getValueType (getAsRegion L) with
  | None => Returns no_effect
  | Some LocType =>
  if negb (isAnyPointerType LocType) then Returns no_effect else
  match getAs_DefinedOrUnknownSVal V with
  | None => Returns no_effect
  | Some ValDefOrUnknown =>
  let State := C_getState C in
  let RhsNullness := getNullConstraint ValDefOrUnknown State in
  let ValNullability :=
    match getAsSymbol ValDefOrUnknown with
    | Some Sym => getNullabilityAnnotation (Sym_getType Sym)
    | None => Unspecified
    end in
  let LocNullability := getNullabilityAnnotation LocType in
  if CheckNullPassedToNonnull Filter &&
     bool_decide (RhsNullness = IsNull) &&
     bool_decide (ValNullability <> Nonnull) &&
     bool_decide (LocNullability = Nonnull)
  then
    let N := addTransitionTagged State "NullPassedToNonnull" in
    Returns (report_at N
               (reportBug NilAssignedToNonnull N None (Some (Bind_stmt S))))
  else
  match getTrackRegion ValDefOrUnknown false with
  | None => Returns no_effect
  | Some ValueRegion =>
  match get_NullabilityMap State ValueRegion with
  | Some TrackedNullability =>
      if bool_decide (RhsNullness = IsNotNull) ||
         bool_decide (getValue TrackedNullability <> Nullable)
      then Returns no_effect
      else if CheckNullablePassedToNonnull Filter &&
              bool_decide (LocNullability = Nonnull)
      then
        let N := addTransitionTagged State "NullablePassedToNonnull" in
        Returns (report_at N
                   (reportBug NullableAssignedToNonnull N (Some ValueRegion) None))
      else Returns no_effect
  | None =>
      let BinOp := dyn_cast_BinaryOperator S in
      if bool_decide (ValNullability = Nullable) then
        let NullabilitySource :=
          match BinOp with
          | Some B => getRHS B
          | None => Bind_stmt S
          end in
        Returns (transition
                   (set_NullabilityMap State ValueRegion
                      (mkNullabilityState ValNullability (Some NullabilitySource))))
      else if bool_decide (LocNullability = Nullable) then
        let NullabilitySource :=
          match BinOp with
          | Some B => getLHS B
          | None => Bind_stmt S
          end in
        Returns (transition
                   (set_NullabilityMap State ValueRegion
                      (mkNullabilityState LocNullability (Some NullabilitySource))))
      else Returns no_effect
  end end end end.

(* ===================================================================== *)
(** ** Events and the states a path reaches *)
(* ===================================================================== *)

(** The events the engine notifies the checker of, each with the objects its
    callback receives. *)
Inductive CheckerEvent : Type :=
  | OnBind (L V : SVal) (S : BindStmt)
  | OnPreCall (Call : CallEvent)
  | OnPostCall (Call : CallEvent)
  | OnReturn (S : ReturnStmt)
  | OnExplicitCast (CE : ExplicitCastExpr)
  | OnObjCMessage (M : ObjCMethodCall)
  | OnDeadSymbols (SR : SymbolReaper)
  | OnImplicitNullDeref (Event : ImplicitNullDerefEvent).

Definition handle (Filter : NullabilityChecksFilter) (ev : CheckerEvent)
    (C : CheckerContext) : Result :=
  match ev with
  | OnBind L V BS => checkBind Filter L V BS C
  | OnPreCall Call => checkPreCall Filter Call C
  | OnPostCall Call => checkPostCall Call C
  | OnReturn RS => checkPreStmt Filter RS C
  | OnExplicitCast CE => checkPostStmt CE C
  | OnObjCMessage M => checkPostObjCMessage M C
  | OnDeadSymbols SR => checkDeadSymbols SR C
  | OnImplicitNullDeref Event => checkEvent Filter Event
  end.

(** The update rules proper: the callbacks that can change the map of a
    tracked location other than by forgetting it. *)
Definition isUpdateRule (ev : CheckerEvent) : bool :=
  match ev with
  | OnBind _ _ _ | OnPreCall _ | OnPostCall _ | OnReturn _
  | OnExplicitCast _ | OnObjCMessage _ => true
  | OnDeadSymbols _ | OnImplicitNullDeref _ => false
  end.

(** The states of the nodes a callback produces from the context [C]. *)
Definition producedStates (r : Result) : list ProgramState :=
  match r with
  | Returns e => map getState (nodes e)
  | Faults _ => []
  end.

(** The program states of a path: it starts with an empty map; between two
    callbacks the engine may change what the solver knows, but not the map;
    a callback leads to the states of the nodes it adds. *)
Inductive reachable (Filter : NullabilityChecksFilter) : ProgramState -> Prop :=
  | reachable_init (isNull0 : SVal -> ConditionTruthVal) :
      reachable Filter (mkProgramState isNull0 ∅)
  | reachable_assume (State : ProgramState) (isNull' : SVal -> ConditionTruthVal) :
      reachable Filter State ->
      reachable Filter (mkProgramState isNull' (NullabilityMap State))
  | reachable_step (C : CheckerContext) (ev : CheckerEvent) (State' : ProgramState) :
      reachable Filter (C_getState C) ->
      In State' (producedStates (handle Filter ev C)) ->
      reachable Filter State'.

(** Every entry of the map holds [Nullable] or [Contradicted]. *)
Definition sparse (State : ProgramState) : Prop :=
  forall (Region : MemRegion) (NS : NullabilityState),
    get_NullabilityMap State Region = Some NS ->
    getValue NS = Nullable \/ getValue NS = Contradicted.

(** The tracked value of a location, if it is tracked. *)
Definition trackedValue (State : ProgramState) (Region : MemRegion)
  : option Nullability :=
  getValue <$> get_NullabilityMap State Region.

(** What one update may do to the map, seen from the state before it: an
    entry of the state after it was there before or holds [Nullable] or
    [Contradicted]. *)
Definition keeps_sparse (State State' : ProgramState) : Prop :=
  forall (Region : MemRegion) (NS' : NullabilityState),
    get_NullabilityMap State' Region = Some NS' ->
    get_NullabilityMap State Region = Some NS' \/
    getValue NS' = Nullable \/ getValue NS' = Contradicted.

(** A location tracked as [Contradicted] before is tracked as
    [Contradicted] after. *)
Definition keeps_contradicted (State State' : ProgramState) : Prop :=
  forall Region : MemRegion,
    trackedValue State Region = Some Contradicted ->
    trackedValue State' Region = Some Contradicted.

(** One update is in order when both properties hold across it. *)
Definition update_ok (State State' : ProgramState) : Prop :=
  keeps_sparse State State' /\ keeps_contradicted State State'.

(** The states a path comes to after [State] when the engine changes what the
    solver knows and notifies the checker of events handled by update
    rules. *)
Inductive later (Filter : NullabilityChecksFilter) (State : ProgramState)
  : ProgramState -> Prop :=
  | later_now : later Filter State State
  | later_assume (State' : ProgramState) (isNull' : SVal -> ConditionTruthVal) :
      later Filter State State' ->
      later Filter State (mkProgramState isNull' (NullabilityMap State'))
  | later_step (C : CheckerContext) (ev : CheckerEvent) (State' : ProgramState) :
      later Filter State (C_getState C) ->
      isUpdateRule ev = true ->
      In State' (producedStates (handle Filter ev C)) ->
      later Filter State State'.

(** An outcome of the loop of [checkPreCall] is in order, seen from [State],
    when every state it carries is. *)
Definition LoopControl_ok (State : ProgramState) (r : LoopControl) : Prop :=
  match r with
  | LoopContinue State' | LoopBreak State' => update_ok State State'
  | LoopReturn e => forall N, In N (nodes e) -> update_ok State (getState N)
  | LoopFault _ => True
  end.

(* ===================================================================== *)
(** ** Further functions of the checker *)
(* ===================================================================== *)

(** [operator==(NullabilityState Lhs, NullabilityState Rhs)]. *)
Definition NullabilityState_equal (Lhs Rhs : NullabilityState) : bool :=
  bool_decide (getValue Lhs = getValue Rhs) &&
  bool_decide (getNullabilitySource Lhs = getNullabilitySource Rhs).

(** What [NullabilityState::Profile] adds to the [FoldingSetNodeID]: the
    code of the value with [AddInteger] and the source with [AddPointer]. *)
Inductive ProfileItem : Type :=
  | AddInteger (c : Z)
  | AddPointer (p : option Stmt).

Definition NullabilityState_Profile (NS : NullabilityState) : list ProfileItem :=
  [AddInteger (Nullability_to_char (getValue NS));
   AddPointer (getNullabilitySource NS)].

(** The character of the escape [\n]. *)
Definition newline : string := String (Ascii.ascii_of_nat 10) EmptyString.

(** [NullabilityState::print]: what it writes to the stream. *)
Definition NullabilityState_print (NS : NullabilityState) : string :=
  String.append (getNullabilityString (getValue NS)) newline.

(** A node of the exploded graph as the bug visitor reads it: its state and
    the statement of its program point when that is a [StmtPoint]. *)
Record VisitedNode : Type := mkVisitedNode {
  VN_getState : ProgramState;
  VN_getStmt : option Stmt
}.

(** The [PathDiagnosticEventPiece] of the visitor: the statement it is
    located at and its text. *)
Record PathDiagnosticEventPiece : Type := mkPiece {
  Piece_Pos : Stmt;
  Piece_InfoText : string
}.

(** [NullabilityBugVisitor::VisitNode] for the visitor of [Region]. *)
Definition VisitNode (Region : MemRegion) (N PrevN : VisitedNode)
  : option PathDiagnosticEventPiece :=
  let state := VN_getState N in
  let statePrev := VN_getState PrevN in
  let TrackedNullab := get_NullabilityMap state Region in
  let TrackedNullabPrev := get_NullabilityMap statePrev Region in
  match TrackedNullab with
  | None => None
  | Some TrackedNullab =>
      if match TrackedNullabPrev with
         | Some Prev => bool_decide (getValue Prev = getValue TrackedNullab)
         | None => false
         end
      then None
      else
        let S := match getNullabilitySource TrackedNullab with
                 | Some Source => Some Source
                 | None => VN_getStmt N
                 end in
        match S with
        | None => None
        | Some Pos =>
            let InfoText :=
              String.append "Nullability '"
                (String.append (getNullabilityString (getValue TrackedNullab))
                   "' is infered") in
            Some (mkPiece Pos InfoText)
        end
  end.

(** [printState]: what it writes to [Out].  [printRegion] is what
    [Out << I->first] writes for a region; the entries come in the order in
    which the map is iterated. *)
Definition printState (printRegion : MemRegion -> string) (State : ProgramState)
    (NL Sep : string) : string :=
  let B := NullabilityMap State in
  if bool_decide (B = ∅) then EmptyString
  else
    fold_left
      (fun (Out : string) (I : MemRegion * NullabilityState) =>
         String.append Out
           (String.append (printRegion I.1)
              (String.append " : "
                 (String.append (NullabilityState_print I.2) NL))))
      (map_to_list B)
      (String.append Sep NL).

(** The selector a report of each kind is emitted under.  A report of
    nullable-passed-to-nonnull comes from the call-argument check under
    [CheckNullablePassedToNonnull] and from [checkEvent] under
    [CheckNullableDereferenced]. *)
Definition selectorEnabled (Filter : NullabilityChecksFilter) (Error : ErrorKind)
  : bool :=
  match Error with
  | NilAssignedToNonnull => CheckNullPassedToNonnull Filter
  | NilPassedToNonnull => CheckNullPassedToNonnull Filter
  | NilReturnedToNonnull => CheckNullReturnedFromNonnull Filter
  | NullableAssignedToNonnull => CheckNullablePassedToNonnull Filter
  | NullableReturnedToNonnull => CheckNullableReturnedFromNonnull Filter
  | NullableDereferenced => CheckNullableDereferenced Filter
  | NullablePassedToNonnull =>
      CheckNullablePassedToNonnull Filter || CheckNullableDereferenced Filter
  end.

(** The kinds that stem from a value proven null. *)
Definition isNilKind (Error : ErrorKind) : bool :=
  match Error with
  | NilAssignedToNonnull | NilPassedToNonnull | NilReturnedToNonnull => true
  | _ => false
  end.

(** A report as the callbacks build it: its kind is selected, its message is
    that of its kind, and it carries either a cited expression with the
    request to track the null value, or a symbolic region that the state of
    its node tracks as nullable. *)
Definition report_wellformed (Filter : NullabilityChecksFilter) (r : BugReport)
  : Prop :=
  selectorEnabled Filter (report_Error r) = true /\
  report_Msg r = ErrorMessages (report_Error r) /\
  if isNilKind (report_Error r) then
    report_InterestingRegion r = None /\
    is_Some (report_Range r) /\
    report_trackNullOrUndefValue r = true
  else
    report_trackNullOrUndefValue r = false /\
    exists Sym : SymbolRef,
      report_InterestingRegion r = Some (SymbolicRegion Sym) /\
      trackedValue (getState (report_Node r)) (SymbolicRegion Sym) = Some Nullable.

(** The shape of what a callback produces: at most one node and at most one
    report; the report, unless it comes from [checkEvent], sits on the node
    the callback added; only the call-argument check adds sinks, and it
    reports exactly when it does. *)
Definition effects_shape (ev : CheckerEvent) (e : Effects) : Prop :=
  (length (nodes e) <= 1)%nat /\
  (length (reports e) <= 1)%nat /\
  (forall r, In r (reports e) ->
     match ev with
     | OnImplicitNullDeref Event => report_Node r = Event_SinkNode Event
     | _ => nodes e = [report_Node r]
     end) /\
  (forall N, In N (nodes e) ->
     match ev with
     | OnPreCall _ => isSink N = true <-> reports e <> []
     | _ => isSink N = false
     end).

(** What a callback may do to the state it starts in: the solver's verdicts
    are the same, every tracked location stays tracked, and an entry that is
    new or changed belongs to a symbolic region. *)
Definition grows (State State' : ProgramState) : Prop :=
  isNull State' = isNull State /\
  (forall Region, is_Some (get_NullabilityMap State Region) ->
                  is_Some (get_NullabilityMap State' Region)) /\
  (forall Region NS', get_NullabilityMap State' Region = Some NS' ->
     get_NullabilityMap State Region = Some NS' \/
     exists Sym : SymbolRef, Region = SymbolicRegion Sym).

(** [grows] for the outcome of the loop of [checkPreCall]. *)
Definition LoopControl_grows (State : ProgramState) (r : LoopControl) : Prop :=
  match r with
  | LoopContinue State' | LoopBreak State' => grows State State'
  | LoopReturn e => forall N, In N (nodes e) -> grows State (getState N)
  | LoopFault _ => True
  end.

(** Every key of the map is a symbolic region. *)
Definition symbolicKeys (State : ProgramState) : Prop :=
  forall (Region : MemRegion) (NS : NullabilityState),
    get_NullabilityMap State Region = Some NS ->
    exists Sym : SymbolRef, Region = SymbolicRegion Sym.

(** A location that [State'] tracks as Contradicted was tracked so in
    [State]. *)
Definition no_new_contradiction (State State' : ProgramState) : Prop :=
  forall Region : MemRegion,
    trackedValue State' Region = Some Contradicted ->
    trackedValue State Region = Some Contradicted.

(** [no_new_contradiction] for the outcome of the loop of [checkPreCall]. *)
Definition LoopControl_no_new_contradiction (State : ProgramState)
    (r : LoopControl) : Prop :=
  match r with
  | LoopContinue State' | LoopBreak State' => no_new_contradiction State State'
  | LoopReturn e =>
      forall N, In N (nodes e) -> no_new_contradiction State (getState N)
  | LoopFault _ => True
  end.

(* ===================================================================== *)
(** ** Sample objects, used to run the callbacks *)
(* ===================================================================== *)

Module Sample.

(** [Dummy *], [Dummy *_Nonnull], [Dummy *_Nullable], [Dummy &], [int]. *)
Definition PtrTy : QualType := mkQualType true false None.
Definition NonnullPtrTy : QualType := mkQualType true false (Some attr_nonnull).
Definition NullablePtrTy : QualType := mkQualType true false (Some attr_nullable).
Definition RefTy : QualType := mkQualType false true None.
Definition IntTy : QualType := mkQualType false false None.

(** A symbolic region, such as the one a call to an opaque function
    returns, and a second one. *)
Definition R1 : MemRegion := SymbolicRegion (mkSymbol 1 PtrTy).
Definition R2 : MemRegion := SymbolicRegion (mkSymbol 2 PtrTy).

(** A solver that knows nothing. *)
Definition knowsNothing : SVal -> ConditionTruthVal := fun _ => None.

Definition emptyState : ProgramState := mkProgramState knowsNothing ∅.

(** [R1] is tracked as nullable. *)
Definition nullableState : ProgramState :=
  mkProgramState knowsNothing {[ R1 := NullabilityState_of Nullable ]}.

Definition contradictedState : ProgramState :=
  mkProgramState knowsNothing {[ R1 := NullabilityState_of Contradicted ]}.

(** A context at [State] in a function returning [RetTy], where every
    statement evaluates to the location [R1]. *)
Definition contextAt (State : ProgramState) (RetTy : QualType) : CheckerContext :=
  mkContext State (fun _ => loc_MemRegionVal R1)
    (Some (mkFunctionType RetTy)) false.

Definition allChecks : NullabilityChecksFilter :=
  mkFilter true true true true true.

Definition noChecks : NullabilityChecksFilter :=
  mkFilter false false false false false.

(** The reaper of a sweep in which nothing is live any more. *)
Definition allDead : SymbolReaper := mkSymbolReaper (fun _ => false).

(** [void takesNonnull(Dummy *_Nonnull)] and the call [takesNonnull(p)],
    where [p] has type [Dummy *] and holds the location [R1]. *)
Definition takesNonnullDecl : Decl :=
  mkDecl (Some (mkFunctionType IntTy)) "test.h".

Definition nonnullParam : ParmVarDecl := mkParmVarDecl false NonnullPtrTy "p".

Definition argP : Expr := mkExpr 10%positive PtrTy.

Definition callTakesNonnull : CallEvent :=
  mkCallEvent (Some takesNonnullDecl) CE_Function [nonnullParam] 1
    (fun _ => Some argP) (fun _ => loc_MemRegionVal R1) UnknownVal.

(** A call of a function defined with one pointer parameter that passes no
    argument, as C allows through a declaration without a prototype.  The
    engine has no value for the missing argument. *)
Definition callWithoutArgs : CallEvent :=
  mkCallEvent (Some takesNonnullDecl) CE_Function [nonnullParam] 0
    (fun _ => None) (fun _ => UnknownVal) UnknownVal.

(** A solver that has proven the null pointer constant null, and nothing
    else. *)
Definition provesNull : SVal -> ConditionTruthVal :=
  fun Val => if bool_decide (Val = loc_ConcreteInt 0) then Some true else None.

(** A context in a function that returns [Dummy *_Nonnull], where every
    statement evaluates to the null pointer. *)
Definition nullContext : CheckerContext :=
  mkContext (mkProgramState provesNull ∅) (fun _ => loc_ConcreteInt 0)
    (Some (mkFunctionType NonnullPtrTy)) false.

(** [return p;] with [p] of type [Dummy *]. *)
Definition returnP : ReturnStmt :=
  mkReturnStmt 20%positive (Some (mkExpr 21%positive PtrTy)).

(** The variable [Dummy *_Nonnull nonnull] and the assignment
    [nonnull = q]. *)
Definition nonnullVar : SVal := loc_MemRegionVal (VarRegion 5 NonnullPtrTy).

Definition assignStmt : BindStmt :=
  mkBindStmt 30%positive (Some (mkBinaryOperator 31%positive 32%positive)).

(** [Dummy *_Nullable returnsNullable()] and a call of it whose result is the
    location [R1]. *)
Definition returnsNullableDecl : Decl :=
  mkDecl (Some (mkFunctionType NullablePtrTy)) "test.h".

Definition callReturnsNullable : CallEvent :=
  mkCallEvent (Some returnsNullableDecl) CE_Function [] 0
    (fun _ => None) (fun _ => UnknownVal) (loc_MemRegionVal R1).

(** The cast [(Dummy *_Nonnull)returnsNullable()]. *)
Definition castToNonnull : ExplicitCastExpr :=
  mkExplicitCastExpr 40%positive NonnullPtrTy (mkExpr 41%positive NullablePtrTy).

(** A state in which [R1] is contradicted and the solver has proven every
    value null. *)
Definition contradictedNullState : ProgramState :=
  mkProgramState (fun _ => Some true) {[ R1 := NullabilityState_of Contradicted ]}.

(** A state in which [R1] is tracked as nullable and the solver has proven
    every value null. *)
Definition nullableNullState : ProgramState :=
  mkProgramState (fun _ => Some true) {[ R1 := NullabilityState_of Nullable ]}.

(** [[self objectForKey:k]] in a subclass of [NSDictionary], and
    [[self returnsNonnull]] in [TestObject]; the result of either is the
    location [R1]. *)
Definition msgDictionary : ObjCMethodCall :=
  mkObjCMethodCall (Some (mkObjCMethodDecl PtrTy (Some "NSDictionary")))
    (loc_MemRegionVal R1) true "objectForKey" []
    (mkObjCMessageExpr 50%positive None) true UnknownVal OCM_Message.

Definition msgTestObject : ObjCMethodCall :=
  mkObjCMethodCall (Some (mkObjCMethodDecl NonnullPtrTy (Some "TestObject")))
    (loc_MemRegionVal R1) true "returnsNonnull" []
    (mkObjCMessageExpr 52%positive None) true UnknownVal OCM_Message.

(** The variable [Dummy *p] and the initialisation [Dummy *p = ...]. *)
Definition varP : SVal := loc_MemRegionVal (VarRegion 6 PtrTy).

Definition declStmt : BindStmt := mkBindStmt 60%positive None.

(** [void takesNullable(Dummy *_Nullable)] called as [takesNullable(p)]. *)
Definition callTakesNullable : CallEvent :=
  mkCallEvent (Some takesNonnullDecl) CE_Function
    [mkParmVarDecl false NullablePtrTy "p"] 1
    (fun _ => Some argP) (fun _ => loc_MemRegionVal R1) UnknownVal.

(** A solver that has proven the location [R1] non-null, as inside
    [if (p) { ... }]. *)
Definition provesNonnull : SVal -> ConditionTruthVal :=
  fun Val => if bool_decide (Val = loc_MemRegionVal R1) then Some false else None.

(** The implicit dereference [p->val]: the location is the field [val] of
    the region [R1], and the event brings its sink. *)
Definition derefField : ImplicitNullDerefEvent :=
  mkImplicitNullDerefEvent (loc_MemRegionVal (FieldRegion 8 IntTy R1)) true
    (mkNode nullableState true None).

(** [CGPathRef CGPathCreate()] declared in [CGPath.h], returning the location
    [R1]. *)
Definition callCG : CallEvent :=
  mkCallEvent (Some (mkDecl (Some (mkFunctionType NullablePtrTy)) "CGPath.h"))
    CE_Function [] 0 (fun _ => None) (fun _ => UnknownVal) (loc_MemRegionVal R1).

(** [[nullable returnsNonnull]]: a message to a receiver at the location
    [R2]; its result is the location [R1]. *)
Definition msgToReceiver : ObjCMethodCall :=
  mkObjCMethodCall (Some (mkObjCMethodDecl NonnullPtrTy (Some "TestObject")))
    (loc_MemRegionVal R1) true "returnsNonnull" []
    (mkObjCMessageExpr 54%positive (Some 55%positive)) false
    (loc_MemRegionVal R2) OCM_Message.

(** [R2] is tracked as nullable, nothing else is. *)
Definition receiverNullableState : ProgramState :=
  mkProgramState knowsNothing {[ R2 := NullabilityState_of Nullable ]}.

(** The read of the property [stuff], declared [_Nullable], on [self]. *)
Definition msgProperty : ObjCMethodCall :=
  mkObjCMethodCall (Some (mkObjCMethodDecl NullablePtrTy (Some "TestObject")))
    (loc_MemRegionVal R1) true "stuff" []
    (mkObjCMessageExpr 56%positive None) true UnknownVal OCM_PropertyAccess.

(** Two nodes of a path: before and after [R1] became nullable at the
    statement 70. *)
Definition nodeBefore : VisitedNode := mkVisitedNode emptyState (Some 69%positive).

Definition nodeAfter : VisitedNode := mkVisitedNode nullableState (Some 70%positive).

(** [void f(Dummy *, Dummy *_Nonnull)] called as [f(x, x)], where [x] has type
    [Dummy *_Nullable] and holds the location [R1]. *)
Definition argX : Expr := mkExpr 80%positive NullablePtrTy.

Definition callTwice : CallEvent :=
  mkCallEvent (Some takesNonnullDecl) CE_Function
    [mkParmVarDecl false PtrTy "a"; nonnullParam] 2
    (fun _ => Some argX) (fun _ => loc_MemRegionVal R1) UnknownVal.

(** The symbol of a parameter declared [Dummy *_Nullable] and the location it
    points to. *)
Definition R3 : MemRegion := SymbolicRegion (mkSymbol 3 NullablePtrTy).

End Sample.

(* ===================================================================== *)
(** ** The lattice: [getMostNullable] *)
(* ===================================================================== *)

Lemma getMostNullable_cast (a b : Nullability) :
  Nullability_of_char
    (std_min (Nullability_to_char a) (Nullability_to_char b))
  = Some (getMostNullable a b).
Proof. destruct a, b; reflexivity. Qed.

Lemma getMostNullable_le_l (a b : Nullability) :
  Nullability_le (getMostNullable a b) a.
Proof. destruct a, b; unfold Nullability_le; simpl; lia. Qed.

Lemma getMostNullable_le_r (a b : Nullability) :
  Nullability_le (getMostNullable a b) b.
Proof. destruct a, b; unfold Nullability_le; simpl; lia. Qed.

Lemma getMostNullable_cases (a b : Nullability) :
  getMostNullable a b = a \/ getMostNullable a b = b.
Proof. destruct a, b; simpl; auto. Qed.

Lemma getMostNullable_neq_lt (a b : Nullability) :
  getMostNullable a b <> a ->
  getMostNullable a b = b /\ Nullability_lt b a.
Proof.
  destruct a, b; unfold Nullability_lt; simpl; intros H;
    try (exfalso; apply H; reflexivity); split; (reflexivity || lia).
Qed.

(** C6.  [getMostNullable] is total on the four values ranked
    Contradicted < Nullable < Unspecified < Nonnull: the cast back from the
    minimum of the two codes always names an enumerator.  Its result is the
    minimum of its operands in that ranking: one of the two, and below both.
    Hence it is commutative and idempotent, and [Contradicted] absorbs. *)
Theorem C6_getMostNullable_is_lattice_min :
  (Nullability_lt Contradicted Nullable /\
   Nullability_lt Nullable Unspecified /\
   Nullability_lt Unspecified Nonnull) /\
  forall a b : Nullability,
    Nullability_of_char
      (std_min (Nullability_to_char a) (Nullability_to_char b))
    = Some (getMostNullable a b) /\
    (getMostNullable a b = a \/ getMostNullable a b = b) /\
    Nullability_le (getMostNullable a b) a /\
    Nullability_le (getMostNullable a b) b /\
    getMostNullable a b = getMostNullable b a /\
    getMostNullable a a = a /\
    getMostNullable Contradicted a = Contradicted.
Proof.
  split.
  - unfold Nullability_lt; simpl; lia.
  - intros a b.
    split; [apply getMostNullable_cast |].
    split; [apply getMostNullable_cases |].
    split; [apply getMostNullable_le_l |].
    split; [apply getMostNullable_le_r |].
    split; [destruct a, b; reflexivity |].
    split; [destruct a; reflexivity | destruct a; reflexivity].
Qed.

(* ===================================================================== *)
(** ** The liveness sweep *)
(* ===================================================================== *)

(** The fold of the sweep over any list of entries: a region that occurs in
    the list and is not live is removed, every other lookup is unchanged. *)
Lemma sweep_fold_lookup (SR : SymbolReaper)
    (l : list (MemRegion * NullabilityState)) (State : ProgramState)
    (Region : MemRegion) :
  get_NullabilityMap
    (fold_left
       (fun (State : ProgramState) (I : MemRegion * NullabilityState) =>
          if negb (isLiveRegion SR I.1) then remove_NullabilityMap State I.1
          else State) l State) Region
  = if bool_decide (Region ∈ l.*1) && negb (isLiveRegion SR Region)
    then None else get_NullabilityMap State Region.
Proof.
  revert State.
  induction l as [| [K V] l IH]; intros State.
  - reflexivity.
  - cbn [fold_left]. rewrite IH, fmap_cons. clear IH. cbn [fst].
    destruct (decide (K = Region)) as [-> | Hne].
    + rewrite (bool_decide_eq_true_2 (Region ∈ Region :: l.*1))
        by apply list_elem_of_here.
      simpl.
      destruct (isLiveRegion SR Region) eqn:Hlive; simpl.
      * rewrite andb_false_r. reflexivity.
      * rewrite andb_true_r.
        destruct (bool_decide (Region ∈ l.*1)); [reflexivity |].
        unfold get_NullabilityMap, remove_NullabilityMap; simpl.
        apply lookup_delete_eq.
    + assert (Hiff : bool_decide (Region ∈ K :: l.*1)
                     = bool_decide (Region ∈ l.*1)).
      { apply bool_decide_ext. rewrite elem_of_cons. intuition congruence. }
      rewrite Hiff.
      destruct (bool_decide (Region ∈ l.*1) && negb (isLiveRegion SR Region));
        [reflexivity |].
      destruct (negb (isLiveRegion SR K)); [| reflexivity].
      unfold get_NullabilityMap, remove_NullabilityMap; simpl.
      apply lookup_delete_ne. exact Hne.
Qed.

(** The state the loop of [checkDeadSymbols] computes holds exactly the live
    entries of the map. *)
Lemma checkDeadSymbols_loop_lookup (SR : SymbolReaper) (State : ProgramState)
    (Region : MemRegion) :
  get_NullabilityMap (checkDeadSymbols_loop SR State) Region
  = if isLiveRegion SR Region then get_NullabilityMap State Region else None.
Proof.
  unfold checkDeadSymbols_loop. rewrite sweep_fold_lookup.
  destruct (isLiveRegion SR Region); simpl.
  - rewrite andb_false_r. reflexivity.
  - rewrite andb_true_r.
    destruct (bool_decide (Region ∈ (map_to_list (NullabilityMap State)).*1))
      eqn:Hin; [reflexivity |].
    apply bool_decide_eq_false in Hin.
    unfold get_NullabilityMap.
    destruct (NullabilityMap State !! Region) as [NS |] eqn:Hlk; [| reflexivity].
    exfalso. apply Hin.
    apply list_elem_of_fmap. exists (Region, NS). split; [reflexivity |].
    apply elem_of_map_to_list. exact Hlk.
Qed.

(** [checkDeadSymbols] adds no node, whatever the reaper says. *)
Lemma checkDeadSymbols_no_effect (SR : SymbolReaper) (C : CheckerContext) :
  checkDeadSymbols SR C = Returns no_effect.
Proof. reflexivity. Qed.

(** C1, as the code has it.  With [R1] tracked and a sweep that reports no
    region live, the loop of [checkDeadSymbols] computes a state without
    [R1], but the callback adds no node for it: the path goes on from the
    state it had, in which the lookup of [R1] still finds the entry. *)
Theorem C1_checkDeadSymbols_keeps_dead_entry :
  let C := Sample.contextAt Sample.nullableState Sample.PtrTy in
  isLiveRegion Sample.allDead Sample.R1 = false /\
  get_NullabilityMap
    (checkDeadSymbols_loop Sample.allDead Sample.nullableState) Sample.R1 = None /\
  checkDeadSymbols Sample.allDead C = Returns no_effect /\
  resultingStates (C_getState C) no_effect = [Sample.nullableState] /\
  get_NullabilityMap Sample.nullableState Sample.R1
  = Some (NullabilityState_of Nullable).
Proof.
  simpl. split; [reflexivity |].
  split; [rewrite checkDeadSymbols_loop_lookup; reflexivity |].
  split; [reflexivity |].
  split; [reflexivity |].
  vm_compute. reflexivity.
Qed.

(* ===================================================================== *)
(** ** The call-argument check and missing arguments *)
(* ===================================================================== *)

(** Beyond the actual arguments the body of the loop has no argument
    expression; it reads its type all the same once the value the engine
    gives for the index is defined or unknown and the parameter is a pointer
    or a reference. *)
Lemma checkPreCall_body_missing_argument (Filter : NullabilityChecksFilter)
    (Call : CallEvent) (State : ProgramState) (Idx : nat) (Param : ParmVarDecl) :
  isParameterPack Param = false ->
  (getNumArgs Call <= Idx)%nat ->
  getArgSVal Call Idx <> UndefinedVal ->
  isAnyPointerType (Param_getType Param) || isReferenceType (Param_getType Param) = true ->
  checkPreCall_body Filter Call State Idx Param = LoopFault NullPointerDereference.
Proof.
  intros Hpack Hidx Hval Hty.
  unfold checkPreCall_body. rewrite Hpack.
  assert (Hlt : (Idx <? getNumArgs Call)%nat = false) by (apply Nat.ltb_ge; exact Hidx).
  rewrite Hlt.
  destruct (getArgSVal Call Idx) eqn:Hsv; try congruence; simpl;
    apply orb_true_iff in Hty; destruct Hty as [-> | ->]; simpl;
    rewrite ?andb_false_r; reflexivity.
Qed.

(** With an argument expression at the index the body of the loop performs
    no faulty read. *)
Lemma checkPreCall_body_no_fault (Filter : NullabilityChecksFilter)
    (Call : CallEvent) (State : ProgramState) (Idx : nat) (Param : ParmVarDecl)
    (ArgE : Expr) (f : Fault) :
  (Idx < getNumArgs Call)%nat ->
  getArgExpr Call Idx = Some ArgE ->
  checkPreCall_body Filter Call State Idx Param <> LoopFault f.
Proof.
  intros Hidx Hexpr. unfold checkPreCall_body.
  assert (Hlt : (Idx <? getNumArgs Call)%nat = true) by (apply Nat.ltb_lt; exact Hidx).
  rewrite Hlt, Hexpr.
  repeat case_match; discriminate.
Qed.

(** A call that passes an argument expression for each of its parameters is
    checked without a faulty read. *)
Lemma checkPreCall_loop_no_fault (Filter : NullabilityChecksFilter)
    (Call : CallEvent) (Params : list ParmVarDecl) (f : Fault) :
  (forall i, (i < getNumArgs Call)%nat -> is_Some (getArgExpr Call i)) ->
  forall (State : ProgramState) (Idx : nat),
    (Idx + length Params <= getNumArgs Call)%nat ->
    checkPreCall_loop Filter Call State Idx Params <> LoopFault f.
Proof.
  intros Hargs.
  induction Params as [| Param Rest IH]; intros State Idx Hlen; simpl in *.
  - discriminate.
  - destruct (Hargs Idx ltac:(lia)) as [ArgE Hexpr].
    pose proof (checkPreCall_body_no_fault Filter Call State Idx Param ArgE f
                  ltac:(lia) Hexpr) as Hbody.
    destruct (checkPreCall_body Filter Call State Idx Param) as [S1 | S1 | e | f'];
      try discriminate.
    + apply IH. lia.
    + intros Heq. apply Hbody. exact Heq.
Qed.

(** C10, as the code has it.  A call that passes no argument to a function
    declared with one pointer parameter: the loop sets [ArgExpr] to null,
    because the index is not below the number of arguments, and then reads
    [ArgExpr->getType()]. *)
Theorem C10_checkPreCall_reads_missing_argument_expr :
  (getNumArgs Sample.callWithoutArgs
   < length (parameters Sample.callWithoutArgs))%nat /\
  forall Filter : NullabilityChecksFilter,
    checkPreCall Filter Sample.callWithoutArgs
      (Sample.contextAt Sample.emptyState Sample.PtrTy)
    = Faults NullPointerDereference.
Proof.
  split; [simpl; lia |].
  intros Filter. reflexivity.
Qed.

(* ===================================================================== *)
(** ** Null values: the return statement and the bind *)
(* ===================================================================== *)

(** C2, as amended.  For a return statement with a pointer-typed operand
    whose value the solver has proven null, in a function whose return type
    is annotated Nonnull, and with the selector CheckNullReturnedFromNonnull
    enabled, [checkPreStmt] reports null-returned-to-nonnull, citing the
    return statement, on a tagged transition that carries the unchanged
    state.  That node is not a sink: the path goes on from it. *)
Theorem C2_null_return_reported_on_transition
    (Filter : NullabilityChecksFilter) (S : ReturnStmt) (C : CheckerContext)
    (RetExpr : Expr) (RetSVal : SVal) (FuncType : FunctionType) :
  getRetValue S = Some RetExpr ->
  isAnyPointerType (Expr_getType RetExpr) = true ->
  getAs_DefinedOrUnknownSVal (C_getSVal C (Return_stmt S)) = Some RetSVal ->
  C_getFunctionType C = Some FuncType ->
  getNullConstraint RetSVal (C_getState C) = IsNull ->
  getNullabilityAnnotation (getReturnType FuncType) = Nonnull ->
  CheckNullReturnedFromNonnull Filter = true ->
  let N := addTransitionTagged (C_getState C) "NullReturnedFromNonnull" in
  let e := report_at N
             (reportBug NilReturnedToNonnull N None (Some (Return_stmt S))) in
  checkPreStmt Filter S C = Returns e /\
  isSink N = false /\
  resultingStates (C_getState C) e = [C_getState C].
Proof.
  intros Hret Hptr Hval Hfun Hnull Hann Hsel N e.
  split; [| split; reflexivity].
  unfold checkPreStmt.
  rewrite Hret, Hptr, Hval, Hfun, Hnull, Hann, Hsel. reflexivity.
Qed.

Lemma C2_null_return_witness :
  checkPreStmt Sample.allChecks Sample.returnP Sample.nullContext
  = Returns
      (report_at
         (addTransitionTagged (C_getState Sample.nullContext)
            "NullReturnedFromNonnull")
         (reportBug NilReturnedToNonnull
            (addTransitionTagged (C_getState Sample.nullContext)
               "NullReturnedFromNonnull")
            None (Some (Return_stmt Sample.returnP)))).
Proof.
  apply (C2_null_return_reported_on_transition Sample.allChecks Sample.returnP
           Sample.nullContext (mkExpr 21%positive Sample.PtrTy)
           (loc_ConcreteInt 0) (mkFunctionType Sample.NonnullPtrTy));
    reflexivity.
Defined.

(** C2, as stated, fails.  [return p;] with [p] proven null in a function
    returning [Dummy *_Nonnull]: with every check selected the report sits on
    a node that is no sink and the path is not stopped; with no check
    selected nothing is reported at all. *)
Lemma C2_return_null_not_fatal :
  getNullConstraint (C_getSVal Sample.nullContext (Return_stmt Sample.returnP))
    (C_getState Sample.nullContext) = IsNull /\
  (getNullabilityAnnotation <$> (getReturnType <$> C_getFunctionType Sample.nullContext))
  = Some Nonnull /\
  (exists e : Effects,
     checkPreStmt Sample.allChecks Sample.returnP Sample.nullContext = Returns e /\
     (report_Error <$> reports e) = [NilReturnedToNonnull] /\
     (isSink <$> nodes e) = [false] /\
     resultingStates (C_getState Sample.nullContext) e <> []) /\
  checkPreStmt Sample.noChecks Sample.returnP Sample.nullContext = Returns no_effect.
Proof.
  split; [reflexivity |]. split; [reflexivity |]. split; [| reflexivity].
  eexists. split; [reflexivity |]. split; [reflexivity |].
  split; [reflexivity | discriminate].
Qed.

(** C7, as amended.  For a bind into a typed location of pointer type
    annotated Nonnull, of a value the solver has proven null and whose own
    static annotation (that of its symbol, Unspecified without one) is not
    Nonnull, and with the selector CheckNullPassedToNonnull enabled,
    [checkBind] reports null-assigned-to-nonnull, citing the statement of the
    bind, on a tagged transition that carries the unchanged state.  The node
    is not a sink: the path goes on from it. *)
Theorem C7_null_assignment_reported_advisory
    (Filter : NullabilityChecksFilter) (L V : SVal) (S : BindStmt)
    (C : CheckerContext) (LocType : QualType) (ValDefOrUnknown : SVal) :
  TypedValueRegion_getValueType (getAsRegion L) = Some LocType ->
  isAnyPointerType LocType = true ->
  getAs_DefinedOrUnknownSVal V = Some ValDefOrUnknown ->
  getNullConstraint ValDefOrUnknown (C_getState C) = IsNull ->
  match getAsSymbol ValDefOrUnknown with
  | Some Sym => getNullabilityAnnotation (Sym_getType Sym)
  | None => Unspecified
  end <> Nonnull ->
  getNullabilityAnnotation LocType = Nonnull ->
  CheckNullPassedToNonnull Filter = true ->
  let N := addTransitionTagged (C_getState C) "NullPassedToNonnull" in
  let e := report_at N
             (reportBug NilAssignedToNonnull N None (Some (Bind_stmt S))) in
  checkBind Filter L V S C = Returns e /\
  isSink N = false /\
  resultingStates (C_getState C) e = [C_getState C].
Proof.
  intros Hloc Hptr Hval Hnull Hann Hlocann Hsel N e.
  split; [| split; reflexivity].
  unfold checkBind.
  rewrite Hloc, Hptr, Hval, Hnull, Hlocann, Hsel.
  rewrite (bool_decide_eq_true_2 _ Hann). reflexivity.
Qed.

Lemma C7_null_assignment_witness :
  checkBind Sample.allChecks Sample.nonnullVar (loc_ConcreteInt 0)
    Sample.assignStmt Sample.nullContext
  = Returns
      (report_at
         (addTransitionTagged (C_getState Sample.nullContext) "NullPassedToNonnull")
         (reportBug NilAssignedToNonnull
            (addTransitionTagged (C_getState Sample.nullContext)
               "NullPassedToNonnull")
            None (Some (Bind_stmt Sample.assignStmt)))).
Proof.
  apply (C7_null_assignment_reported_advisory Sample.allChecks Sample.nonnullVar
           (loc_ConcreteInt 0) Sample.assignStmt Sample.nullContext
           Sample.NonnullPtrTy (loc_ConcreteInt 0));
    (reflexivity || discriminate).
Defined.

(** C7, as stated, fails.  [nonnull = q] with [q] proven null and
    [nonnull] declared [Dummy *_Nonnull]: when the selector
    CheckNullPassedToNonnull is not enabled, [checkBind] reports nothing. *)
Lemma C7_null_assignment_unreported :
  TypedValueRegion_getValueType (getAsRegion Sample.nonnullVar)
  = Some Sample.NonnullPtrTy /\
  getNullabilityAnnotation Sample.NonnullPtrTy = Nonnull /\
  getNullConstraint (loc_ConcreteInt 0) (C_getState Sample.nullContext) = IsNull /\
  getAsSymbol (loc_ConcreteInt 0) = None /\
  checkBind Sample.noChecks Sample.nonnullVar (loc_ConcreteInt 0)
    Sample.assignStmt Sample.nullContext
  = Returns no_effect.
Proof. repeat split; reflexivity. Qed.

(* ===================================================================== *)
(** ** What the update rules preserve *)
(* ===================================================================== *)

Lemma get_set_eq (State : ProgramState) (Region : MemRegion) (V : NullabilityState) :
  get_NullabilityMap (set_NullabilityMap State Region V) Region = Some V.
Proof. unfold get_NullabilityMap, set_NullabilityMap; simpl. apply lookup_insert_eq. Qed.

Lemma get_set_ne (State : ProgramState) (Region Region' : MemRegion)
    (V : NullabilityState) :
  Region <> Region' ->
  get_NullabilityMap (set_NullabilityMap State Region V) Region'
  = get_NullabilityMap State Region'.
Proof.
  intros Hne. unfold get_NullabilityMap, set_NullabilityMap; simpl.
  apply lookup_insert_ne. exact Hne.
Qed.

Lemma update_ok_refl (State : ProgramState) : update_ok State State.
Proof.
  split.
  - intros Region NS' H. left. exact H.
  - intros Region H. exact H.
Qed.

Lemma update_ok_trans (S1 S2 S3 : ProgramState) :
  update_ok S1 S2 -> update_ok S2 S3 -> update_ok S1 S3.
Proof.
  intros [Hs12 Hc12] [Hs23 Hc23]. split.
  - intros Region NS' H.
    destruct (Hs23 Region NS' H) as [H2 | Hv]; [| right; exact Hv].
    apply Hs12. exact H2.
  - intros Region H. apply Hc23, Hc12, H.
Qed.

(** Writing [v] for a region is in order when [v] is [Nullable] or
    [Contradicted] and the region was not tracked as [Contradicted] with
    another value to come. *)
Lemma update_ok_set (State : ProgramState) (Region : MemRegion)
    (v : Nullability) (Source : option Stmt) :
  v = Nullable \/ v = Contradicted ->
  (forall NS, get_NullabilityMap State Region = Some NS ->
              getValue NS = Contradicted -> v = Contradicted) ->
  update_ok State (set_NullabilityMap State Region (mkNullabilityState v Source)).
Proof.
  intros Hv Habs. split.
  - intros Region' NS' H.
    destruct (decide (Region = Region')) as [<- | Hne].
    + rewrite get_set_eq in H. injection H as <-. right. exact Hv.
    + rewrite get_set_ne in H by exact Hne. left. exact H.
  - intros Region' H. unfold trackedValue in *.
    destruct (decide (Region = Region')) as [<- | Hne].
    + rewrite get_set_eq. simpl.
      destruct (get_NullabilityMap State Region) as [NS |] eqn:Hget;
        simpl in H; [| discriminate].
      injection H as H. rewrite (Habs NS eq_refl H). reflexivity.
    + rewrite get_set_ne by exact Hne. exact H.
Qed.

Lemma update_ok_set_untracked (State : ProgramState) (Region : MemRegion)
    (v : Nullability) (Source : option Stmt) :
  get_NullabilityMap State Region = None ->
  v = Nullable \/ v = Contradicted ->
  update_ok State (set_NullabilityMap State Region (mkNullabilityState v Source)).
Proof.
  intros Hnone Hv. apply update_ok_set; [exact Hv |].
  intros NS Hsome. congruence.
Qed.

Lemma update_ok_set_Contradicted (State : ProgramState) (Region : MemRegion) :
  update_ok State (set_NullabilityMap State Region (NullabilityState_of Contradicted)).
Proof. apply update_ok_set; [right; reflexivity | reflexivity]. Qed.

(** The merge of a dispatch result: a computed value that differs from the
    tracked one is strictly below it, so once [Unspecified] is excluded it
    is [Nullable] or [Contradicted], and the tracked value was not
    [Contradicted]. *)
Lemma update_ok_set_merge (State : ProgramState) (Region : MemRegion)
    (NS : NullabilityState) (Self : Nullability) (Source : option Stmt) :
  get_NullabilityMap State Region = Some NS ->
  getMostNullable (getValue NS) Self <> getValue NS ->
  getMostNullable (getValue NS) Self <> Unspecified ->
  update_ok State
    (set_NullabilityMap State Region
       (mkNullabilityState (getMostNullable (getValue NS) Self) Source)).
Proof.
  intros Hget Hne Hun.
  apply update_ok_set.
  - revert Hne Hun.
    destruct (getValue NS), Self; intros Hne Hun;
      vm_compute in Hne, Hun; vm_compute; auto; congruence.
  - intros NS0 Hget0 Hc. rewrite Hget in Hget0. injection Hget0 as <-.
    revert Hne. rewrite Hc. destruct Self; intros Hne; vm_compute in Hne; congruence.
Qed.

(** Turn the boolean tests a callback branched on into propositions. *)
Ltac bool_hyps :=
  repeat match goal with
  | H : _ && _ = true |- _ => apply andb_true_iff in H; destruct H
  | H : bool_decide _ = true |- _ => apply bool_decide_eq_true in H
  | H : bool_decide _ = false |- _ => apply bool_decide_eq_false in H
  | H : negb _ = true |- _ => apply negb_true_iff in H
  | H : negb _ = false |- _ => apply negb_false_iff in H
  | H : ~ (_ <> _) |- _ => apply dec_stable in H
  end.

(** Close a goal [update_ok State State'] for the state of one branch. *)
Ltac close_update :=
  bool_hyps;
  first
    [ apply update_ok_refl
    | apply update_ok_set_Contradicted
    | apply update_ok_set_untracked;
      [ assumption | first [ left; assumption | left; reflexivity | right; reflexivity ] ]
    | eapply update_ok_set_merge; eassumption ].

(** Split a callback into its branches and close each one. *)
Ltac by_branches :=
  repeat case_match; simpl;
  intros Hin;
  repeat match goal with
  | H : False |- _ => destruct H
  | H : _ \/ _ |- _ => destruct H
  end;
  subst; simpl; close_update.

Lemma checkBind_update_ok (Filter : NullabilityChecksFilter) (L V : SVal)
    (S : BindStmt) (C : CheckerContext) (State' : ProgramState) :
  In State' (producedStates (checkBind Filter L V S C)) ->
  update_ok (C_getState C) State'.
Proof. unfold checkBind. by_branches. Qed.

Lemma checkPreStmt_update_ok (Filter : NullabilityChecksFilter) (S : ReturnStmt)
    (C : CheckerContext) (State' : ProgramState) :
  In State' (producedStates (checkPreStmt Filter S C)) ->
  update_ok (C_getState C) State'.
Proof. unfold checkPreStmt. by_branches. Qed.

Lemma checkPostCall_update_ok (Call : CallEvent) (C : CheckerContext)
    (State' : ProgramState) :
  In State' (producedStates (checkPostCall Call C)) ->
  update_ok (C_getState C) State'.
Proof. unfold checkPostCall. by_branches. Qed.

Lemma checkPostStmt_update_ok (CE : ExplicitCastExpr) (C : CheckerContext)
    (State' : ProgramState) :
  In State' (producedStates (checkPostStmt CE C)) ->
  update_ok (C_getState C) State'.
Proof. unfold checkPostStmt. by_branches. Qed.

Lemma checkPostObjCMessage_update_ok (M : ObjCMethodCall) (C : CheckerContext)
    (State' : ProgramState) :
  In State' (producedStates (checkPostObjCMessage M C)) ->
  update_ok (C_getState C) State'.
Proof. unfold checkPostObjCMessage. by_branches. Qed.

Lemma checkPreCall_body_ok (Filter : NullabilityChecksFilter) (Call : CallEvent)
    (State : ProgramState) (Idx : nat) (Param : ParmVarDecl) :
  LoopControl_ok State (checkPreCall_body Filter Call State Idx Param).
Proof.
  unfold checkPreCall_body.
  repeat case_match; simpl; try exact I; try close_update;
    intros N [<- | []]; simpl; apply update_ok_refl.
Qed.

Lemma checkPreCall_loop_ok (Filter : NullabilityChecksFilter) (Call : CallEvent)
    (Params : list ParmVarDecl) :
  forall (State : ProgramState) (Idx : nat),
    LoopControl_ok State (checkPreCall_loop Filter Call State Idx Params).
Proof.
  induction Params as [| Param Rest IH]; intros State Idx; simpl.
  - apply update_ok_refl.
  - pose proof (checkPreCall_body_ok Filter Call State Idx Param) as Hbody.
    destruct (checkPreCall_body Filter Call State Idx Param) as [S1 | S1 | e | f];
      simpl in *; try assumption.
    specialize (IH S1 (S Idx)).
    destruct (checkPreCall_loop Filter Call S1 (S Idx) Rest) as [S2 | S2 | e | f];
      simpl in *; try exact I.
    + eapply update_ok_trans; eassumption.
    + eapply update_ok_trans; eassumption.
    + intros N HN. eapply update_ok_trans; [eassumption | apply IH; exact HN].
Qed.

Lemma checkPreCall_update_ok (Filter : NullabilityChecksFilter) (Call : CallEvent)
    (C : CheckerContext) (State' : ProgramState) :
  In State' (producedStates (checkPreCall Filter Call C)) ->
  update_ok (C_getState C) State'.
Proof.
  unfold checkPreCall.
  destruct (getDecl Call); [| intros []].
  pose proof (checkPreCall_loop_ok Filter Call (parameters Call) (C_getState C) 0%nat)
    as Hloop.
  destruct (checkPreCall_loop Filter Call (C_getState C) 0 (parameters Call))
    as [S1 | S1 | e | f]; simpl in *.
  - case_match; simpl; intros Hin; [destruct Hin as [<- | []]; exact Hloop | destruct Hin].
  - case_match; simpl; intros Hin; [destruct Hin as [<- | []]; exact Hloop | destruct Hin].
  - intros Hin. apply in_map_iff in Hin. destruct Hin as [N [<- HN]].
    apply Hloop. exact HN.
  - intros [].
Qed.

(** Every state a callback produces is in order, seen from the state it
    started in. *)
Lemma handle_update_ok (Filter : NullabilityChecksFilter) (ev : CheckerEvent)
    (C : CheckerContext) (State' : ProgramState) :
  In State' (producedStates (handle Filter ev C)) ->
  update_ok (C_getState C) State'.
Proof.
  destruct ev as [L V BS | Call | Call | RS | CE | M | SR | Event]; simpl.
  - apply checkBind_update_ok.
  - apply checkPreCall_update_ok.
  - apply checkPostCall_update_ok.
  - apply checkPreStmt_update_ok.
  - apply checkPostStmt_update_ok.
  - apply checkPostObjCMessage_update_ok.
  - intros [].
  - unfold checkEvent. repeat case_match; simpl; intros [].
Qed.

Lemma sparse_kept (State State' : ProgramState) :
  sparse State -> keeps_sparse State State' -> sparse State'.
Proof.
  intros Hs Hk Region NS' Hget.
  destruct (Hk Region NS' Hget) as [Hold | Hv]; [| exact Hv].
  apply (Hs Region NS' Hold).
Qed.

(** What [resultingStates] yields is the predecessor's state or the state of
    a node the callback added. *)
Lemma resultingStates_from (Pred : ProgramState) (e : Effects) (State' : ProgramState) :
  In State' (resultingStates Pred e) ->
  State' = Pred \/ In State' (map getState (nodes e)).
Proof.
  unfold resultingStates.
  destruct (nodes e) as [| N ns] eqn:Hn.
  - intros [<- | []]. left. reflexivity.
  - intros Hin. right.
    apply in_map_iff in Hin. destruct Hin as [N' [<- HN']].
    apply in_map_iff. exists N'. split; [reflexivity |].
    apply list_elem_of_In. apply list_elem_of_In in HN'.
    apply list_elem_of_filter in HN'. tauto.
Qed.

(* ===================================================================== *)
(** ** The sparsity invariant *)
(* ===================================================================== *)

(** C4.  In every program state a path reaches (from the empty map, by
    changes of what the solver knows and by the callbacks), every entry of
    the map holds Nullable or Contradicted: no update rule writes an entry
    whose value is Unspecified or Nonnull. *)
Theorem C4_reachable_states_are_sparse
    (Filter : NullabilityChecksFilter) (State : ProgramState) :
  reachable Filter State -> sparse State.
Proof.
  induction 1 as [isNull0 | State isNull' Hreach IH | C ev State' Hreach IH Hin].
  - intros Region NS Hget. unfold get_NullabilityMap in Hget; simpl in Hget.
    rewrite lookup_empty in Hget. discriminate.
  - exact IH.
  - apply (sparse_kept (C_getState C)); [exact IH |].
    apply (handle_update_ok Filter ev C State' Hin).
Qed.

Lemma C4_sparse_witness :
  sparse (set_NullabilityMap Sample.emptyState Sample.R1
            (NullabilityState_of Nullable)).
Proof.
  apply (C4_reachable_states_are_sparse Sample.allChecks).
  apply (reachable_step Sample.allChecks
           (Sample.contextAt Sample.emptyState Sample.PtrTy)
           (OnPostCall Sample.callReturnsNullable)).
  - apply reachable_init.
  - left. reflexivity.
Defined.

(* ===================================================================== *)
(** ** Contradicted is absorbing *)
(* ===================================================================== *)

(** One callback keeps a contradicted location contradicted in every state
    it produces and in every state the path goes on from. *)
Lemma handle_keeps_contradicted (Filter : NullabilityChecksFilter)
    (ev : CheckerEvent) (C : CheckerContext) (Region : MemRegion)
    (State' : ProgramState) :
  trackedValue (C_getState C) Region = Some Contradicted ->
  In State' (producedStates (handle Filter ev C)) \/
  (exists e, handle Filter ev C = Returns e /\
             In State' (resultingStates (C_getState C) e)) ->
  trackedValue State' Region = Some Contradicted.
Proof.
  intros Htracked [Hin | [e [He Hin]]].
  - apply (handle_update_ok Filter ev C State' Hin). exact Htracked.
  - apply resultingStates_from in Hin. destruct Hin as [-> | Hin]; [exact Htracked |].
    assert (Hprod : In State' (producedStates (handle Filter ev C)))
      by (rewrite He; exact Hin).
    apply (handle_update_ok Filter ev C State' Hprod). exact Htracked.
Qed.

(** C3.  Once a location is tracked as Contradicted, it is tracked as
    Contradicted in every later state of the path, whatever update rules
    (bind, pre-call, post-call, return, explicit cast, message result) run in
    between and whatever the solver comes to know. *)
Theorem C3_Contradicted_is_absorbing
    (Filter : NullabilityChecksFilter) (State State' : ProgramState)
    (Region : MemRegion) :
  later Filter State State' ->
  trackedValue State Region = Some Contradicted ->
  trackedValue State' Region = Some Contradicted.
Proof.
  intros Hlater Htracked.
  induction Hlater as [| S1 isNull' Hl IH | C ev S1 Hl IH Hrule Hin].
  - exact Htracked.
  - exact IH.
  - apply (handle_keeps_contradicted Filter ev C Region S1 IH).
    left. exact Hin.
Qed.

Lemma C3_Contradicted_witness :
  trackedValue
    (set_NullabilityMap Sample.contradictedNullState Sample.R1
       (NullabilityState_of Contradicted))
    Sample.R1
  = Some Contradicted.
Proof.
  apply (C3_Contradicted_is_absorbing Sample.allChecks
           Sample.contradictedNullState).
  - apply (later_step Sample.allChecks Sample.contradictedNullState
             (Sample.contextAt Sample.contradictedNullState Sample.PtrTy)
             (OnExplicitCast Sample.castToNonnull)).
    + apply later_now.
    + reflexivity.
    + left. reflexivity.
  - vm_compute. reflexivity.
Defined.

(* ===================================================================== *)
(** ** The call-argument check on a tracked nullable argument *)
(* ===================================================================== *)

(** The loop over a list of parameters that is split in two. *)
Lemma checkPreCall_loop_app (Filter : NullabilityChecksFilter) (Call : CallEvent)
    (Pre Rest : list ParmVarDecl) :
  forall (State : ProgramState) (Idx : nat),
    checkPreCall_loop Filter Call State Idx (Pre ++ Rest)
    = match checkPreCall_loop Filter Call State Idx Pre with
      | LoopContinue State' =>
          checkPreCall_loop Filter Call State' (Idx + length Pre) Rest
      | Other => Other
      end.
Proof.
  induction Pre as [| Param Pre IH]; intros State Idx; simpl.
  - rewrite Nat.add_0_r. reflexivity.
  - destruct (checkPreCall_body Filter Call State Idx Param); try reflexivity.
    rewrite IH. replace (S Idx + length Pre)%nat with (Idx + S (length Pre))%nat by lia.
    reflexivity.
Qed.

(** One iteration that goes on keeps the solver's verdicts and every entry
    the map had. *)
Lemma checkPreCall_body_keeps (Filter : NullabilityChecksFilter) (Call : CallEvent)
    (State State' : ProgramState) (Idx : nat) (Param : ParmVarDecl) :
  checkPreCall_body Filter Call State Idx Param = LoopContinue State' ->
  isNull State' = isNull State /\
  forall Region NS, get_NullabilityMap State Region = Some NS ->
                    get_NullabilityMap State' Region = Some NS.
Proof.
  unfold checkPreCall_body.
  repeat case_match; intros Heq; try discriminate; injection Heq as <-;
    (split; [reflexivity |]); intros Region' NS' Hget; try exact Hget.
  match goal with
  | Hnone : get_NullabilityMap State ?R = None |- _ =>
      destruct (decide (R = Region')) as [<- | Hne];
      [congruence | rewrite get_set_ne by exact Hne; exact Hget]
  end.
Qed.

Lemma checkPreCall_loop_keeps (Filter : NullabilityChecksFilter) (Call : CallEvent)
    (Params : list ParmVarDecl) :
  forall (State State' : ProgramState) (Idx : nat),
    checkPreCall_loop Filter Call State Idx Params = LoopContinue State' ->
    isNull State' = isNull State /\
    forall Region NS, get_NullabilityMap State Region = Some NS ->
                      get_NullabilityMap State' Region = Some NS.
Proof.
  induction Params as [| Param Rest IH]; intros State State' Idx; simpl.
  - intros Heq. injection Heq as <-. split; [reflexivity | auto].
  - destruct (checkPreCall_body Filter Call State Idx Param) as [S1 | S1 | e | f]
      eqn:Hbody; try discriminate.
    intros Hloop.
    destruct (checkPreCall_body_keeps _ _ _ _ _ _ Hbody) as [Hn1 Hk1].
    destruct (IH _ _ _ Hloop) as [Hn2 Hk2].
    split; [congruence | auto].
Qed.

Lemma getNullConstraint_ext (Val : SVal) (State State' : ProgramState) :
  isNull State' = isNull State ->
  getNullConstraint Val State' = getNullConstraint Val State.
Proof. intros H. unfold getNullConstraint. rewrite H. reflexivity. Qed.

(** The body of the loop at an argument that resolves to a location tracked
    as nullable, when the rule for null values does not apply. *)
Lemma checkPreCall_body_tracked_nullable (Filter : NullabilityChecksFilter)
    (Call : CallEvent) (State : ProgramState) (Idx : nat) (Param : ParmVarDecl)
    (ArgE : Expr) (ArgSVal : SVal) (Region : MemRegion) (TN : NullabilityState) :
  isParameterPack Param = false ->
  (Idx < getNumArgs Call)%nat ->
  getArgExpr Call Idx = Some ArgE ->
  getAs_DefinedOrUnknownSVal (getArgSVal Call Idx) = Some ArgSVal ->
  isAnyPointerType (Param_getType Param) || isReferenceType (Param_getType Param) = true ->
  getTrackRegion ArgSVal false = Some Region ->
  get_NullabilityMap State Region = Some TN ->
  getValue TN = Nullable ->
  CheckNullPassedToNonnull Filter &&
  bool_decide (getNullConstraint ArgSVal State = IsNull) &&
  bool_decide (getNullabilityAnnotation (Expr_getType ArgE) <> Nonnull) &&
  bool_decide (getNullabilityAnnotation (Param_getType Param) = Nonnull) = false ->
  checkPreCall_body Filter Call State Idx Param
  = if bool_decide (getNullConstraint ArgSVal State = IsNotNull) then
      LoopContinue State
    else if CheckNullablePassedToNonnull Filter &&
            bool_decide (getNullabilityAnnotation (Param_getType Param) = Nonnull)
    then
      let N := generateSink State "NullablePassedToNonnull" in
      LoopReturn (report_at N
                    (reportBug NullablePassedToNonnull N (Some Region)
                       (Some (Expr_stmt ArgE))))
    else if CheckNullableDereferenced Filter && isReferenceType (Param_getType Param)
    then
      let N := generateSink State "NullableDereferenced" in
      LoopReturn (report_at N
                    (reportBug NullableDereferenced N (Some Region)
                       (Some (Expr_stmt ArgE))))
    else LoopContinue State.
Proof.
  intros Hpack Hidx Hexpr Hval Hty Hreg Hget Hnullable Hnil.
  unfold checkPreCall_body.
  rewrite Hpack, Hval.
  assert (Hlt : (Idx <? getNumArgs Call)%nat = true) by (apply Nat.ltb_lt; exact Hidx).
  rewrite Hlt, Hexpr.
  assert (Hskip : negb (isAnyPointerType (Param_getType Param)) &&
                  negb (isReferenceType (Param_getType Param)) = false).
  { apply orb_true_iff in Hty. destruct Hty as [-> | ->]; simpl;
      rewrite ?andb_false_r; reflexivity. }
  rewrite Hskip, Hnil, Hreg, Hget, Hnullable.
  rewrite (bool_decide_eq_false_2 (Nullable <> Nullable)) by (intros H; apply H; reflexivity).
  rewrite orb_false_r. reflexivity.
Qed.

(** C5, as amended.  In a pre-call event for a callee with a declaration,
    take a parameter the loop reaches (no parameter before it is a pack or
    ended the callback) that is not a pack and has pointer or reference
    type, whose argument expression is present and whose argument value is
    defined or unknown and resolves to a location that the state tracks as
    Nullable.  Unless the rule for null values fires for it:
    - when the solver has not proven the argument non-null, then with the
      selector CheckNullablePassedToNonnull enabled and the parameter
      annotated Nonnull the callback reports nullable-passed-to-nonnull on a
      sink, and otherwise with the selector CheckNullableDereferenced enabled
      and a parameter of reference type it reports nullable-dereferenced on a
      sink; either way the path ends there;
    - when the solver has proven the argument non-null, the argument yields
      no report and no change: the loop goes on to the next parameter in the
      state it had. *)
Theorem C5_tracked_nullable_argument
    (Filter : NullabilityChecksFilter) (Call : CallEvent) (C : CheckerContext)
    (D : Decl) (Pre Rest : list ParmVarDecl) (Param : ParmVarDecl)
    (State : ProgramState) (ArgE : Expr) (ArgSVal : SVal) (Region : MemRegion)
    (TN : NullabilityState) :
  getDecl Call = Some D ->
  parameters Call = Pre ++ Param :: Rest ->
  checkPreCall_loop Filter Call (C_getState C) 0 Pre = LoopContinue State ->
  isParameterPack Param = false ->
  (length Pre < getNumArgs Call)%nat ->
  getArgExpr Call (length Pre) = Some ArgE ->
  getAs_DefinedOrUnknownSVal (getArgSVal Call (length Pre)) = Some ArgSVal ->
  isAnyPointerType (Param_getType Param) || isReferenceType (Param_getType Param) = true ->
  getTrackRegion ArgSVal false = Some Region ->
  get_NullabilityMap (C_getState C) Region = Some TN ->
  getValue TN = Nullable ->
  CheckNullPassedToNonnull Filter &&
  bool_decide (getNullConstraint ArgSVal (C_getState C) = IsNull) &&
  bool_decide (getNullabilityAnnotation (Expr_getType ArgE) <> Nonnull) &&
  bool_decide (getNullabilityAnnotation (Param_getType Param) = Nonnull) = false ->
  (getNullConstraint ArgSVal (C_getState C) <> IsNotNull ->
   (CheckNullablePassedToNonnull Filter = true ->
    getNullabilityAnnotation (Param_getType Param) = Nonnull ->
    let N := generateSink State "NullablePassedToNonnull" in
    let e := report_at N
               (reportBug NullablePassedToNonnull N (Some Region)
                  (Some (Expr_stmt ArgE))) in
    checkPreCall Filter Call C = Returns e /\
    resultingStates (C_getState C) e = []) /\
   (CheckNullablePassedToNonnull Filter &&
    bool_decide (getNullabilityAnnotation (Param_getType Param) = Nonnull) = false ->
    CheckNullableDereferenced Filter = true ->
    isReferenceType (Param_getType Param) = true ->
    let N := generateSink State "NullableDereferenced" in
    let e := report_at N
               (reportBug NullableDereferenced N (Some Region)
                  (Some (Expr_stmt ArgE))) in
    checkPreCall Filter Call C = Returns e /\
    resultingStates (C_getState C) e = [])) /\
  (getNullConstraint ArgSVal (C_getState C) = IsNotNull ->
   checkPreCall_loop Filter Call (C_getState C) 0 (parameters Call)
   = checkPreCall_loop Filter Call State (S (length Pre)) Rest).
Proof.
  intros Hdecl Hparams Hpre Hpack Hidx Hexpr Hval Hty Hreg Hget Hnullable Hnil.
  destruct (checkPreCall_loop_keeps _ _ _ _ _ _ Hpre) as [Hsolver Hkeeps].
  pose proof (getNullConstraint_ext ArgSVal _ _ Hsolver) as Hcons.
  assert (Hbody := checkPreCall_body_tracked_nullable Filter Call State (length Pre)
                     Param ArgE ArgSVal Region TN Hpack Hidx Hexpr Hval Hty Hreg
                     (Hkeeps _ _ Hget) Hnullable).
  rewrite Hcons in Hbody. specialize (Hbody Hnil).
  assert (Hloop : checkPreCall_loop Filter Call (C_getState C) 0 (parameters Call)
                  = match checkPreCall_body Filter Call State (length Pre) Param with
                    | LoopContinue State' =>
                        checkPreCall_loop Filter Call State' (S (length Pre)) Rest
                    | Other => Other
                    end).
  { rewrite Hparams, checkPreCall_loop_app, Hpre. reflexivity. }
  split.
  - intros Hnot. split.
    + intros Hsel Hann N e.
      split; [| reflexivity].
      unfold checkPreCall. rewrite Hdecl, Hloop, Hbody.
      rewrite (bool_decide_eq_false_2 _ Hnot), Hsel, (bool_decide_eq_true_2 _ Hann).
      reflexivity.
    + intros Hno Hsel Href N e.
      split; [| reflexivity].
      unfold checkPreCall. rewrite Hdecl, Hloop, Hbody.
      rewrite (bool_decide_eq_false_2 _ Hnot), Hno, Hsel, Href.
      reflexivity.
  - intros Hproven.
    rewrite Hloop, Hbody, (bool_decide_eq_true_2 _ Hproven). reflexivity.
Qed.

Lemma C5_tracked_nullable_witness :
  checkPreCall Sample.allChecks Sample.callTakesNonnull
    (Sample.contextAt Sample.nullableState Sample.PtrTy)
  = Returns
      (report_at (generateSink Sample.nullableState "NullablePassedToNonnull")
         (reportBug NullablePassedToNonnull
            (generateSink Sample.nullableState "NullablePassedToNonnull")
            (Some Sample.R1) (Some (Expr_stmt Sample.argP)))).
Proof.
  refine (proj1 (proj1 (proj1
    (C5_tracked_nullable_argument Sample.allChecks Sample.callTakesNonnull
       (Sample.contextAt Sample.nullableState Sample.PtrTy)
       Sample.takesNonnullDecl [] [] Sample.nonnullParam Sample.nullableState
       Sample.argP (loc_MemRegionVal Sample.R1) Sample.R1
       (NullabilityState_of Nullable)
       _ _ _ _ _ _ _ _ _ _ _ _) _) _ _));
    try reflexivity; try (simpl; lia); try discriminate.
Defined.

(** C5, as stated, fails.  [takesNonnull(p)] with the location of [p]
    tracked as Nullable and the parameter annotated Nonnull: with no check
    selected and nothing known to the solver the callback reports nothing and
    adds no sink; with every check selected and the value proven null, which
    is not a proof that it is non-null, the report is null-passed-to-nonnull
    and not nullable-passed-to-nonnull. *)
Lemma C5_nullable_argument_unreported :
  getTrackRegion (getArgSVal Sample.callTakesNonnull 0) false = Some Sample.R1 /\
  trackedValue Sample.nullableState Sample.R1 = Some Nullable /\
  getNullabilityAnnotation (Param_getType Sample.nonnullParam) = Nonnull /\
  getNullConstraint (getArgSVal Sample.callTakesNonnull 0) Sample.nullableState
  = Unknown /\
  checkPreCall Sample.noChecks Sample.callTakesNonnull
    (Sample.contextAt Sample.nullableState Sample.PtrTy)
  = Returns no_effect /\
  trackedValue Sample.nullableNullState Sample.R1 = Some Nullable /\
  getNullConstraint (getArgSVal Sample.callTakesNonnull 0) Sample.nullableNullState
  = IsNull /\
  exists e : Effects,
    checkPreCall Sample.allChecks Sample.callTakesNonnull
      (Sample.contextAt Sample.nullableNullState Sample.PtrTy)
    = Returns e /\
    (report_Error <$> reports e) = [NilPassedToNonnull].
Proof.
  split; [reflexivity |]. split; [vm_compute; reflexivity |].
  split; [reflexivity |]. split; [reflexivity |].
  split; [vm_compute; reflexivity |]. split; [vm_compute; reflexivity |].
  split; [reflexivity |].
  eexists. split; reflexivity.
Qed.

(* ===================================================================== *)
(** ** Explicit casts *)
(* ===================================================================== *)

Lemma getTrackRegion_defined (Val : SVal) (Region : MemRegion) :
  getTrackRegion Val false = Some Region ->
  getAs_DefinedOrUnknownSVal Val = Some Val /\ Val = loc_MemRegionVal Region.
Proof.
  destruct Val as [| | R | | |]; simpl; try discriminate.
  destruct R; simpl; try discriminate.
  intros H. injection H as <-. split; reflexivity.
Qed.

Lemma trackedValue_set (State : ProgramState) (Region : MemRegion)
    (NS : NullabilityState) :
  trackedValue (set_NullabilityMap State Region NS) Region = Some (getValue NS).
Proof. unfold trackedValue. rewrite get_set_eq. reflexivity. Qed.

Lemma trackedValue_same_map (State State' : ProgramState) (Region : MemRegion) :
  NullabilityMap State' = NullabilityMap State ->
  trackedValue State' Region = trackedValue State Region.
Proof. intros H. unfold trackedValue, get_NullabilityMap. rewrite H. reflexivity. Qed.

(** A cast without an explicit annotation in its destination type does
    nothing. *)
Lemma checkPostStmt_unannotated (CE : ExplicitCastExpr) (C : CheckerContext) :
  getNullabilityAnnotation (CE_getType CE) = Unspecified ->
  checkPostStmt CE C = Returns no_effect.
Proof.
  intros Hann. unfold checkPostStmt. rewrite Hann.
  destruct (isAnyPointerType (Expr_getType (CE_getSubExpr CE))); simpl; [| reflexivity].
  destruct (isAnyPointerType (CE_getType CE)); reflexivity.
Qed.

(** A cast between pointer types whose value is tracked with a value that
    differs from the annotation of the destination and is not yet
    contradicted. *)
Lemma checkPostStmt_disagreeing (CE : ExplicitCastExpr) (C : CheckerContext)
    (Region : MemRegion) (TN : NullabilityState) :
  isAnyPointerType (Expr_getType (CE_getSubExpr CE)) = true ->
  isAnyPointerType (CE_getType CE) = true ->
  getNullabilityAnnotation (CE_getType CE) <> Unspecified ->
  getTrackRegion (C_getSVal C (CE_stmt CE)) false = Some Region ->
  get_NullabilityMap (C_getState C) Region = Some TN ->
  getValue TN <> getNullabilityAnnotation (CE_getType CE) ->
  getValue TN <> Contradicted ->
  checkPostStmt CE C
  = Returns (transition
               (set_NullabilityMap (C_getState C) Region
                  (NullabilityState_of Contradicted))).
Proof.
  intros Hsrc Hdst Hann Hreg Hget Hdiff Hnc.
  destruct (getTrackRegion_defined _ _ Hreg) as [Hdef Hval].
  unfold checkPostStmt.
  rewrite Hsrc, Hdst, Hdef, Hreg, Hget. simpl.
  rewrite (bool_decide_eq_false_2 _ Hann).
  rewrite (bool_decide_eq_true_2 _ Hdiff), (bool_decide_eq_true_2 _ Hnc). simpl.
  destruct (bool_decide (getNullabilityAnnotation (CE_getType CE) = Nonnull) &&
            bool_decide (getNullConstraint (C_getSVal C (CE_stmt CE)) (C_getState C) = IsNull));
    reflexivity.
Qed.

(** The call of a function whose return type is a pointer annotated
    Nullable, returning a location that is not tracked yet. *)
Lemma checkPostCall_nullable_fresh (Call : CallEvent) (C : CheckerContext)
    (D : Decl) (FuncType : FunctionType) (Region : MemRegion) :
  getDecl Call = Some D ->
  getKind Call <> CE_ObjCMessage ->
  getFunctionType D = Some FuncType ->
  isAnyPointerType (getReturnType FuncType) = true ->
  getNullabilityAnnotation (getReturnType FuncType) = Nullable ->
  getTrackRegion (getReturnValue Call) false = Some Region ->
  get_NullabilityMap (C_getState C) Region = None ->
  checkPostCall Call C
  = Returns (transition
               (set_NullabilityMap (C_getState C) Region
                  (NullabilityState_of
                     (if startswith (Decl_filename D) "CG" then Contradicted
                      else Nullable)))).
Proof.
  intros Hdecl Hkind Hfun Hptr Hann Hreg Hfresh.
  unfold checkPostCall.
  rewrite Hdecl, (bool_decide_eq_false_2 _ Hkind), Hfun, Hptr, Hreg, Hfresh, Hann.
  simpl. destruct (startswith (Decl_filename D) "CG"); reflexivity.
Qed.

(** A cast to a Nonnull pointer type of a value tracked as Nullable or
    Contradicted reports nothing and leaves the value contradicted. *)
Lemma checkPostStmt_to_Nonnull (CE : ExplicitCastExpr) (C : CheckerContext)
    (Region : MemRegion) :
  isAnyPointerType (Expr_getType (CE_getSubExpr CE)) = true ->
  isAnyPointerType (CE_getType CE) = true ->
  getNullabilityAnnotation (CE_getType CE) = Nonnull ->
  getTrackRegion (C_getSVal C (CE_stmt CE)) false = Some Region ->
  trackedValue (C_getState C) Region = Some Nullable \/
  trackedValue (C_getState C) Region = Some Contradicted ->
  exists e : Effects,
    checkPostStmt CE C = Returns e /\
    reports e = [] /\
    forall S2, In S2 (resultingStates (C_getState C) e) ->
               trackedValue S2 Region = Some Contradicted.
Proof.
  intros Hsrc Hdst Hann Hreg Htracked.
  destruct (getTrackRegion_defined _ _ Hreg) as [Hdef Hval].
  unfold checkPostStmt.
  rewrite Hsrc, Hdst, Hdef, Hreg, Hann. simpl.
  destruct (bool_decide (getNullConstraint (C_getSVal C (CE_stmt CE)) (C_getState C) = IsNull)).
  - eexists. split; [reflexivity |]. split; [reflexivity |].
    intros S2 [<- | []]. apply trackedValue_set.
  - unfold trackedValue in Htracked.
    destruct (get_NullabilityMap (C_getState C) Region) as [TN |] eqn:Hget;
      simpl in Htracked; [| destruct Htracked; discriminate].
    destruct Htracked as [Hv | Hv]; injection Hv as Hv; rewrite Hv; simpl.
    + eexists. split; [reflexivity |]. split; [reflexivity |].
      intros S2 [<- | []]. apply trackedValue_set.
    + eexists. split; [reflexivity |]. split; [reflexivity |].
      intros S2 [<- | []]. unfold trackedValue. rewrite Hget, <- Hv. reflexivity.
Qed.

(** A call with one parameter whose argument resolves to a contradicted
    location, and is not proven null, adds no node and reports nothing. *)
Lemma checkPreCall_contradicted_argument (Filter : NullabilityChecksFilter)
    (Call : CallEvent) (C : CheckerContext) (Param : ParmVarDecl) (ArgE : Expr)
    (Region : MemRegion) :
  parameters Call = [Param] ->
  (0 < getNumArgs Call)%nat ->
  getArgExpr Call 0 = Some ArgE ->
  getTrackRegion (getArgSVal Call 0) false = Some Region ->
  trackedValue (C_getState C) Region = Some Contradicted ->
  getNullConstraint (getArgSVal Call 0) (C_getState C) <> IsNull ->
  checkPreCall Filter Call C = Returns no_effect.
Proof.
  intros Hparams Hnum Hexpr Hreg Htracked Hnotnull.
  destruct (getTrackRegion_defined _ _ Hreg) as [Hdef Hval].
  unfold trackedValue in Htracked.
  destruct (get_NullabilityMap (C_getState C) Region) as [TN |] eqn:Hget;
    simpl in Htracked; [| discriminate].
  injection Htracked as Hv.
  assert (Hlt : (0 <? getNumArgs Call)%nat = true) by (apply Nat.ltb_lt; exact Hnum).
  assert (Hsame : bool_decide (NullabilityMap (C_getState C) <> NullabilityMap (C_getState C))
                  = false)
    by (apply bool_decide_eq_false_2; intros H; apply H; reflexivity).
  unfold checkPreCall. destruct (getDecl Call); [| reflexivity].
  rewrite Hparams. simpl. unfold checkPreCall_body.
  rewrite Hlt, Hexpr, Hdef, Hreg, Hget, Hv.
  rewrite (bool_decide_eq_false_2 _ Hnotnull).
  rewrite (bool_decide_eq_true_2 (Contradicted <> Nullable)) by discriminate.
  rewrite !andb_false_r, orb_true_r. simpl.
  destruct (isParameterPack Param); simpl; [rewrite Hsame; reflexivity |].
  destruct (negb (isAnyPointerType (Param_getType Param)) &&
            negb (isReferenceType (Param_getType Param)));
    simpl; rewrite Hsame; reflexivity.
Qed.

(** The body of the loop at an argument that resolves to a contradicted
    location, when the rule for null values does not fire: nothing is
    reported and the state is kept. *)
Lemma checkPreCall_body_contradicted (Filter : NullabilityChecksFilter)
    (Call : CallEvent) (State : ProgramState) (Idx : nat) (Param : ParmVarDecl)
    (ArgE : Expr) (Region : MemRegion) :
  (Idx < getNumArgs Call)%nat ->
  getArgExpr Call Idx = Some ArgE ->
  getTrackRegion (getArgSVal Call Idx) false = Some Region ->
  trackedValue State Region = Some Contradicted ->
  CheckNullPassedToNonnull Filter &&
  bool_decide (getNullConstraint (getArgSVal Call Idx) State = IsNull) &&
  bool_decide (getNullabilityAnnotation (Expr_getType ArgE) <> Nonnull) &&
  bool_decide (getNullabilityAnnotation (Param_getType Param) = Nonnull) = false ->
  checkPreCall_body Filter Call State Idx Param
  = if isParameterPack Param then LoopBreak State else LoopContinue State.
Proof.
  intros Hidx Hexpr Hreg Htracked Hnil.
  destruct (getTrackRegion_defined _ _ Hreg) as [Hdef Hval].
  unfold trackedValue in Htracked.
  destruct (get_NullabilityMap State Region) as [TN |] eqn:Hget;
    simpl in Htracked; [| discriminate].
  injection Htracked as Hv.
  assert (Hlt : (Idx <? getNumArgs Call)%nat = true) by (apply Nat.ltb_lt; exact Hidx).
  unfold checkPreCall_body.
  destruct (isParameterPack Param); [reflexivity |].
  rewrite Hlt, Hexpr, Hdef.
  destruct (negb (isAnyPointerType (Param_getType Param)) &&
            negb (isReferenceType (Param_getType Param))); [reflexivity |].
  rewrite Hnil, Hreg, Hget, Hv.
  rewrite (bool_decide_eq_true_2 (Contradicted <> Nullable)) by discriminate.
  rewrite orb_true_r. reflexivity.
Qed.

(** C8, as amended.  (1) A cast whose destination type carries no explicit
    nullability annotation adds no node: the state is unchanged.  (2) A cast
    between pointer types with an annotated destination, whose value is
    tracked with a value that differs from the annotation and is not
    Contradicted, writes Contradicted for the location.  (3) So for the value
    a call of a Nullable-returning function yields at a fresh location, cast
    to a Nonnull pointer type and then passed as an argument of a call: the
    post-call and the cast report nothing and the location is contradicted
    after the cast; at whatever parameter the loop of the pre-call reaches
    with that argument, unless the rule for null values fires for it (its
    selector is enabled, the solver has proven the value null, the static
    type of the argument expression is not Nonnull and the parameter is
    Nonnull), nothing is reported for the argument and the loop goes on in
    the state it had; when it is the only parameter the callback adds no node
    and reports nothing. *)
Theorem C8_explicit_cast_is_trusted :
  (forall (CE : ExplicitCastExpr) (C : CheckerContext),
     getNullabilityAnnotation (CE_getType CE) = Unspecified ->
     checkPostStmt CE C = Returns no_effect /\
     resultingStates (C_getState C) no_effect = [C_getState C]) /\
  (forall (CE : ExplicitCastExpr) (C : CheckerContext) (Region : MemRegion)
          (TN : NullabilityState),
     isAnyPointerType (Expr_getType (CE_getSubExpr CE)) = true ->
     isAnyPointerType (CE_getType CE) = true ->
     getNullabilityAnnotation (CE_getType CE) <> Unspecified ->
     getTrackRegion (C_getSVal C (CE_stmt CE)) false = Some Region ->
     get_NullabilityMap (C_getState C) Region = Some TN ->
     getValue TN <> getNullabilityAnnotation (CE_getType CE) ->
     getValue TN <> Contradicted ->
     let State' := set_NullabilityMap (C_getState C) Region
                     (NullabilityState_of Contradicted) in
     checkPostStmt CE C = Returns (transition State') /\
     resultingStates (C_getState C) (transition State') = [State'] /\
     trackedValue State' Region = Some Contradicted) /\
  (forall (Filter : NullabilityChecksFilter)
          (Call1 : CallEvent) (C1 : CheckerContext) (D1 : Decl)
          (FuncType1 : FunctionType) (Region : MemRegion)
          (CE : ExplicitCastExpr),
     getDecl Call1 = Some D1 ->
     getKind Call1 <> CE_ObjCMessage ->
     getFunctionType D1 = Some FuncType1 ->
     isAnyPointerType (getReturnType FuncType1) = true ->
     getNullabilityAnnotation (getReturnType FuncType1) = Nullable ->
     getTrackRegion (getReturnValue Call1) false = Some Region ->
     get_NullabilityMap (C_getState C1) Region = None ->
     isAnyPointerType (Expr_getType (CE_getSubExpr CE)) = true ->
     isAnyPointerType (CE_getType CE) = true ->
     getNullabilityAnnotation (CE_getType CE) = Nonnull ->
     exists S1 : ProgramState,
       checkPostCall Call1 C1 = Returns (transition S1) /\
       forall C2 : CheckerContext,
         NullabilityMap (C_getState C2) = NullabilityMap S1 ->
         getTrackRegion (C_getSVal C2 (CE_stmt CE)) false = Some Region ->
         exists e2 : Effects,
           checkPostStmt CE C2 = Returns e2 /\
           reports e2 = [] /\
           forall S2 : ProgramState,
             In S2 (resultingStates (C_getState C2) e2) ->
             trackedValue S2 Region = Some Contradicted /\
             forall (Call3 : CallEvent) (C3 : CheckerContext)
                    (Pre Rest : list ParmVarDecl) (Param : ParmVarDecl)
                    (State3 : ProgramState) (ArgE : Expr),
               NullabilityMap (C_getState C3) = NullabilityMap S2 ->
               parameters Call3 = Pre ++ Param :: Rest ->
               checkPreCall_loop Filter Call3 (C_getState C3) 0 Pre
               = LoopContinue State3 ->
               (length Pre < getNumArgs Call3)%nat ->
               getArgExpr Call3 (length Pre) = Some ArgE ->
               getTrackRegion (getArgSVal Call3 (length Pre)) false = Some Region ->
               CheckNullPassedToNonnull Filter &&
               bool_decide (getNullConstraint (getArgSVal Call3 (length Pre))
                              (C_getState C3) = IsNull) &&
               bool_decide (getNullabilityAnnotation (Expr_getType ArgE) <> Nonnull) &&
               bool_decide (getNullabilityAnnotation (Param_getType Param) = Nonnull)
               = false ->
               checkPreCall_loop Filter Call3 (C_getState C3) 0 (parameters Call3)
               = (if isParameterPack Param then LoopBreak State3
                  else checkPreCall_loop Filter Call3 State3 (S (length Pre)) Rest) /\
               (Pre = [] -> Rest = [] ->
                checkPreCall Filter Call3 C3 = Returns no_effect)).
Proof.
  split; [| split].
  - intros CE C Hann. split; [apply checkPostStmt_unannotated; exact Hann | reflexivity].
  - intros CE C Region TN Hsrc Hdst Hann Hreg Hget Hdiff Hnc State'.
    split; [apply (checkPostStmt_disagreeing CE C Region TN); assumption |].
    split; [reflexivity | apply trackedValue_set].
  - intros Filter Call1 C1 D1 FuncType1 Region CE
      Hdecl Hkind Hfun Hptr Hann Hret Hfresh Hsrc Hdst Hdest.
    eexists. split.
    { apply (checkPostCall_nullable_fresh Call1 C1 D1 FuncType1 Region); assumption. }
    intros C2 Hmap2 Hval2.
    assert (Htracked2 : trackedValue (C_getState C2) Region = Some Nullable \/
                        trackedValue (C_getState C2) Region = Some Contradicted).
    { rewrite (trackedValue_same_map _ _ Region Hmap2), trackedValue_set.
      destruct (startswith (Decl_filename D1) "CG"); simpl; auto. }
    destruct (checkPostStmt_to_Nonnull CE C2 Region Hsrc Hdst Hdest Hval2 Htracked2)
      as [e2 [He2 [Hrep2 Hres2]]].
    exists e2. split; [exact He2 |]. split; [exact Hrep2 |].
    intros S2 HS2. split; [apply Hres2; exact HS2 |].
    intros Call3 C3 Pre Rest Param State3 ArgE
      Hmap3 Hparams Hpre Hnum Hexpr Harg Hnil.
    assert (Htracked3 : trackedValue (C_getState C3) Region = Some Contradicted).
    { rewrite (trackedValue_same_map _ _ Region Hmap3). apply Hres2. exact HS2. }
    destruct (checkPreCall_loop_keeps _ _ _ _ _ _ Hpre) as [Hsolver Hkeeps].
    assert (Htracked : trackedValue State3 Region = Some Contradicted).
    { unfold trackedValue in *.
      destruct (get_NullabilityMap (C_getState C3) Region) as [TN |] eqn:Hget;
        simpl in Htracked3; [| discriminate].
      rewrite (Hkeeps _ _ Hget). exact Htracked3. }
    assert (Hbody : checkPreCall_body Filter Call3 State3 (length Pre) Param
                    = if isParameterPack Param then LoopBreak State3
                      else LoopContinue State3).
    { apply (checkPreCall_body_contradicted Filter Call3 State3 (length Pre) Param
               ArgE Region); try assumption.
      rewrite (getNullConstraint_ext _ _ _ Hsolver). exact Hnil. }
    assert (Hloop : checkPreCall_loop Filter Call3 (C_getState C3) 0 (parameters Call3)
                    = (if isParameterPack Param then LoopBreak State3
                       else checkPreCall_loop Filter Call3 State3 (S (length Pre)) Rest)).
    { rewrite Hparams, checkPreCall_loop_app, Hpre. simpl. rewrite Hbody.
      destruct (isParameterPack Param); reflexivity. }
    split; [exact Hloop |].
    intros -> ->. simpl in Hpre. injection Hpre as <-.
    assert (Hsame : bool_decide (NullabilityMap (C_getState C3)
                                 <> NullabilityMap (C_getState C3)) = false)
      by (apply bool_decide_eq_false_2; intros H; apply H; reflexivity).
    unfold checkPreCall. destruct (getDecl Call3); [| reflexivity].
    rewrite Hloop. simpl.
    destruct (isParameterPack Param); rewrite Hsame; reflexivity.
Qed.

Lemma C8_explicit_cast_witness :
  (let C := Sample.contextAt Sample.nullableState Sample.PtrTy in
   checkPostStmt Sample.castToNonnull C
   = Returns (transition
                (set_NullabilityMap (C_getState C) Sample.R1
                   (NullabilityState_of Contradicted)))) /\
  (exists S1 : ProgramState,
     checkPostCall Sample.callReturnsNullable
       (Sample.contextAt Sample.emptyState Sample.PtrTy)
     = Returns (transition S1) /\
     forall C2 : CheckerContext,
       NullabilityMap (C_getState C2) = NullabilityMap S1 ->
       getTrackRegion (C_getSVal C2 (CE_stmt Sample.castToNonnull)) false
       = Some Sample.R1 ->
       exists e2 : Effects,
         checkPostStmt Sample.castToNonnull C2 = Returns e2 /\
         reports e2 = [] /\
         forall S2 : ProgramState,
           In S2 (resultingStates (C_getState C2) e2) ->
           trackedValue S2 Sample.R1 = Some Contradicted /\
           forall C3 : CheckerContext,
             NullabilityMap (C_getState C3) = NullabilityMap S2 ->
             getNullConstraint (getArgSVal Sample.callTakesNonnull 0) (C_getState C3)
             <> IsNull ->
             checkPreCall Sample.allChecks Sample.callTakesNonnull C3
             = Returns no_effect).
Proof.
  split.
  - refine (proj1 (proj1 (proj2 C8_explicit_cast_is_trusted)
                     Sample.castToNonnull
                     (Sample.contextAt Sample.nullableState Sample.PtrTy)
                     Sample.R1 (NullabilityState_of Nullable) _ _ _ _ _ _ _));
      try reflexivity; discriminate.
  - destruct (proj2 (proj2 C8_explicit_cast_is_trusted)
                Sample.allChecks Sample.callReturnsNullable
                (Sample.contextAt Sample.emptyState Sample.PtrTy)
                Sample.returnsNullableDecl (mkFunctionType Sample.NullablePtrTy)
                Sample.R1 Sample.castToNonnull)
      as [S1 [Hpost Hrest]]; try reflexivity; try discriminate.
    exists S1. split; [exact Hpost |].
    intros C2 Hmap2 Hval2.
    destruct (Hrest C2 Hmap2 Hval2) as [e2 [Hcast [Hrep Hafter]]].
    exists e2. split; [exact Hcast |]. split; [exact Hrep |].
    intros S2 HS2. destruct (Hafter S2 HS2) as [Htracked Hcall].
    split; [exact Htracked |].
    intros C3 Hmap3 Hnotnull.
    refine (proj2 (Hcall Sample.callTakesNonnull C3 [] [] Sample.nonnullParam
                     (C_getState C3) Sample.argP Hmap3 _ _ _ _ _ _) _ _);
      try reflexivity; try (simpl; lia).
    simpl. rewrite (bool_decide_eq_false_2 _ Hnotnull). reflexivity.
Defined.

(** C8, as stated, fails in its last part.  The value of
    [returnsNullable()] is cast to [Dummy *_Nonnull], which leaves its
    location contradicted, and is then passed to [takesNonnull] on a path on
    which the solver has proven it null, as in
    [if (!p) takesNonnull(p);]: the call-argument check reports
    null-passed-to-nonnull on a sink, although the location is
    contradicted. *)
Lemma C8_cast_value_proven_null_is_reported :
  let S1 := set_NullabilityMap Sample.emptyState Sample.R1
              (NullabilityState_of Nullable) in
  let S2 := set_NullabilityMap S1 Sample.R1 (NullabilityState_of Contradicted) in
  let S3 := mkProgramState (fun _ => Some true) (NullabilityMap S2) in
  checkPostCall Sample.callReturnsNullable
    (Sample.contextAt Sample.emptyState Sample.PtrTy)
  = Returns (transition S1) /\
  checkPostStmt Sample.castToNonnull (Sample.contextAt S1 Sample.PtrTy)
  = Returns (transition S2) /\
  trackedValue S3 Sample.R1 = Some Contradicted /\
  getNullabilityAnnotation (Param_getType Sample.nonnullParam) = Nonnull /\
  exists e : Effects,
    checkPreCall Sample.allChecks Sample.callTakesNonnull
      (Sample.contextAt S3 Sample.PtrTy)
    = Returns e /\
    (report_Error <$> reports e) = [NilPassedToNonnull] /\
    (isSink <$> nodes e) = [true] /\
    resultingStates S3 e = [].
Proof.
  split; [vm_compute; reflexivity |]. split; [vm_compute; reflexivity |].
  split; [vm_compute; reflexivity |]. split; [reflexivity |].
  eexists. split; [reflexivity |]. split; [reflexivity |].
  split; reflexivity.
Qed.

(* ===================================================================== *)
(** ** The result of a message *)
(* ===================================================================== *)

(** The callback on a message that no heuristic matches and whose return
    location is tracked. *)
Lemma checkPostObjCMessage_tracked (M : ObjCMethodCall) (C : CheckerContext)
    (D : ObjCMethodDecl) (ReturnRegion : MemRegion) (TN : NullabilityState) :
  M_getDecl M = Some D ->
  isAnyPointerType (MD_getReturnType D) = true ->
  getTrackRegion (M_getReturnValue M) false = Some ReturnRegion ->
  isCocoaSuppressed M (ClassInterface_getName D) = false ->
  get_NullabilityMap (C_getState C) ReturnRegion = Some TN ->
  let Computed :=
    getMostNullable (getValue TN) (getReceiverNullability M (C_getState C)) in
  checkPostObjCMessage M C
  = if bool_decide (Computed <> getValue TN) && bool_decide (Computed <> Unspecified)
    then Returns (transition
                    (set_NullabilityMap (C_getState C) ReturnRegion
                       (mkNullabilityState Computed
                          (getInstanceReceiver (M_getOriginExpr M)))))
    else Returns no_effect.
Proof.
  intros Hdecl Hptr Hreg Hsup Hget Computed.
  unfold checkPostObjCMessage.
  rewrite Hdecl, Hptr, Hreg, Hsup, Hget. simpl. fold Computed.
  destruct (bool_decide (Computed <> getValue TN)) eqn:Hne; simpl; [| reflexivity].
  apply bool_decide_eq_true in Hne.
  rewrite (bool_decide_eq_false_2 _ Hne). reflexivity.
Qed.

(** C9, as amended.  For a message with a method declaration and a pointer
    return type that none of the Cocoa heuristics matches, and whose return
    location is already tracked, let the computed value be
    [getMostNullable] of the tracked value and the receiver's nullability.
    The callback reports nothing.  It adds a node exactly when the computed
    value differs from the tracked one and is not Unspecified, and the state
    of that node tracks the location at the computed value.  When the tracked
    value is Nullable or Contradicted, every state the path goes on from
    tracks the location at the computed value.  In particular a tracked
    Nullable merged with a Nonnull receiver adds no node and the location
    stays Nullable. *)
Theorem C9_message_result_merge
    (M : ObjCMethodCall) (C : CheckerContext) (D : ObjCMethodDecl)
    (ReturnRegion : MemRegion) (TN : NullabilityState) :
  M_getDecl M = Some D ->
  isAnyPointerType (MD_getReturnType D) = true ->
  getTrackRegion (M_getReturnValue M) false = Some ReturnRegion ->
  isCocoaSuppressed M (ClassInterface_getName D) = false ->
  get_NullabilityMap (C_getState C) ReturnRegion = Some TN ->
  let Self := getReceiverNullability M (C_getState C) in
  let Computed := getMostNullable (getValue TN) Self in
  (exists e : Effects,
     checkPostObjCMessage M C = Returns e /\
     reports e = [] /\
     (nodes e <> [] <-> Computed <> getValue TN /\ Computed <> Unspecified) /\
     (forall S', In S' (map getState (nodes e)) ->
                 trackedValue S' ReturnRegion = Some Computed) /\
     (getValue TN = Nullable \/ getValue TN = Contradicted ->
      forall S', In S' (resultingStates (C_getState C) e) ->
                 trackedValue S' ReturnRegion = Some Computed)) /\
  (getValue TN = Nullable -> Self = Nonnull ->
   checkPostObjCMessage M C = Returns no_effect /\
   resultingStates (C_getState C) no_effect = [C_getState C] /\
   trackedValue (C_getState C) ReturnRegion = Some Nullable).
Proof.
  intros Hdecl Hptr Hreg Hsup Hget Self Computed.
  pose proof (checkPostObjCMessage_tracked M C D ReturnRegion TN
                Hdecl Hptr Hreg Hsup Hget) as Hrun.
  cbv zeta in Hrun. fold Self in Hrun. fold Computed in Hrun.
  assert (Htv : trackedValue (C_getState C) ReturnRegion = Some (getValue TN))
    by (unfold trackedValue; rewrite Hget; reflexivity).
  split.
  - destruct (bool_decide (Computed <> getValue TN)) eqn:Hne;
      [destruct (bool_decide (Computed <> Unspecified)) eqn:Hun |];
      simpl in Hrun; eexists; (split; [exact Hrun |]); (split; [reflexivity |]).
    + apply bool_decide_eq_true in Hne, Hun.
      split; [split; [intros _; split; assumption | intros _; discriminate] |].
      split.
      * intros S' [<- | []]. apply trackedValue_set.
      * intros _ S' [<- | []]. apply trackedValue_set.
    + apply bool_decide_eq_true in Hne. apply bool_decide_eq_false in Hun.
      split; [split; [intros H; exfalso; apply H; reflexivity | tauto] |].
      split; [intros S' [] |].
      intros Hv S' [<- | []]. exfalso. apply Hun. intros Hu.
      revert Hu. subst Computed.
      destruct Hv as [-> | ->]; destruct Self; vm_compute; discriminate.
    + apply bool_decide_eq_false in Hne. apply dec_stable in Hne.
      split; [split; [intros H; exfalso; apply H; reflexivity | tauto] |].
      split; [intros S' [] |].
      intros _ S' [<- | []]. rewrite Htv, Hne. reflexivity.
  - intros Hv Hself.
    assert (Hc : Computed = getValue TN)
      by (subst Computed; rewrite Hself, Hv; reflexivity).
    rewrite (bool_decide_eq_false_2 (Computed <> getValue TN)) in Hrun
      by (intros H; apply H; exact Hc).
    simpl in Hrun.
    split; [exact Hrun |]. split; [reflexivity |].
    rewrite Htv, Hv. reflexivity.
Qed.

Lemma C9_message_result_witness :
  checkPostObjCMessage Sample.msgTestObject
    (Sample.contextAt Sample.nullableState Sample.PtrTy)
  = Returns no_effect.
Proof.
  refine (proj1 (proj2
    (C9_message_result_merge Sample.msgTestObject
       (Sample.contextAt Sample.nullableState Sample.PtrTy)
       (mkObjCMethodDecl Sample.NonnullPtrTy (Some "TestObject"))
       Sample.R1 (NullabilityState_of Nullable) _ _ _ _ _) _ _));
    reflexivity.
Defined.

(** C9, as stated, fails.  An instance method of [NSDictionary] sent to
    [self], with the return location tracked as Nullable: the merge of
    Nullable with the Nonnull receiver is Nullable, the tracked value, so the
    claim has no update; the callback rewrites the entry to Contradicted,
    which is below Nullable. *)
Lemma C9_suppressed_message_overrides_merge :
  let C := Sample.contextAt Sample.nullableState Sample.PtrTy in
  trackedValue (C_getState C) Sample.R1 = Some Nullable /\
  getReceiverNullability Sample.msgDictionary (C_getState C) = Nonnull /\
  getMostNullable Nullable Nonnull = Nullable /\
  exists S' : ProgramState,
    checkPostObjCMessage Sample.msgDictionary C = Returns (transition S') /\
    trackedValue S' Sample.R1 = Some Contradicted /\
    Nullability_lt Contradicted Nullable.
Proof.
  split; [vm_compute; reflexivity |].
  split; [reflexivity |]. split; [reflexivity |].
  eexists. split; [reflexivity |].
  split; [vm_compute; reflexivity | unfold Nullability_lt; simpl; lia].
Qed.

(* ===================================================================== *)
(** ** The callbacks on the functions of the regression test *)
(* ===================================================================== *)

(** [testCast]: [Dummy *p = (Dummy *_Nonnull)returnsNullable();
    takesNonnull(p);] raises no warning. *)
Example testCast_no_warning :
  let C0 := Sample.contextAt Sample.emptyState Sample.PtrTy in
  let S1 := set_NullabilityMap Sample.emptyState Sample.R1
              (NullabilityState_of Nullable) in
  let S2 := set_NullabilityMap S1 Sample.R1 (NullabilityState_of Contradicted) in
  checkPostCall Sample.callReturnsNullable C0 = Returns (transition S1) /\
  checkPostStmt Sample.castToNonnull (Sample.contextAt S1 Sample.PtrTy)
  = Returns (transition S2) /\
  checkBind Sample.allChecks Sample.varP (loc_MemRegionVal Sample.R1)
    Sample.declStmt (Sample.contextAt S2 Sample.PtrTy)
  = Returns no_effect /\
  checkPreCall Sample.allChecks Sample.callTakesNonnull
    (Sample.contextAt S2 Sample.PtrTy)
  = Returns no_effect.
Proof. repeat split; vm_compute; reflexivity. Qed.

(** [testInvalidPropagation]: [Dummy *p = returnsUnspecified();
    takesNullable(p); takesNonnull(p);] raises no warning, because the type
    of the parameter of [takesNullable] does not make [p] nullable. *)
Example testInvalidPropagation_no_warning :
  let C := Sample.contextAt Sample.emptyState Sample.PtrTy in
  checkPreCall Sample.allChecks Sample.callTakesNullable C = Returns no_effect /\
  checkPreCall Sample.allChecks Sample.callTakesNonnull C = Returns no_effect.
Proof. split; vm_compute; reflexivity. Qed.

(** [testBasicRules]: inside [if (p) { takesNonnull(p); }] the solver has
    proven [p] non-null and the tracked Nullable raises no warning. *)
Example testBasicRules_guarded_no_warning :
  checkPreCall Sample.allChecks Sample.callTakesNonnull
    (Sample.contextAt
       (mkProgramState Sample.provesNonnull (NullabilityMap Sample.nullableState))
       Sample.PtrTy)
  = Returns no_effect.
Proof. vm_compute. reflexivity. Qed.

(** [testNullableReturn]: [return p;] with [p] tracked as Nullable in a
    function returning [Dummy *_Nonnull] raises a warning, on a node that is
    no sink. *)
Example testNullableReturn_warning :
  exists e : Effects,
    checkPreStmt Sample.allChecks Sample.returnP
      (Sample.contextAt Sample.nullableState Sample.NonnullPtrTy)
    = Returns e /\
    (report_Error <$> reports e) = [NullableReturnedToNonnull] /\
    (isSink <$> nodes e) = [false].
Proof. eexists. repeat split; vm_compute; reflexivity. Qed.

(* ===================================================================== *)
(** ** Which regions are tracked *)
(* ===================================================================== *)

Lemma getTrackRegion_symbolic (Val : SVal) (CheckSuperRegion : bool)
    (Region : MemRegion) :
  getTrackRegion Val CheckSuperRegion = Some Region ->
  exists Sym : SymbolRef, Region = SymbolicRegion Sym.
Proof.
  unfold getTrackRegion.
  destruct Val as [| | R | | |]; simpl; try discriminate.
  destruct CheckSuperRegion; destruct R as [Sym | D T | D T Super | Idx T Super];
    simpl; try discriminate;
    try (intros H; injection H as <-; eexists; reflexivity);
    destruct Super; simpl; try discriminate;
    intros H; injection H as <-; eexists; reflexivity.
Qed.

(** X1.  [getTrackRegion] yields symbolic regions only.  Without
    [CheckSuperRegion] the result is the region the value wraps; with it the
    result is that region or the direct super-region of the field or element
    region the value wraps.  The search goes up one level only: for a field
    of a field of a symbolic region there is no result. *)
Theorem X1_getTrackRegion_result
    (Val : SVal) (CheckSuperRegion : bool) (Region : MemRegion) :
  getTrackRegion Val CheckSuperRegion = Some Region ->
  (exists Sym : SymbolRef, Region = SymbolicRegion Sym) /\
  (Val = loc_MemRegionVal Region \/
   CheckSuperRegion = true /\
   ((exists D T, Val = loc_MemRegionVal (FieldRegion D T Region)) \/
    (exists Idx T, Val = loc_MemRegionVal (ElementRegion Idx T Region)))) /\
  (forall D T D' T',
     getTrackRegion
       (loc_MemRegionVal (FieldRegion D T (FieldRegion D' T' Region))) true
     = None).
Proof.
  intros H. split; [exact (getTrackRegion_symbolic _ _ _ H) |]. split.
  - unfold getTrackRegion in H.
    destruct Val as [| | R | | |]; simpl in H; try discriminate.
    destruct CheckSuperRegion.
    + destruct R as [Sym | D T | D T Super | Idx T Super]; simpl in H;
        try discriminate.
      * injection H as <-. left. reflexivity.
      * destruct Super; simpl in H; try discriminate. injection H as <-.
        right. split; [reflexivity |]. left. eexists. eexists. reflexivity.
      * destruct Super; simpl in H; try discriminate. injection H as <-.
        right. split; [reflexivity |]. right. eexists. eexists. reflexivity.
    + destruct R; simpl in H; try discriminate. injection H as <-.
      left. reflexivity.
  - intros D T D' T'. reflexivity.
Qed.

Lemma X1_getTrackRegion_witness :
  exists Sym : SymbolRef, Sample.R1 = SymbolicRegion Sym.
Proof.
  refine (proj1 (X1_getTrackRegion_result
                   (loc_MemRegionVal (FieldRegion 7 Sample.IntTy Sample.R1)) true
                   Sample.R1 _)).
  reflexivity.
Defined.

Lemma grows_refl (State : ProgramState) : grows State State.
Proof.
  split; [reflexivity |]. split.
  - intros Region H. exact H.
  - intros Region NS' H. left. exact H.
Qed.

Lemma grows_trans (S1 S2 S3 : ProgramState) :
  grows S1 S2 -> grows S2 S3 -> grows S1 S3.
Proof.
  intros [Hn12 [Hd12 Hk12]] [Hn23 [Hd23 Hk23]].
  split; [congruence |]. split.
  - intros Region H. apply Hd23, Hd12, H.
  - intros Region NS' H.
    destruct (Hk23 Region NS' H) as [H2 | Hsym]; [| right; exact Hsym].
    apply Hk12. exact H2.
Qed.

Lemma grows_set (State : ProgramState) (Val : SVal) (CheckSuperRegion : bool)
    (Region : MemRegion) (NS : NullabilityState) :
  getTrackRegion Val CheckSuperRegion = Some Region ->
  grows State (set_NullabilityMap State Region NS).
Proof.
  intros Hreg. split; [reflexivity |]. split.
  - intros Region' H.
    destruct (decide (Region = Region')) as [<- | Hne].
    + rewrite get_set_eq. eexists. reflexivity.
    + rewrite get_set_ne by exact Hne. exact H.
  - intros Region' NS' H.
    destruct (decide (Region = Region')) as [<- | Hne].
    + right. exact (getTrackRegion_symbolic _ _ _ Hreg).
    + rewrite get_set_ne in H by exact Hne. left. exact H.
Qed.

(** Close a goal [grows State State'] for the state of one branch. *)
Ltac close_grows :=
  first
    [ apply grows_refl
    | match goal with
      | H : getTrackRegion _ _ = Some ?R
        |- grows _ (set_NullabilityMap _ ?R _) => exact (grows_set _ _ _ _ _ H)
      end ].

Ltac grows_by_branches :=
  repeat case_match; simpl;
  intros Hin;
  repeat match goal with
  | H : False |- _ => destruct H
  | H : _ \/ _ |- _ => destruct H
  end;
  subst; simpl; close_grows.

Lemma checkPreCall_body_grows (Filter : NullabilityChecksFilter) (Call : CallEvent)
    (State : ProgramState) (Idx : nat) (Param : ParmVarDecl) :
  LoopControl_grows State (checkPreCall_body Filter Call State Idx Param).
Proof.
  unfold checkPreCall_body.
  repeat case_match; simpl; try exact I; try close_grows;
    intros N [<- | []]; simpl; apply grows_refl.
Qed.

Lemma checkPreCall_loop_grows (Filter : NullabilityChecksFilter) (Call : CallEvent)
    (Params : list ParmVarDecl) :
  forall (State : ProgramState) (Idx : nat),
    LoopControl_grows State (checkPreCall_loop Filter Call State Idx Params).
Proof.
  induction Params as [| Param Rest IH]; intros State Idx; simpl.
  - apply grows_refl.
  - pose proof (checkPreCall_body_grows Filter Call State Idx Param) as Hbody.
    destruct (checkPreCall_body Filter Call State Idx Param) as [S1 | S1 | e | f];
      simpl in *; try assumption.
    specialize (IH S1 (S Idx)).
    destruct (checkPreCall_loop Filter Call S1 (S Idx) Rest) as [S2 | S2 | e | f];
      simpl in *; try exact I.
    + eapply grows_trans; eassumption.
    + eapply grows_trans; eassumption.
    + intros N HN. eapply grows_trans; [eassumption | apply IH; exact HN].
Qed.

(** Every state a callback produces has grown from the state it started
    in. *)
Lemma handle_grows (Filter : NullabilityChecksFilter) (ev : CheckerEvent)
    (C : CheckerContext) (State' : ProgramState) :
  In State' (producedStates (handle Filter ev C)) ->
  grows (C_getState C) State'.
Proof.
  destruct ev as [L V BS | Call | Call | RS | CE | M | SR | Event]; simpl.
  - unfold checkBind. grows_by_branches.
  - unfold checkPreCall.
    destruct (getDecl Call); [| intros []].
    pose proof (checkPreCall_loop_grows Filter Call (parameters Call) (C_getState C) 0%nat)
      as Hloop.
    destruct (checkPreCall_loop Filter Call (C_getState C) 0 (parameters Call))
      as [S1 | S1 | e | f]; simpl in *.
    + case_match; simpl; intros Hin; [destruct Hin as [<- | []]; exact Hloop | destruct Hin].
    + case_match; simpl; intros Hin; [destruct Hin as [<- | []]; exact Hloop | destruct Hin].
    + intros Hin. apply in_map_iff in Hin. destruct Hin as [N [<- HN]].
      apply Hloop. exact HN.
    + intros [].
  - unfold checkPostCall. grows_by_branches.
  - unfold checkPreStmt. grows_by_branches.
  - unfold checkPostStmt. grows_by_branches.
  - unfold checkPostObjCMessage. grows_by_branches.
  - intros [].
  - unfold checkEvent. repeat case_match; simpl; intros [].
Qed.

(** X2.  In every program state a path reaches, every key of the map is a
    symbolic region: no callback tracks a variable, a field or an element. *)
Theorem X2_tracked_regions_are_symbolic
    (Filter : NullabilityChecksFilter) (State : ProgramState) :
  reachable Filter State -> symbolicKeys State.
Proof.
  induction 1 as [isNull0 | State isNull' Hreach IH | C ev State' Hreach IH Hin].
  - intros Region NS Hget. unfold get_NullabilityMap in Hget; simpl in Hget.
    rewrite lookup_empty in Hget. discriminate.
  - exact IH.
  - intros Region NS' Hget.
    destruct (handle_grows Filter ev C State' Hin) as [_ [_ Hkeys]].
    destruct (Hkeys Region NS' Hget) as [Hold | Hsym]; [| exact Hsym].
    exact (IH Region NS' Hold).
Qed.

Lemma X2_tracked_regions_witness :
  symbolicKeys (set_NullabilityMap Sample.emptyState Sample.R1
                  (NullabilityState_of Nullable)).
Proof.
  apply (X2_tracked_regions_are_symbolic Sample.allChecks).
  apply (reachable_step Sample.allChecks
           (Sample.contextAt Sample.emptyState Sample.PtrTy)
           (OnPostCall Sample.callReturnsNullable)).
  - apply reachable_init.
  - left. reflexivity.
Defined.

(** X3.  Along a path the map only grows: a location that is tracked stays
    tracked in every later state, whatever update rules run in between, and
    no callback changes what the solver knows. *)
Theorem X3_tracked_stays_tracked
    (Filter : NullabilityChecksFilter) (State State' : ProgramState)
    (Region : MemRegion) :
  later Filter State State' ->
  is_Some (get_NullabilityMap State Region) ->
  is_Some (get_NullabilityMap State' Region) /\
  forall (C : CheckerContext) (ev : CheckerEvent) (State'' : ProgramState),
    In State'' (producedStates (handle Filter ev C)) ->
    isNull State'' = isNull (C_getState C).
Proof.
  intros Hlater Htracked. split.
  - induction Hlater as [| S1 isNull' Hl IH | C ev S1 Hl IH Hrule Hin].
    + exact Htracked.
    + exact IH.
    + destruct (handle_grows Filter ev C S1 Hin) as [_ [Hdom _]].
      apply Hdom. exact IH.
  - intros C ev State'' Hin.
    destruct (handle_grows Filter ev C State'' Hin) as [Hsolver _]. exact Hsolver.
Qed.

Lemma X3_tracked_stays_tracked_witness :
  is_Some
    (get_NullabilityMap
       (set_NullabilityMap Sample.nullableState Sample.R1
          (NullabilityState_of Contradicted))
       Sample.R1).
Proof.
  refine (proj1 (X3_tracked_stays_tracked Sample.allChecks Sample.nullableState
                   _ Sample.R1 _ _)).
  - apply (later_step Sample.allChecks Sample.nullableState
             (Sample.contextAt Sample.nullableState Sample.PtrTy)
             (OnExplicitCast Sample.castToNonnull)).
    + apply later_now.
    + reflexivity.
    + left. reflexivity.
  - eexists. vm_compute. reflexivity.
Defined.

(* ===================================================================== *)
(** ** What the callbacks report *)
(* ===================================================================== *)

(** Turn the boolean tests of a branch into propositions, disjunctions
    included. *)
Ltac bool_facts :=
  repeat match goal with
  | H : _ && _ = true |- _ => apply andb_true_iff in H; destruct H
  | H : _ || _ = false |- _ => apply orb_false_iff in H; destruct H
  | H : bool_decide _ = true |- _ => apply bool_decide_eq_true in H
  | H : bool_decide _ = false |- _ => apply bool_decide_eq_false in H
  | H : ~ (_ <> _) |- _ => apply dec_stable in H
  end.

(** Use the selectors a branch has tested. *)
Ltac use_selectors :=
  repeat match goal with
  | H : ?b = true |- context [?b] => rewrite H
  end;
  rewrite ?orb_true_r; simpl.

(** Close [report_wellformed] for the report of one branch. *)
Ltac close_wellformed :=
  bool_facts;
  unfold report_wellformed, reportBug; simpl;
  use_selectors;
  split; [reflexivity |]; split; [reflexivity |];
  first
    [ split; [reflexivity |]; split; [eexists; reflexivity | reflexivity]
    | split; [reflexivity |];
      match goal with
      | Hreg : getTrackRegion _ _ = Some ?R, Hget : get_NullabilityMap _ ?R = Some ?TN
        |- _ =>
          destruct (getTrackRegion_symbolic _ _ _ Hreg) as [Sym HSym];
          exists Sym; split; [rewrite HSym; reflexivity |];
          rewrite <- HSym; unfold trackedValue; rewrite Hget; simpl; congruence
      end ].

(** The reports of a callback other than the call-argument check. *)
Ltac reports_by_branches :=
  repeat case_match;
  intros Heq; try discriminate; injection Heq as <-; simpl;
  intros r Hin;
  repeat match goal with
  | H : False |- _ => destruct H
  | H : _ \/ _ |- _ => destruct H
  end;
  subst; close_wellformed.

Lemma checkBind_reports (Filter : NullabilityChecksFilter) (L V : SVal)
    (S : BindStmt) (C : CheckerContext) (e : Effects) :
  checkBind Filter L V S C = Returns e ->
  forall r, In r (reports e) -> report_wellformed Filter r.
Proof. unfold checkBind. reports_by_branches. Qed.

Lemma checkPreStmt_reports (Filter : NullabilityChecksFilter) (S : ReturnStmt)
    (C : CheckerContext) (e : Effects) :
  checkPreStmt Filter S C = Returns e ->
  forall r, In r (reports e) -> report_wellformed Filter r.
Proof. unfold checkPreStmt. reports_by_branches. Qed.

Lemma checkEvent_reports (Filter : NullabilityChecksFilter)
    (Event : ImplicitNullDerefEvent) (e : Effects) :
  checkEvent Filter Event = Returns e ->
  forall r, In r (reports e) -> report_wellformed Filter r.
Proof. unfold checkEvent. reports_by_branches. Qed.

Lemma checkPostCall_reports (Call : CallEvent) (C : CheckerContext) (e : Effects) :
  checkPostCall Call C = Returns e -> reports e = [].
Proof.
  unfold checkPostCall. repeat case_match; intros Heq; injection Heq as <-; reflexivity.
Qed.

Lemma checkPostStmt_reports (CE : ExplicitCastExpr) (C : CheckerContext) (e : Effects) :
  checkPostStmt CE C = Returns e -> reports e = [].
Proof.
  unfold checkPostStmt.
  repeat case_match; intros Heq; try discriminate; injection Heq as <-; reflexivity.
Qed.

Lemma checkPostObjCMessage_reports (M : ObjCMethodCall) (C : CheckerContext)
    (e : Effects) :
  checkPostObjCMessage M C = Returns e -> reports e = [].
Proof.
  unfold checkPostObjCMessage.
  repeat case_match; intros Heq; injection Heq as <-; reflexivity.
Qed.

(** An iteration of the loop of [checkPreCall] that ends the callback: it
    has added one sink, in the state the loop had come to, and one report on
    it. *)
Lemma checkPreCall_body_return (Filter : NullabilityChecksFilter) (Call : CallEvent)
    (State : ProgramState) (Idx : nat) (Param : ParmVarDecl) (e : Effects) :
  checkPreCall_body Filter Call State Idx Param = LoopReturn e ->
  exists (N : ExplodedNode) (r : BugReport),
    e = report_at N r /\
    getState N = State /\ isSink N = true /\
    report_Node r = N /\ report_wellformed Filter r.
Proof.
  unfold checkPreCall_body.
  repeat case_match; intros Heq; try discriminate; injection Heq as <-;
    eexists; eexists;
    (split; [reflexivity |]); (split; [reflexivity |]); (split; [reflexivity |]);
    (split; [reflexivity |]); close_wellformed.
Qed.

(** When the loop ends the callback, one of its iterations did, in a state
    grown from the one the loop started in. *)
Lemma checkPreCall_loop_return (Filter : NullabilityChecksFilter) (Call : CallEvent)
    (Params : list ParmVarDecl) (e : Effects) :
  forall (State : ProgramState) (Idx : nat),
    checkPreCall_loop Filter Call State Idx Params = LoopReturn e ->
    exists (State' : ProgramState) (Idx' : nat) (Param : ParmVarDecl),
      In Param Params /\
      grows State State' /\
      checkPreCall_body Filter Call State' Idx' Param = LoopReturn e.
Proof.
  induction Params as [| Param Rest IH]; intros State Idx; simpl.
  - discriminate.
  - pose proof (checkPreCall_body_grows Filter Call State Idx Param) as Hg.
    destruct (checkPreCall_body Filter Call State Idx Param) as [S1 | S1 | e1 | f]
      eqn:Hbody; try discriminate.
    + intros Hloop. destruct (IH _ _ Hloop) as [State' [Idx' [P [HP [Hg' HB]]]]].
      exists State', Idx', P. split; [right; exact HP |].
      split; [eapply grows_trans; [exact Hg | exact Hg'] | exact HB].
    + intros Heq. injection Heq as <-.
      exists State, Idx, Param. split; [left; reflexivity |].
      split; [apply grows_refl | exact Hbody].
Qed.

(** The three ways [checkPreCall] returns. *)
Lemma checkPreCall_cases (Filter : NullabilityChecksFilter) (Call : CallEvent)
    (C : CheckerContext) (e : Effects) :
  checkPreCall Filter Call C = Returns e ->
  e = no_effect \/
  (exists State', e = transition State') \/
  checkPreCall_loop Filter Call (C_getState C) 0 (parameters Call) = LoopReturn e.
Proof.
  unfold checkPreCall.
  destruct (getDecl Call); [| intros Heq; injection Heq as <-; left; reflexivity].
  destruct (checkPreCall_loop Filter Call (C_getState C) 0 (parameters Call))
    as [S1 | S1 | e1 | f]; try discriminate.
  - case_match; intros Heq; injection Heq as <-;
      [right; left; eexists; reflexivity | left; reflexivity].
  - case_match; intros Heq; injection Heq as <-;
      [right; left; eexists; reflexivity | left; reflexivity].
  - intros Heq. injection Heq as <-. right. right. reflexivity.
Qed.

Lemma checkPreCall_reports (Filter : NullabilityChecksFilter) (Call : CallEvent)
    (C : CheckerContext) (e : Effects) :
  checkPreCall Filter Call C = Returns e ->
  forall r, In r (reports e) -> report_wellformed Filter r.
Proof.
  intros Hrun r Hin.
  destruct (checkPreCall_cases _ _ _ _ Hrun) as [-> | [[S' ->] | Hloop]];
    try (destruct Hin).
  destruct (checkPreCall_loop_return _ _ _ _ _ _ Hloop) as [S' [Idx' [P [_ [_ Hbody]]]]].
  destruct (checkPreCall_body_return _ _ _ _ _ _ Hbody) as [N [r0 [-> [_ [_ [_ Hwf]]]]]].
  destruct Hin as [<- | []]. exact Hwf.
Qed.

(** Every report of every callback is well formed. *)
Lemma handle_reports (Filter : NullabilityChecksFilter) (ev : CheckerEvent)
    (C : CheckerContext) (e : Effects) :
  handle Filter ev C = Returns e ->
  forall r, In r (reports e) -> report_wellformed Filter r.
Proof.
  destruct ev as [L V BS | Call | Call | RS | CE | M | SR | Event]; simpl; intros Hrun.
  - exact (checkBind_reports _ _ _ _ _ _ Hrun).
  - exact (checkPreCall_reports _ _ _ _ Hrun).
  - rewrite (checkPostCall_reports _ _ _ Hrun). intros r [].
  - exact (checkPreStmt_reports _ _ _ _ Hrun).
  - rewrite (checkPostStmt_reports _ _ _ Hrun). intros r [].
  - rewrite (checkPostObjCMessage_reports _ _ _ Hrun). intros r [].
  - unfold checkDeadSymbols in Hrun. injection Hrun as <-. intros r [].
  - exact (checkEvent_reports _ _ _ Hrun).
Qed.

(** The shape of the effects of a callback other than the call-argument
    check. *)
Ltac shape_by_branches :=
  repeat case_match;
  intros Heq; try discriminate; injection Heq as <-;
  unfold effects_shape; simpl;
  (split; [lia |]); (split; [lia |]);
  (split;
   [ intros r Hin;
     repeat match goal with
     | H : False |- _ => destruct H
     | H : _ \/ _ |- _ => destruct H
     end; subst; reflexivity
   | intros N Hin;
     repeat match goal with
     | H : False |- _ => destruct H
     | H : _ \/ _ |- _ => destruct H
     end; subst; reflexivity ]).

Lemma handle_shape (Filter : NullabilityChecksFilter) (ev : CheckerEvent)
    (C : CheckerContext) (e : Effects) :
  handle Filter ev C = Returns e -> effects_shape ev e.
Proof.
  destruct ev as [L V BS | Call | Call | RS | CE | M | SR | Event]; simpl.
  - unfold checkBind. shape_by_branches.
  - intros Hrun.
    destruct (checkPreCall_cases _ _ _ _ Hrun) as [-> | [[S' ->] | Hloop]].
    + unfold effects_shape; simpl. repeat split; try lia; intros ? [].
    + unfold effects_shape; simpl.
      split; [lia |]. split; [lia |]. split; [intros r [] |].
      intros N [<- | []]. simpl. split; [discriminate | intros H; destruct H; reflexivity].
    + destruct (checkPreCall_loop_return _ _ _ _ _ _ Hloop)
        as [S' [Idx' [P [_ [_ Hbody]]]]].
      destruct (checkPreCall_body_return _ _ _ _ _ _ Hbody)
        as [N [r0 [-> [_ [Hsink [Hnode _]]]]]].
      unfold effects_shape; simpl.
      split; [lia |]. split; [lia |]. split.
      * intros r [<- | []]. rewrite Hnode. reflexivity.
      * intros N' [<- | []]. split; [discriminate | intros _; exact Hsink].
  - unfold checkPostCall. shape_by_branches.
  - unfold checkPreStmt. shape_by_branches.
  - unfold checkPostStmt. shape_by_branches.
  - unfold checkPostObjCMessage. shape_by_branches.
  - unfold checkDeadSymbols. shape_by_branches.
  - unfold checkEvent. shape_by_branches.
Qed.



(** X5.  A callback adds at most one node and emits at most one report.  A
    report sits on the node its callback added, except for the
    implicit-dereference event, whose report sits on the sink the event
    brings.  Only the call-argument check adds sinks, and the node it adds
    is a sink exactly when it reports: its violations end the path, those of
    the bind, of the return statement and of the other callbacks do not. *)
Theorem X5_nodes_and_reports
    (Filter : NullabilityChecksFilter) (ev : CheckerEvent) (C : CheckerContext)
    (e : Effects) :
  handle Filter ev C = Returns e ->
  (length (nodes e) <= 1)%nat /\
  (length (reports e) <= 1)%nat /\
  (forall r, In r (reports e) ->
     match ev with
     | OnImplicitNullDeref Event => report_Node r = Event_SinkNode Event
     | _ => nodes e = [report_Node r]
     end) /\
  (forall N, In N (nodes e) ->
     match ev with
     | OnPreCall _ => isSink N = true <-> reports e <> []
     | _ => isSink N = false
     end).
Proof. intros Hrun. exact (handle_shape Filter ev C e Hrun). Qed.

Lemma X5_nodes_and_reports_witness :
  (length (nodes (transition
                    (set_NullabilityMap Sample.emptyState Sample.R1
                       (NullabilityState_of Nullable)))) <= 1)%nat.
Proof.
  refine (proj1 (X5_nodes_and_reports Sample.allChecks
                   (OnPostCall Sample.callReturnsNullable)
                   (Sample.contextAt Sample.emptyState Sample.PtrTy) _ _)).
  reflexivity.
Defined.

(** X6.  What a report carries.  Its message is the fixed message of its
    kind.  A report of a null-value kind names no region, cites an
    expression and asks for the null value to be tracked back.  A report of a
    nullable kind does not ask for that and names a symbolic region that the
    state of its node tracks as Nullable; so a location that is contradicted,
    or not tracked, is never named by a report. *)
Theorem X6_report_contents
    (Filter : NullabilityChecksFilter) (ev : CheckerEvent) (C : CheckerContext)
    (e : Effects) (r : BugReport) :
  handle Filter ev C = Returns e ->
  In r (reports e) ->
  report_Msg r = ErrorMessages (report_Error r) /\
  (isNilKind (report_Error r) = true ->
   report_InterestingRegion r = None /\
   is_Some (report_Range r) /\
   report_trackNullOrUndefValue r = true) /\
  (isNilKind (report_Error r) = false ->
   report_trackNullOrUndefValue r = false /\
   exists Sym : SymbolRef,
     report_InterestingRegion r = Some (SymbolicRegion Sym) /\
     trackedValue (getState (report_Node r)) (SymbolicRegion Sym) = Some Nullable) /\
  (forall Region,
     report_InterestingRegion r = Some Region ->
     trackedValue (getState (report_Node r)) Region = Some Nullable).
Proof.
  intros Hrun Hin.
  destruct (handle_reports Filter ev C e Hrun r Hin) as [_ [Hmsg Hbody]].
  split; [exact Hmsg |].
  destruct (isNilKind (report_Error r)).
  - split; [intros _; exact Hbody |]. split; [discriminate |].
    intros Region HR. destruct Hbody as [Hnone _]. congruence.
  - split; [discriminate |]. split; [intros _; exact Hbody |].
    intros Region HR. destruct Hbody as [_ [Sym [HSym Htracked]]].
    rewrite HR in HSym. injection HSym as ->. exact Htracked.
Qed.

Lemma X6_report_contents_witness :
  report_Msg
    (reportBug NullablePassedToNonnull
       (generateSink Sample.nullableState "NullablePassedToNonnull")
       (Some Sample.R1) (Some (Expr_stmt Sample.argP)))
  = ErrorMessages NullablePassedToNonnull.
Proof.
  refine (proj1 (X6_report_contents Sample.allChecks
                   (OnPreCall Sample.callTakesNonnull)
                   (Sample.contextAt Sample.nullableState Sample.PtrTy)
                   (report_at _ _) _ _ _)).
  - vm_compute. reflexivity.
  - left. reflexivity.
Defined.

(* ===================================================================== *)
(** ** The sweep, the implicit dereference and the call return *)
(* ===================================================================== *)

Lemma sweep_fold_isNull (SR : SymbolReaper)
    (l : list (MemRegion * NullabilityState)) :
  forall State : ProgramState,
    isNull
      (fold_left
         (fun (State : ProgramState) (I : MemRegion * NullabilityState) =>
            if negb (isLiveRegion SR I.1) then remove_NullabilityMap State I.1
            else State) l State)
    = isNull State.
Proof.
  induction l as [| [K V] l IH]; intros State; [reflexivity |].
  cbn [fold_left]. rewrite IH. cbn [fst].
  destruct (negb (isLiveRegion SR K)); reflexivity.
Qed.

(** X7.  The state the loop of [checkDeadSymbols] computes is the state it
    started in, restricted to the live regions: a lookup finds what it found
    before for a live region and nothing for a dead one, and what the solver
    knows is unchanged.  Sweeping that state again with the same reaper
    changes nothing. *)
Theorem X7_checkDeadSymbols_loop_keeps_live
    (SR : SymbolReaper) (State : ProgramState) :
  (forall Region,
     get_NullabilityMap (checkDeadSymbols_loop SR State) Region
     = if isLiveRegion SR Region then get_NullabilityMap State Region else None) /\
  isNull (checkDeadSymbols_loop SR State) = isNull State /\
  NullabilityMap (checkDeadSymbols_loop SR (checkDeadSymbols_loop SR State))
  = NullabilityMap (checkDeadSymbols_loop SR State).
Proof.
  split; [intros Region; apply checkDeadSymbols_loop_lookup |].
  split; [apply sweep_fold_isNull |].
  apply map_eq. intros Region.
  change (get_NullabilityMap
            (checkDeadSymbols_loop SR (checkDeadSymbols_loop SR State)) Region
          = get_NullabilityMap (checkDeadSymbols_loop SR State) Region).
  rewrite !checkDeadSymbols_loop_lookup.
  destruct (isLiveRegion SR Region); reflexivity.
Qed.

(** X8.  [checkEvent] adds no node.  It reports exactly when the selector
    [CheckNullableDereferenced] is enabled and the location of the event, or
    the symbolic region it is a field or an element of, is tracked as
    Nullable in the state of the event's sink; the report is
    nullable-dereferenced for a direct dereference and
    nullable-passed-to-nonnull otherwise, on the event's sink, naming that
    region. *)
Theorem X8_checkEvent_reports
    (Filter : NullabilityChecksFilter) (Event : ImplicitNullDerefEvent) :
  exists e : Effects,
    checkEvent Filter Event = Returns e /\
    nodes e = [] /\
    (forall Region,
       getTrackRegion (Event_Location Event) true = Some Region ->
       trackedValue (getState (Event_SinkNode Event)) Region = Some Nullable ->
       CheckNullableDereferenced Filter = true ->
       reports e
       = [reportBug
            (if Event_IsDirectDereference Event then NullableDereferenced
             else NullablePassedToNonnull)
            (Event_SinkNode Event) (Some Region) None]) /\
    (reports e <> [] ->
     CheckNullableDereferenced Filter = true /\
     exists Region,
       getTrackRegion (Event_Location Event) true = Some Region /\
       trackedValue (getState (Event_SinkNode Event)) Region = Some Nullable).
Proof.
  unfold checkEvent, trackedValue.
  destruct (getTrackRegion (Event_Location Event) true) as [R |] eqn:Hreg.
  - destruct (get_NullabilityMap (getState (Event_SinkNode Event)) R)
      as [TN |] eqn:Hget.
    + destruct (CheckNullableDereferenced Filter) eqn:Hsel; simpl.
      * destruct (bool_decide (getValue TN = Nullable)) eqn:Hv.
        -- apply bool_decide_eq_true in Hv.
           destruct (Event_IsDirectDereference Event); eexists;
             (split; [reflexivity |]); (split; [reflexivity |]); simpl;
             (split; [intros Region HR _ _; injection HR as <-; reflexivity |]);
             intros _; (split; [reflexivity |]); exists R;
             (split; [reflexivity |]); rewrite Hget; simpl; congruence.
        -- apply bool_decide_eq_false in Hv.
           eexists. split; [reflexivity |]. split; [reflexivity |]. simpl. split.
           ++ intros Region HR Htv _. injection HR as <-.
              rewrite Hget in Htv. simpl in Htv. congruence.
           ++ intros H. exfalso. apply H. reflexivity.
      * eexists. split; [reflexivity |]. split; [reflexivity |]. simpl. split.
        -- intros Region _ _ Habs. discriminate.
        -- intros H. exfalso. apply H. reflexivity.
    + eexists. split; [reflexivity |]. split; [reflexivity |]. simpl. split.
      * intros Region HR Htv _. injection HR as <-.
        rewrite Hget in Htv. discriminate.
      * intros H. exfalso. apply H. reflexivity.
  - eexists. split; [reflexivity |]. split; [reflexivity |]. simpl. split.
    + intros Region HR. discriminate.
    + intros H. exfalso. apply H. reflexivity.
Qed.

(** [int b = p->val;] with [p] tracked as Nullable: the dereference of the
    field is reported for the region of [p]. *)
Example checkEvent_field_of_nullable :
  checkEvent Sample.allChecks Sample.derefField
  = Returns (mkEffects []
               [reportBug NullableDereferenced (Event_SinkNode Sample.derefField)
                  (Some Sample.R1) None]).
Proof. vm_compute. reflexivity. Qed.

(** X9.  [checkPostCall] always returns and reports nothing.  For a callee
    whose declaration is not in a file named CG..., every entry of the map
    stays as it is: the callback can only add an entry, Nullable and without
    a source.  For a callee in such a file whose return type is a pointer
    and whose result is a symbolic region, that region is set to
    Contradicted, whatever was tracked for it and whatever the return type
    is annotated with. *)
Theorem X9_checkPostCall_effect (Call : CallEvent) (C : CheckerContext) :
  exists e : Effects,
    checkPostCall Call C = Returns e /\
    reports e = [] /\
    (forall D, getDecl Call = Some D ->
       startswith (Decl_filename D) "CG" = false ->
       forall State', In State' (map getState (nodes e)) ->
         (forall Region NS,
            get_NullabilityMap (C_getState C) Region = Some NS ->
            get_NullabilityMap State' Region = Some NS) /\
         (forall Region NS',
            get_NullabilityMap State' Region = Some NS' ->
            get_NullabilityMap (C_getState C) Region = Some NS' \/
            NS' = NullabilityState_of Nullable)) /\
    (forall D FuncType Region,
       getDecl Call = Some D ->
       getKind Call <> CE_ObjCMessage ->
       getFunctionType D = Some FuncType ->
       isAnyPointerType (getReturnType FuncType) = true ->
       getTrackRegion (getReturnValue Call) false = Some Region ->
       startswith (Decl_filename D) "CG" = true ->
       e = transition
             (set_NullabilityMap (C_getState C) Region
                (NullabilityState_of Contradicted))).
Proof.
  unfold checkPostCall.
  destruct (getDecl Call) as [D0 |];
    [| eexists; split; [reflexivity |]; split; [reflexivity |];
       split; [intros D HD; discriminate | intros D FT R HD; discriminate]].
  destruct (bool_decide (getKind Call = CE_ObjCMessage)) eqn:Hkind.
  { eexists. split; [reflexivity |]. split; [reflexivity |]. split.
    - intros D _ _ State' [].
    - intros D FT R _ Hk. apply bool_decide_eq_true in Hkind. contradiction. }
  destruct (getFunctionType D0) as [FT0 |] eqn:Hfun.
  2:{ eexists. split; [reflexivity |]. split; [reflexivity |]. split.
      - intros D _ _ State' [].
      - intros D FT R HD _ HF. injection HD as <-. congruence. }
  destruct (isAnyPointerType (getReturnType FT0)) eqn:Hptr; simpl.
  2:{ eexists. split; [reflexivity |]. split; [reflexivity |]. split.
      - intros D _ _ State' [].
      - intros D FT R HD _ HF HP. injection HD as <-.
        rewrite Hfun in HF. injection HF as <-. congruence. }
  destruct (getTrackRegion (getReturnValue Call) false) as [R0 |] eqn:Hreg.
  2:{ eexists. split; [reflexivity |]. split; [reflexivity |]. split.
      - intros D _ _ State' [].
      - intros D FT R _ _ _ _ HR. discriminate. }
  destruct (startswith (Decl_filename D0) "CG") eqn:Hcg.
  { eexists. split; [reflexivity |]. split; [reflexivity |]. split.
    - intros D HD Hn. injection HD as <-. congruence.
    - intros D FT R _ _ _ _ HR _. injection HR as <-. reflexivity. }
  destruct (get_NullabilityMap (C_getState C) R0) as [TN |] eqn:Hget.
  { eexists. split; [reflexivity |]. split; [reflexivity |]. split.
    - intros D _ _ State' [].
    - intros D FT R HD _ _ _ _ Hc. injection HD as <-. congruence. }
  destruct (bool_decide (getNullabilityAnnotation (getReturnType FT0) = Nullable)).
  - eexists. split; [reflexivity |]. split; [reflexivity |]. split.
    + intros D _ _ State' [<- | []]. simpl. split.
      * intros Region NS HNS.
        destruct (decide (R0 = Region)) as [<- | Hne]; [congruence |].
        rewrite get_set_ne by exact Hne. exact HNS.
      * intros Region NS' HNS'.
        destruct (decide (R0 = Region)) as [<- | Hne].
        -- rewrite get_set_eq in HNS'. injection HNS' as <-. right. reflexivity.
        -- rewrite get_set_ne in HNS' by exact Hne. left. exact HNS'.
    + intros D FT R HD _ _ _ _ Hc. injection HD as <-. congruence.
  - eexists. split; [reflexivity |]. split; [reflexivity |]. split.
    + intros D _ _ State' [].
    + intros D FT R HD _ _ _ _ Hc. injection HD as <-. congruence.
Qed.

(** A function of a CG header: its result is contradicted although its
    return type is annotated Nullable and was tracked as Nullable. *)
Example checkPostCall_CG_header :
  checkPostCall Sample.callCG (Sample.contextAt Sample.nullableState Sample.PtrTy)
  = Returns (transition
               (set_NullabilityMap Sample.nullableState Sample.R1
                  (NullabilityState_of Contradicted))).
Proof. vm_compute. reflexivity. Qed.

(* ===================================================================== *)
(** ** Messages: the heuristics and the receiver *)
(* ===================================================================== *)

(** The heuristics on some classes and selectors. *)
Example isCocoaSuppressed_cases :
  isCocoaSuppressed Sample.msgDictionary "NSDictionary" = true /\
  isCocoaSuppressed Sample.msgDictionary "NSMutableDictionary" = true /\
  isCocoaSuppressed Sample.msgDictionary "MyDictionary" = false /\
  isCocoaSuppressed Sample.msgDictionary "NSSet" = false /\
  isCocoaSuppressed Sample.msgTestObject "NSArray" = false.
Proof. repeat split; vm_compute; reflexivity. Qed.

(** X10.  A message that one of the heuristics for the NS classes matches
    (the method has a declaration and a pointer return type, and the result
    is a symbolic region) sets the result to Contradicted, whatever the
    return type is annotated with, whatever the receiver is and whatever was
    tracked.  When the result is then the argument of a call with one
    parameter, and the solver has no proof that it is null, the
    call-argument check reports nothing. *)
Theorem X10_suppressed_message_is_silenced
    (Filter : NullabilityChecksFilter) (M : ObjCMethodCall) (C : CheckerContext)
    (D : ObjCMethodDecl) (Region : MemRegion)
    (Call3 : CallEvent) (Param : ParmVarDecl) (ArgE : Expr) :
  M_getDecl M = Some D ->
  isAnyPointerType (MD_getReturnType D) = true ->
  getTrackRegion (M_getReturnValue M) false = Some Region ->
  isCocoaSuppressed M (ClassInterface_getName D) = true ->
  parameters Call3 = [Param] ->
  (0 < getNumArgs Call3)%nat ->
  getArgExpr Call3 0 = Some ArgE ->
  getTrackRegion (getArgSVal Call3 0) false = Some Region ->
  let S1 := set_NullabilityMap (C_getState C) Region
              (NullabilityState_of Contradicted) in
  checkPostObjCMessage M C = Returns (transition S1) /\
  forall C3 : CheckerContext,
    NullabilityMap (C_getState C3) = NullabilityMap S1 ->
    getNullConstraint (getArgSVal Call3 0) (C_getState C3) <> IsNull ->
    checkPreCall Filter Call3 C3 = Returns no_effect.
Proof.
  intros Hdecl Hptr Hreg Hsup Hparams Hnum Hexpr Harg S1. split.
  - unfold checkPostObjCMessage. rewrite Hdecl, Hptr, Hreg, Hsup. reflexivity.
  - intros C3 Hmap Hnotnull.
    apply (checkPreCall_contradicted_argument Filter Call3 C3 Param ArgE Region);
      try assumption.
    rewrite (trackedValue_same_map _ _ Region Hmap). apply trackedValue_set.
Qed.

Lemma X10_suppressed_message_witness :
  checkPostObjCMessage Sample.msgDictionary
    (Sample.contextAt Sample.nullableState Sample.PtrTy)
  = Returns (transition
               (set_NullabilityMap Sample.nullableState Sample.R1
                  (NullabilityState_of Contradicted))).
Proof.
  refine (proj1 (X10_suppressed_message_is_silenced Sample.allChecks
                   Sample.msgDictionary
                   (Sample.contextAt Sample.nullableState Sample.PtrTy)
                   (mkObjCMethodDecl Sample.PtrTy (Some "NSDictionary"))
                   Sample.R1 Sample.callTakesNonnull Sample.nonnullParam
                   Sample.argP _ _ _ _ _ _ _ _));
    try reflexivity; simpl; lia.
Defined.

(** X11.  A message to a receiver that is tracked as Nullable and not proven
    non-null (and is not self or super), when no heuristic matches and the
    result is a symbolic region that is not tracked yet: the result becomes
    tracked as Nullable, whatever the return type is annotated with.  The
    source recorded is the message when the return type itself counts as
    Nullable, and the receiver expression otherwise. *)
Theorem X11_nullable_receiver_makes_result_nullable
    (M : ObjCMethodCall) (C : CheckerContext) (D : ObjCMethodDecl)
    (ReturnRegion SelfRegion : MemRegion) :
  M_getDecl M = Some D ->
  isAnyPointerType (MD_getReturnType D) = true ->
  getTrackRegion (M_getReturnValue M) false = Some ReturnRegion ->
  isCocoaSuppressed M (ClassInterface_getName D) = false ->
  get_NullabilityMap (C_getState C) ReturnRegion = None ->
  M_isReceiverSelfOrSuper M = false ->
  M_getReceiverSVal M = loc_MemRegionVal SelfRegion ->
  trackedValue (C_getState C) SelfRegion = Some Nullable ->
  getNullConstraint (loc_MemRegionVal SelfRegion) (C_getState C) <> IsNotNull ->
  let RetNullability :=
    if bool_decide (M_getMessageKind M = OCM_PropertyAccess) && negb (C_wasInlined C)
    then Nonnull else getNullabilityAnnotation (MD_getReturnType D) in
  let Source :=
    if bool_decide (RetNullability = Nullable)
    then Some (Message_stmt (M_getOriginExpr M))
    else getInstanceReceiver (M_getOriginExpr M) in
  getReceiverNullability M (C_getState C) = Nullable /\
  checkPostObjCMessage M C
  = Returns (transition
               (set_NullabilityMap (C_getState C) ReturnRegion
                  (mkNullabilityState Nullable Source))).
Proof.
  intros Hdecl Hptr Hreg Hsup Hfresh Hself Hrecv Htracked Hsolver RetNullability Source.
  assert (Hrn : getReceiverNullability M (C_getState C) = Nullable).
  { unfold getReceiverNullability. rewrite Hself, Hrecv. simpl.
    unfold trackedValue in Htracked.
    destruct (get_NullabilityMap (C_getState C) SelfRegion) as [TN |];
      simpl in Htracked; [| discriminate].
    injection Htracked as ->.
    rewrite (bool_decide_eq_false_2 _ Hsolver). reflexivity. }
  split; [exact Hrn |].
  unfold checkPostObjCMessage.
  rewrite Hdecl, Hptr, Hreg, Hsup, Hfresh, Hrn. simpl.
  fold RetNullability.
  assert (Hc : getMostNullable RetNullability Nullable = Nullable).
  { assert (Hnc : RetNullability <> Contradicted).
    { subst RetNullability. case_match; [discriminate |].
      unfold getNullabilityAnnotation. repeat case_match; discriminate. }
    destruct RetNullability; try reflexivity. contradiction. }
  rewrite Hc. simpl.
  subst Source.
  destruct (bool_decide (RetNullability = Nullable)) eqn:Hrl.
  - rewrite (bool_decide_eq_true_2 (Nullable = RetNullability));
      [reflexivity | apply bool_decide_eq_true in Hrl; congruence].
  - rewrite (bool_decide_eq_false_2 (Nullable = RetNullability));
      [reflexivity | apply bool_decide_eq_false in Hrl; congruence].
Qed.

Lemma X11_nullable_receiver_witness :
  checkPostObjCMessage Sample.msgToReceiver
    (Sample.contextAt Sample.receiverNullableState Sample.PtrTy)
  = Returns (transition
               (set_NullabilityMap Sample.receiverNullableState Sample.R1
                  (mkNullabilityState Nullable (Some 55%positive)))).
Proof.
  refine (proj2 (X11_nullable_receiver_makes_result_nullable Sample.msgToReceiver
                   (Sample.contextAt Sample.receiverNullableState Sample.PtrTy)
                   (mkObjCMethodDecl Sample.NonnullPtrTy (Some "TestObject"))
                   Sample.R1 Sample.R2 _ _ _ _ _ _ _ _ _));
    try reflexivity; try discriminate.
Defined.

(** X12.  A message whose receiver counts as Nonnull (self or super, or a
    defined receiver proven non-null by the solver), when no heuristic matches and the result
    is a symbolic region that is not tracked yet: the result becomes tracked
    as Nullable, with the message as source, exactly when the return type is
    annotated Nullable and the message is not a property access that was not
    inlined; otherwise nothing happens.  So the read of an unknown property
    is never tracked, even when the property is declared nullable. *)
Theorem X12_nonnull_receiver_follows_return_type
    (M : ObjCMethodCall) (C : CheckerContext) (D : ObjCMethodDecl)
    (ReturnRegion : MemRegion) :
  M_getDecl M = Some D ->
  isAnyPointerType (MD_getReturnType D) = true ->
  getTrackRegion (M_getReturnValue M) false = Some ReturnRegion ->
  isCocoaSuppressed M (ClassInterface_getName D) = false ->
  get_NullabilityMap (C_getState C) ReturnRegion = None ->
  M_isReceiverSelfOrSuper M = true \/
  (M_getReceiverSVal M <> UndefinedVal /\
   getNullConstraint (M_getReceiverSVal M) (C_getState C) = IsNotNull) ->
  getReceiverNullability M (C_getState C) = Nonnull /\
  checkPostObjCMessage M C
  = if bool_decide (getNullabilityAnnotation (MD_getReturnType D) = Nullable) &&
       negb (bool_decide (M_getMessageKind M = OCM_PropertyAccess) &&
             negb (C_wasInlined C))
    then Returns (transition
                    (set_NullabilityMap (C_getState C) ReturnRegion
                       (mkNullabilityState Nullable
                          (Some (Message_stmt (M_getOriginExpr M))))))
    else Returns no_effect.
Proof.
  intros Hdecl Hptr Hreg Hsup Hfresh Hrecv.
  assert (Hrn : getReceiverNullability M (C_getState C) = Nonnull).
  { unfold getReceiverNullability.
    destruct (M_isReceiverSelfOrSuper M); [reflexivity |].
    destruct Hrecv as [Habs | [Hdef Hnn]]; [discriminate |].
    destruct (M_getReceiverSVal M) eqn:Hval; [contradiction | | | | |];
      simpl; rewrite Hnn; reflexivity. }
  split; [exact Hrn |].
  unfold checkPostObjCMessage.
  rewrite Hdecl, Hptr, Hreg, Hsup, Hfresh, Hrn. simpl.
  destruct (bool_decide (M_getMessageKind M = OCM_PropertyAccess) &&
            negb (C_wasInlined C)); simpl.
  - rewrite andb_false_r. reflexivity.
  - rewrite andb_true_r.
    destruct (getNullabilityAnnotation (MD_getReturnType D)) eqn:Hann;
      reflexivity.
Qed.

Lemma X12_nonnull_receiver_witness :
  checkPostObjCMessage Sample.msgProperty
    (Sample.contextAt Sample.emptyState Sample.PtrTy)
  = Returns no_effect.
Proof.
  refine (proj2 (X12_nonnull_receiver_follows_return_type Sample.msgProperty
                   (Sample.contextAt Sample.emptyState Sample.PtrTy)
                   (mkObjCMethodDecl Sample.NullablePtrTy (Some "TestObject"))
                   Sample.R1 _ _ _ _ _ _));
    try reflexivity.
  left. reflexivity.
Defined.

(* ===================================================================== *)
(** ** The bug visitor *)
(* ===================================================================== *)

(** X13.  [VisitNode] emits a piece for its region exactly at a node whose
    state tracks the region while the state of the previous node did not
    track it or tracked it with another value, provided a statement is at
    hand: the source recorded in the entry, or without one the statement of
    the node.  The text of the piece names the tracked value.  A change of
    the recorded source alone emits nothing. *)
Theorem X13_VisitNode_marks_value_changes
    (Region : MemRegion) (N PrevN : VisitedNode) :
  (forall P : PathDiagnosticEventPiece,
     VisitNode Region N PrevN = Some P <->
     exists TN : NullabilityState,
       get_NullabilityMap (VN_getState N) Region = Some TN /\
       trackedValue (VN_getState PrevN) Region <> Some (getValue TN) /\
       (getNullabilitySource TN = Some (Piece_Pos P) \/
        getNullabilitySource TN = None /\ VN_getStmt N = Some (Piece_Pos P)) /\
       Piece_InfoText P
       = String.append "Nullability '"
           (String.append (getNullabilityString (getValue TN)) "' is infered")) /\
  (trackedValue (VN_getState N) Region = trackedValue (VN_getState PrevN) Region ->
   VisitNode Region N PrevN = None).
Proof.
  unfold VisitNode, trackedValue. split.
  - intros [Pos Text]. simpl.
    destruct (get_NullabilityMap (VN_getState N) Region) as [TN |] eqn:Hget.
    2:{ split; [discriminate | intros [TN [H _]]; discriminate]. }
    destruct (get_NullabilityMap (VN_getState PrevN) Region) as [Prev |] eqn:Hprev;
      simpl.
    + destruct (bool_decide (getValue Prev = getValue TN)) eqn:Hsame.
      * apply bool_decide_eq_true in Hsame. split; [discriminate |].
        intros [TN' [H [Hne _]]]. injection H as <-. exfalso. apply Hne. congruence.
      * apply bool_decide_eq_false in Hsame.
        destruct (getNullabilitySource TN) as [Src |] eqn:Hsrc.
        -- split.
           ++ intros H. injection H as <- <-. exists TN.
              split; [reflexivity |]. split; [congruence |].
              split; [left; exact Hsrc | reflexivity].
           ++ intros [TN' [H [_ [Hpos Htext]]]]. injection H as <-.
              rewrite Hsrc in Hpos.
              destruct Hpos as [Hp | [Hp _]]; [| discriminate].
              injection Hp as ->. rewrite Htext. reflexivity.
        -- destruct (VN_getStmt N) as [St |] eqn:Hst.
           ++ split.
              ** intros H. injection H as <- <-. exists TN.
                 split; [reflexivity |]. split; [congruence |].
                 split; [right; split; [exact Hsrc | reflexivity] | reflexivity].
              ** intros [TN' [H [_ [Hpos Htext]]]]. injection H as <-.
                 rewrite Hsrc in Hpos.
                 destruct Hpos as [Hp | [_ Hp]]; [discriminate |].
                 injection Hp as ->. rewrite Htext. reflexivity.
           ++ split; [discriminate |].
              intros [TN' [H [_ [Hpos _]]]]. injection H as <-.
              rewrite Hsrc in Hpos.
              destruct Hpos as [Hp | [_ Hp]]; discriminate.
    + destruct (getNullabilitySource TN) as [Src |] eqn:Hsrc.
      * split.
        -- intros H. injection H as <- <-. exists TN.
           split; [reflexivity |]. split; [discriminate |].
           split; [left; exact Hsrc | reflexivity].
        -- intros [TN' [H [_ [Hpos Htext]]]]. injection H as <-.
           rewrite Hsrc in Hpos.
           destruct Hpos as [Hp | [Hp _]]; [| discriminate].
           injection Hp as ->. rewrite Htext. reflexivity.
      * destruct (VN_getStmt N) as [St |] eqn:Hst.
        -- split.
           ++ intros H. injection H as <- <-. exists TN.
              split; [reflexivity |]. split; [discriminate |].
              split; [right; split; [exact Hsrc | reflexivity] | reflexivity].
           ++ intros [TN' [H [_ [Hpos Htext]]]]. injection H as <-.
              rewrite Hsrc in Hpos.
              destruct Hpos as [Hp | [_ Hp]]; [discriminate |].
              injection Hp as ->. rewrite Htext. reflexivity.
        -- split; [discriminate |].
           intros [TN' [H [_ [Hpos _]]]]. injection H as <-.
           rewrite Hsrc in Hpos.
           destruct Hpos as [Hp | [_ Hp]]; discriminate.
  - intros Hsame.
    destruct (get_NullabilityMap (VN_getState N) Region) as [TN |]; [| reflexivity].
    destruct (get_NullabilityMap (VN_getState PrevN) Region) as [Prev |];
      simpl in Hsame; [| discriminate].
    injection Hsame as Hsame.
    rewrite (bool_decide_eq_true_2 (getValue Prev = getValue TN)) by congruence.
    reflexivity.
Qed.

Lemma X13_VisitNode_witness :
  VisitNode Sample.R1 Sample.nodeAfter Sample.nodeAfter = None.
Proof.
  refine (proj2 (X13_VisitNode_marks_value_changes Sample.R1 Sample.nodeAfter
                   Sample.nodeAfter) _).
  reflexivity.
Defined.

(** The node at which [R1] became nullable, with no source recorded: the
    piece is located at the statement of that node. *)
Example VisitNode_first_inference :
  VisitNode Sample.R1 Sample.nodeAfter Sample.nodeBefore
  = Some (mkPiece 70%positive "Nullability 'nullable' is infered").
Proof. vm_compute. reflexivity. Qed.

(** A location tracked as Contradicted stays so in every later state. *)
Lemma later_keeps_contradicted (Filter : NullabilityChecksFilter)
    (State State' : ProgramState) (Region : MemRegion) :
  later Filter State State' ->
  trackedValue State Region = Some Contradicted ->
  trackedValue State' Region = Some Contradicted.
Proof.
  intros Hlater Htracked.
  induction Hlater as [| S1 isNull' Hl IH | C ev S1 Hl IH Hrule Hin].
  - exact Htracked.
  - exact IH.
  - apply (handle_keeps_contradicted Filter ev C Region S1 IH). left. exact Hin.
Qed.

(** X14.  Once a location is tracked as Contradicted, the visitor of its
    region emits no piece between any two later states of the path: the
    trail of a report never points past a contradiction. *)
Theorem X14_no_piece_after_contradiction
    (Filter : NullabilityChecksFilter) (State StatePrev StateCur : ProgramState)
    (Region : MemRegion) (StmtPrev StmtCur : option Stmt) :
  trackedValue State Region = Some Contradicted ->
  later Filter State StatePrev ->
  later Filter State StateCur ->
  VisitNode Region (mkVisitedNode StateCur StmtCur)
    (mkVisitedNode StatePrev StmtPrev) = None.
Proof.
  intros Htracked Hprev Hcur.
  pose proof (later_keeps_contradicted _ _ _ _ Hprev Htracked) as Hp.
  pose proof (later_keeps_contradicted _ _ _ _ Hcur Htracked) as Hc.
  unfold VisitNode, trackedValue in *. simpl.
  destruct (get_NullabilityMap StateCur Region) as [TN |]; [| reflexivity].
  destruct (get_NullabilityMap StatePrev Region) as [Prev |];
    simpl in *; [| discriminate].
  rewrite (bool_decide_eq_true_2 (getValue Prev = getValue TN)) by congruence.
  reflexivity.
Qed.

Lemma X14_no_piece_witness :
  VisitNode Sample.R1
    (mkVisitedNode
       (set_NullabilityMap Sample.contradictedNullState Sample.R1
          (NullabilityState_of Contradicted))
       (Some 71%positive))
    (mkVisitedNode Sample.contradictedNullState (Some 70%positive))
  = None.
Proof.
  apply (X14_no_piece_after_contradiction Sample.allChecks
           Sample.contradictedNullState).
  - vm_compute. reflexivity.
  - apply later_now.
  - apply (later_step Sample.allChecks Sample.contradictedNullState
             (Sample.contextAt Sample.contradictedNullState Sample.PtrTy)
             (OnExplicitCast Sample.castToNonnull)).
    + apply later_now.
    + reflexivity.
    + left. reflexivity.
Defined.

(* ===================================================================== *)
(** ** The state dump, the messages and the equality of entries *)
(* ===================================================================== *)

Lemma string_append_assoc (a b c : string) :
  String.append (String.append a b) c = String.append a (String.append b c).
Proof.
  induction a as [| ch a IH]; [reflexivity |].
  change (String ch (String.append (String.append a b) c)
          = String ch (String.append a (String.append b c))).
  rewrite IH. reflexivity.
Qed.

Lemma string_append_nil_r (a : string) : String.append a EmptyString = a.
Proof.
  induction a as [| ch a IH]; [reflexivity |].
  change (String ch (String.append a EmptyString) = String ch a).
  rewrite IH. reflexivity.
Qed.

Lemma string_append_empty (a b : string) :
  String.append a b = EmptyString -> a = EmptyString /\ b = EmptyString.
Proof.
  destruct a as [| ch a]; intros H.
  - split; [reflexivity | exact H].
  - change (String ch (String.append a b) = EmptyString) in H. discriminate.
Qed.

(** The loop of [printState] appends to what was written before. *)
Lemma printState_fold_appends (printRegion : MemRegion -> string) (NL : string)
    (l : list (MemRegion * NullabilityState)) :
  forall Out : string,
    exists Lines : string,
      fold_left
        (fun (Out : string) (I : MemRegion * NullabilityState) =>
           String.append Out
             (String.append (printRegion I.1)
                (String.append " : "
                   (String.append (NullabilityState_print I.2) NL))))
        l Out
      = String.append Out Lines /\
      (l <> [] -> Lines <> EmptyString).
Proof.
  induction l as [| [K V] l IH]; intros Out; cbn [fold_left].
  - exists EmptyString. split; [| intros H; exfalso; apply H; reflexivity].
    rewrite string_append_nil_r. reflexivity.
  - destruct (IH (String.append Out
                    (String.append (printRegion (K, V).1)
                       (String.append " : "
                          (String.append (NullabilityState_print (K, V).2) NL)))))
      as [Lines [HL _]].
    rewrite HL, string_append_assoc.
    eexists. split; [reflexivity |].
    intros _ Habs.
    apply string_append_empty in Habs. destruct Habs as [Ha _].
    apply string_append_empty in Ha. destruct Ha as [_ Hb].
    apply string_append_empty in Hb. destruct Hb as [Hc _].
    discriminate Hc.
Qed.

(** X15.  [printState] writes nothing when no location is tracked.
    Otherwise it writes the separator and the line end and then at least one
    line; for a map with the one entry of a region, that line is the region,
    " : ", the name of its value, a line feed and the line end. *)
Theorem X15_printState_output
    (printRegion : MemRegion -> string) (State : ProgramState) (NL Sep : string) :
  (NullabilityMap State = ∅ -> printState printRegion State NL Sep = EmptyString) /\
  (NullabilityMap State <> ∅ ->
   exists Lines : string,
     printState printRegion State NL Sep
     = String.append (String.append Sep NL) Lines /\
     Lines <> EmptyString) /\
  (forall Region NS,
     NullabilityMap State = {[ Region := NS ]} ->
     printState printRegion State NL Sep
     = String.append (String.append Sep NL)
         (String.append (printRegion Region)
            (String.append " : "
               (String.append
                  (String.append (getNullabilityString (getValue NS)) newline)
                  NL)))).
Proof.
  unfold printState. split; [| split].
  - intros ->. reflexivity.
  - intros Hne. rewrite (bool_decide_eq_false_2 _ Hne).
    destruct (printState_fold_appends printRegion NL
                (map_to_list (NullabilityMap State)) (String.append Sep NL))
      as [Lines [HL Hnonempty]].
    exists Lines. split; [exact HL |].
    apply Hnonempty. intros Hnil. apply Hne.
    apply map_to_list_empty_iff. exact Hnil.
  - intros Region NS ->.
    rewrite bool_decide_eq_false_2 by apply insert_non_empty.
    rewrite map_to_list_singleton. reflexivity.
Qed.

Lemma X15_printState_witness :
  printState (fun _ => "r") Sample.emptyState "|" "--" = EmptyString.
Proof.
  refine (proj1 (X15_printState_output (fun _ => "r") Sample.emptyState "|" "--") _).
  reflexivity.
Defined.

(** X16.  The message of a report determines its kind, and the name of a
    nullability determines the value: the seven messages are pairwise
    distinct, and so are the four names. *)
Theorem X16_messages_and_names_are_distinct :
  (forall a b : ErrorKind, ErrorMessages a = ErrorMessages b -> a = b) /\
  (forall a b : Nullability,
     getNullabilityString a = getNullabilityString b -> a = b).
Proof.
  split; intros a b; destruct a, b; try reflexivity;
    intros H; exfalso; revert H; apply String.eqb_neq; vm_compute; reflexivity.
Qed.

(** X17.  [operator==] on [NullabilityState] holds exactly for entries with
    the same value and the same source, and two entries have the same
    [Profile] exactly when [operator==] holds: the identity the folding set
    computes agrees with the equality. *)
Theorem X17_equality_and_profile (Lhs Rhs : NullabilityState) :
  (NullabilityState_equal Lhs Rhs = true <-> Lhs = Rhs) /\
  (NullabilityState_Profile Lhs = NullabilityState_Profile Rhs <->
   NullabilityState_equal Lhs Rhs = true).
Proof.
  assert (Heq : NullabilityState_equal Lhs Rhs = true <-> Lhs = Rhs).
  { unfold NullabilityState_equal. destruct Lhs as [v1 s1], Rhs as [v2 s2]; simpl.
    rewrite andb_true_iff, !bool_decide_eq_true. split.
    - intros [-> ->]. reflexivity.
    - intros H. injection H as -> ->. split; reflexivity. }
  split; [exact Heq |].
  rewrite Heq. unfold NullabilityState_Profile.
  destruct Lhs as [v1 s1], Rhs as [v2 s2]; simpl. split.
  - intros H. injection H as Hv ->.
    destruct v1, v2; simpl in Hv; try discriminate; reflexivity.
  - intros H. injection H as -> ->. reflexivity.
Qed.

(* ===================================================================== *)
(** ** The loop of the call-argument check and the faulty reads *)
(* ===================================================================== *)

(** X18.  The loop of [checkPreCall] stops at a parameter pack: the
    parameters after it are not looked at, so none of their arguments is
    reported or starts to be tracked. *)
Theorem X18_parameter_pack_stops_the_loop
    (Filter : NullabilityChecksFilter) (Call : CallEvent) (State : ProgramState)
    (Idx : nat) (Pre Rest : list ParmVarDecl) (Pack : ParmVarDecl) :
  isParameterPack Pack = true ->
  checkPreCall_loop Filter Call State Idx (Pre ++ Pack :: Rest)
  = match checkPreCall_loop Filter Call State Idx Pre with
    | LoopContinue State' => LoopBreak State'
    | Other => Other
    end.
Proof.
  intros Hpack. rewrite checkPreCall_loop_app.
  destruct (checkPreCall_loop Filter Call State Idx Pre); try reflexivity.
  simpl. unfold checkPreCall_body. rewrite Hpack. reflexivity.
Qed.

Lemma X18_parameter_pack_witness :
  checkPreCall_loop Sample.allChecks Sample.callTakesNonnull Sample.nullableState 0
    ([] ++ mkParmVarDecl true Sample.PtrTy "rest" :: [Sample.nonnullParam])
  = LoopBreak Sample.nullableState.
Proof.
  apply (X18_parameter_pack_stops_the_loop Sample.allChecks Sample.callTakesNonnull
           Sample.nullableState 0 [] [Sample.nonnullParam]
           (mkParmVarDecl true Sample.PtrTy "rest")).
  reflexivity.
Defined.

(** X19.  For a call that passes an argument expression for each parameter
    of its callee, [checkPreCall] performs no faulty read: it returns. *)
Theorem X19_checkPreCall_returns_with_all_arguments
    (Filter : NullabilityChecksFilter) (Call : CallEvent) (C : CheckerContext) :
  (forall i, (i < getNumArgs Call)%nat -> is_Some (getArgExpr Call i)) ->
  (length (parameters Call) <= getNumArgs Call)%nat ->
  exists e : Effects, checkPreCall Filter Call C = Returns e.
Proof.
  intros Hargs Hlen. unfold checkPreCall.
  destruct (getDecl Call); [| eexists; reflexivity].
  pose proof (fun f => checkPreCall_loop_no_fault Filter Call (parameters Call) f
                         Hargs (C_getState C) 0%nat Hlen) as Hnf.
  destruct (checkPreCall_loop Filter Call (C_getState C) 0 (parameters Call))
    as [S1 | S1 | e | f].
  - case_match; eexists; reflexivity.
  - case_match; eexists; reflexivity.
  - eexists; reflexivity.
  - exfalso. apply (Hnf f). reflexivity.
Qed.

Lemma X19_checkPreCall_returns_witness :
  exists e : Effects,
    checkPreCall Sample.allChecks Sample.callTakesNonnull
      (Sample.contextAt Sample.nullableState Sample.PtrTy)
    = Returns e.
Proof.
  apply (X19_checkPreCall_returns_with_all_arguments Sample.allChecks
           Sample.callTakesNonnull
           (Sample.contextAt Sample.nullableState Sample.PtrTy)).
  - intros i _. eexists. reflexivity.
  - simpl. lia.
Defined.

(** X20.  [checkPostStmt] performs its unchecked read of the [Optional]
    exactly for a cast between pointer types whose destination type carries a
    nullability annotation and whose value is undefined; in every other case
    it returns. *)
Theorem X20_checkPostStmt_faulty_read
    (CE : ExplicitCastExpr) (C : CheckerContext) (f : Fault) :
  checkPostStmt CE C = Faults f <->
  f = EmptyOptionalAccess /\
  isAnyPointerType (Expr_getType (CE_getSubExpr CE)) = true /\
  isAnyPointerType (CE_getType CE) = true /\
  getNullabilityAnnotation (CE_getType CE) <> Unspecified /\
  C_getSVal C (CE_stmt CE) = UndefinedVal.
Proof.
  unfold checkPostStmt. split.
  - destruct (isAnyPointerType (Expr_getType (CE_getSubExpr CE))); simpl;
      [| discriminate].
    destruct (isAnyPointerType (CE_getType CE)); simpl; [| discriminate].
    destruct (bool_decide (getNullabilityAnnotation (CE_getType CE) = Unspecified))
      eqn:Hann; [discriminate |].
    apply bool_decide_eq_false in Hann.
    destruct (C_getSVal C (CE_stmt CE)) eqn:Hval; simpl;
      try (repeat case_match; discriminate).
    intros H. injection H as <-. repeat split; assumption.
  - intros [-> [-> [-> [Hann ->]]]]. simpl.
    rewrite (bool_decide_eq_false_2 _ Hann). reflexivity.
Qed.

(** X21.  The call return, the explicit cast, the message result and the
    sweep never report and never add a sink: whatever they do, they do to the
    map. *)
Theorem X21_silent_callbacks
    (Filter : NullabilityChecksFilter) (ev : CheckerEvent) (C : CheckerContext)
    (e : Effects) :
  match ev with
  | OnPostCall _ | OnExplicitCast _ | OnObjCMessage _ | OnDeadSymbols _ => True
  | _ => False
  end ->
  handle Filter ev C = Returns e ->
  reports e = [] /\ forall N, In N (nodes e) -> isSink N = false.
Proof.
  intros Hev Hrun.
  pose proof (handle_shape Filter ev C e Hrun) as [_ [_ [_ Hsink]]].
  destruct ev; try contradiction; simpl in Hrun; (split; [| exact Hsink]).
  - exact (checkPostCall_reports _ _ _ Hrun).
  - exact (checkPostStmt_reports _ _ _ Hrun).
  - exact (checkPostObjCMessage_reports _ _ _ Hrun).
  - unfold checkDeadSymbols in Hrun. injection Hrun as <-. reflexivity.
Qed.

Lemma X21_silent_callbacks_witness :
  reports (transition
             (set_NullabilityMap Sample.nullableState Sample.R1
                (NullabilityState_of Contradicted))) = [].
Proof.
  refine (proj1 (X21_silent_callbacks Sample.allChecks
                   (OnExplicitCast Sample.castToNonnull)
                   (Sample.contextAt Sample.nullableState Sample.PtrTy) _ I _)).
  reflexivity.
Defined.

(* ===================================================================== *)
(** ** The call-argument check: null values and new entries *)
(* ===================================================================== *)

(** X22.  In a pre-call event for a callee with a declaration, at a
    parameter the loop reaches that is not a pack, has pointer or reference
    type and is annotated Nonnull, with the argument expression present and
    the selector CheckNullPassedToNonnull enabled: when the solver has proven
    the argument null and the static type of the argument expression is not
    annotated Nonnull, the callback reports null-passed-to-nonnull on a sink,
    citing the argument and asking for the null value to be tracked back, and
    the path ends.  When the static type of the argument expression is
    annotated Nonnull, as after an explicit cast, and the value is no region,
    the argument is passed over without a report. *)
Theorem X22_null_argument_is_fatal
    (Filter : NullabilityChecksFilter) (Call : CallEvent) (C : CheckerContext)
    (D : Decl) (Pre Rest : list ParmVarDecl) (Param : ParmVarDecl)
    (State : ProgramState) (ArgE : Expr) (ArgSVal : SVal) :
  getDecl Call = Some D ->
  parameters Call = Pre ++ Param :: Rest ->
  checkPreCall_loop Filter Call (C_getState C) 0 Pre = LoopContinue State ->
  isParameterPack Param = false ->
  (length Pre < getNumArgs Call)%nat ->
  getArgExpr Call (length Pre) = Some ArgE ->
  getAs_DefinedOrUnknownSVal (getArgSVal Call (length Pre)) = Some ArgSVal ->
  isAnyPointerType (Param_getType Param) || isReferenceType (Param_getType Param) = true ->
  getNullabilityAnnotation (Param_getType Param) = Nonnull ->
  CheckNullPassedToNonnull Filter = true ->
  getNullConstraint ArgSVal (C_getState C) = IsNull ->
  (getNullabilityAnnotation (Expr_getType ArgE) <> Nonnull ->
   let N := generateSink State "NullPassedToNonnull" in
   let r := reportBug NilPassedToNonnull N None (Some (Expr_stmt ArgE)) in
   checkPreCall Filter Call C = Returns (report_at N r) /\
   resultingStates (C_getState C) (report_at N r) = [] /\
   report_trackNullOrUndefValue r = true) /\
  (getNullabilityAnnotation (Expr_getType ArgE) = Nonnull ->
   getTrackRegion ArgSVal false = None ->
   checkPreCall_loop Filter Call (C_getState C) 0 (parameters Call)
   = checkPreCall_loop Filter Call State (S (length Pre)) Rest).
Proof.
  intros Hdecl Hparams Hpre Hpack Hidx Hexpr Hval Hty Hann Hsel Hnull.
  destruct (checkPreCall_loop_keeps _ _ _ _ _ _ Hpre) as [Hsolver _].
  pose proof (getNullConstraint_ext ArgSVal _ _ Hsolver) as Hcons.
  assert (Hlt : (length Pre <? getNumArgs Call)%nat = true)
    by (apply Nat.ltb_lt; exact Hidx).
  assert (Hskip : negb (isAnyPointerType (Param_getType Param)) &&
                  negb (isReferenceType (Param_getType Param)) = false).
  { apply orb_true_iff in Hty. destruct Hty as [-> | ->]; simpl;
      rewrite ?andb_false_r; reflexivity. }
  assert (Hloop : checkPreCall_loop Filter Call (C_getState C) 0 (parameters Call)
                  = match checkPreCall_body Filter Call State (length Pre) Param with
                    | LoopContinue State' =>
                        checkPreCall_loop Filter Call State' (S (length Pre)) Rest
                    | Other => Other
                    end).
  { rewrite Hparams, checkPreCall_loop_app, Hpre. reflexivity. }
  split.
  - intros Hstatic N r. split; [| split; reflexivity].
    unfold checkPreCall. rewrite Hdecl, Hloop.
    unfold checkPreCall_body.
    rewrite Hpack, Hlt, Hexpr, Hval, Hskip, Hcons, Hnull, Hann, Hsel.
    rewrite (bool_decide_eq_true_2 _ Hstatic). reflexivity.
  - intros Hstatic Hnoregion. rewrite Hloop.
    unfold checkPreCall_body.
    rewrite Hpack, Hlt, Hexpr, Hval, Hskip, Hstatic, Hnoregion.
    rewrite (bool_decide_eq_false_2 (Nonnull <> Nonnull))
      by (intros H; apply H; reflexivity).
    rewrite !andb_false_r. reflexivity.
Qed.

Lemma X22_null_argument_witness :
  checkPreCall Sample.allChecks Sample.callTakesNonnull
    (Sample.contextAt Sample.nullableNullState Sample.PtrTy)
  = Returns
      (report_at (generateSink Sample.nullableNullState "NullPassedToNonnull")
         (reportBug NilPassedToNonnull
            (generateSink Sample.nullableNullState "NullPassedToNonnull")
            None (Some (Expr_stmt Sample.argP)))).
Proof.
  refine (proj1 (proj1
    (X22_null_argument_is_fatal Sample.allChecks Sample.callTakesNonnull
       (Sample.contextAt Sample.nullableNullState Sample.PtrTy)
       Sample.takesNonnullDecl [] [] Sample.nonnullParam Sample.nullableNullState
       Sample.argP (loc_MemRegionVal Sample.R1)
       _ _ _ _ _ _ _ _ _ _ _) _));
    try reflexivity; try (simpl; lia); discriminate.
Defined.

(** X23.  At a parameter the loop reaches that is not a pack and has pointer
    or reference type, with the argument expression present: when the
    argument resolves to a symbolic region that is not tracked, the static
    type of the argument expression is annotated Nullable, and the rule for
    null values does not fire, the loop starts to track the region as
    Nullable with the argument expression as source and goes on to the next
    parameter; nothing is reported for the argument.  When this was the last
    parameter, the callback adds a transition to the new state. *)
Theorem X23_nullable_argument_starts_tracking
    (Filter : NullabilityChecksFilter) (Call : CallEvent) (C : CheckerContext)
    (D : Decl) (Pre Rest : list ParmVarDecl) (Param : ParmVarDecl)
    (State : ProgramState) (ArgE : Expr) (ArgSVal : SVal) (Region : MemRegion) :
  getDecl Call = Some D ->
  parameters Call = Pre ++ Param :: Rest ->
  checkPreCall_loop Filter Call (C_getState C) 0 Pre = LoopContinue State ->
  isParameterPack Param = false ->
  (length Pre < getNumArgs Call)%nat ->
  getArgExpr Call (length Pre) = Some ArgE ->
  getAs_DefinedOrUnknownSVal (getArgSVal Call (length Pre)) = Some ArgSVal ->
  isAnyPointerType (Param_getType Param) || isReferenceType (Param_getType Param) = true ->
  getTrackRegion ArgSVal false = Some Region ->
  get_NullabilityMap State Region = None ->
  getNullabilityAnnotation (Expr_getType ArgE) = Nullable ->
  CheckNullPassedToNonnull Filter &&
  bool_decide (getNullConstraint ArgSVal (C_getState C) = IsNull) &&
  bool_decide (getNullabilityAnnotation (Param_getType Param) = Nonnull) = false ->
  let State' := set_NullabilityMap State Region
                  (mkNullabilityState Nullable (Some (Expr_stmt ArgE))) in
  checkPreCall_loop Filter Call (C_getState C) 0 (parameters Call)
  = checkPreCall_loop Filter Call State' (S (length Pre)) Rest /\
  (Rest = [] -> checkPreCall Filter Call C = Returns (transition State')).
Proof.
  intros Hdecl Hparams Hpre Hpack Hidx Hexpr Hval Hty Hreg Hfresh Hstatic Hnil State'.
  destruct (checkPreCall_loop_keeps _ _ _ _ _ _ Hpre) as [Hsolver Hkeeps].
  pose proof (getNullConstraint_ext ArgSVal _ _ Hsolver) as Hcons.
  assert (Hlt : (length Pre <? getNumArgs Call)%nat = true)
    by (apply Nat.ltb_lt; exact Hidx).
  assert (Hskip : negb (isAnyPointerType (Param_getType Param)) &&
                  negb (isReferenceType (Param_getType Param)) = false).
  { apply orb_true_iff in Hty. destruct Hty as [-> | ->]; simpl;
      rewrite ?andb_false_r; reflexivity. }
  assert (Hbody : checkPreCall_body Filter Call State (length Pre) Param
                  = LoopContinue State').
  { unfold checkPreCall_body.
    rewrite Hpack, Hlt, Hexpr, Hval, Hskip, Hcons, Hreg, Hfresh, Hstatic.
    rewrite (bool_decide_eq_true_2 (Nullable <> Nonnull)) by discriminate.
    rewrite andb_true_r, Hnil.
    rewrite (bool_decide_eq_false_2 (Nullable <> Nullable))
      by (intros H; apply H; reflexivity).
    reflexivity. }
  assert (Hloop : checkPreCall_loop Filter Call (C_getState C) 0 (parameters Call)
                  = checkPreCall_loop Filter Call State' (S (length Pre)) Rest).
  { rewrite Hparams, checkPreCall_loop_app, Hpre. simpl. rewrite Hbody. reflexivity. }
  split; [exact Hloop |].
  intros ->. unfold checkPreCall. rewrite Hdecl, Hloop. simpl.
  rewrite bool_decide_eq_true_2; [reflexivity |].
  intros Heq.
  assert (Hnone : get_NullabilityMap (C_getState C) Region = None).
  { destruct (get_NullabilityMap (C_getState C) Region) as [NS |] eqn:Hget;
      [| reflexivity].
    rewrite (Hkeeps _ _ Hget) in Hfresh. discriminate. }
  unfold get_NullabilityMap in Hnone. rewrite <- Heq in Hnone.
  rewrite lookup_insert_eq in Hnone. discriminate.
Qed.

Lemma X23_nullable_argument_witness :
  checkPreCall Sample.allChecks
    (mkCallEvent (Some Sample.takesNonnullDecl) CE_Function
       [mkParmVarDecl false Sample.PtrTy "a"] 1
       (fun _ => Some Sample.argX) (fun _ => loc_MemRegionVal Sample.R1) UnknownVal)
    (Sample.contextAt Sample.emptyState Sample.PtrTy)
  = Returns (transition
               (set_NullabilityMap Sample.emptyState Sample.R1
                  (mkNullabilityState Nullable (Some (Expr_stmt Sample.argX))))).
Proof.
  refine (proj2
    (X23_nullable_argument_starts_tracking Sample.allChecks _
       (Sample.contextAt Sample.emptyState Sample.PtrTy)
       Sample.takesNonnullDecl [] [] (mkParmVarDecl false Sample.PtrTy "a")
       Sample.emptyState Sample.argX (loc_MemRegionVal Sample.R1) Sample.R1
       _ _ _ _ _ _ _ _ _ _ _ _) _);
    try reflexivity; simpl; lia.
Defined.

(** [f(x, x)] with [x] declared [_Nullable] and not tracked yet: the first
    argument starts the tracking, and the second, passed to a [_Nonnull]
    parameter, is reported in the same call. *)
Example checkPreCall_tracks_then_reports :
  let State' := set_NullabilityMap Sample.emptyState Sample.R1
                  (mkNullabilityState Nullable (Some (Expr_stmt Sample.argX))) in
  checkPreCall Sample.allChecks Sample.callTwice
    (Sample.contextAt Sample.emptyState Sample.PtrTy)
  = Returns
      (report_at (generateSink State' "NullablePassedToNonnull")
         (reportBug NullablePassedToNonnull
            (generateSink State' "NullablePassedToNonnull")
            (Some Sample.R1) (Some (Expr_stmt Sample.argX)))).
Proof. vm_compute. reflexivity. Qed.

(* ===================================================================== *)
(** ** The bind and the return statement on tracked and untracked values *)
(* ===================================================================== *)



(** X25.  A bind, into a typed location of pointer type, of a value that
    resolves to a symbolic region not tracked yet, when the rule for null
    values does not fire: if the type of the value's symbol is annotated
    Nullable the region becomes tracked as Nullable with the right operand
    of the assignment as source; otherwise, if the type of the destination is
    annotated Nullable, it becomes tracked as Nullable with the left operand
    as source; otherwise nothing happens.  The statement of the bind is the
    source when it is no binary operator.  Nothing is reported. *)
Theorem X25_bind_starts_tracking
    (Filter : NullabilityChecksFilter) (L V : SVal) (S : BindStmt)
    (C : CheckerContext) (LocType : QualType) (Sym : SymbolRef) :
  TypedValueRegion_getValueType (getAsRegion L) = Some LocType ->
  isAnyPointerType LocType = true ->
  V = loc_MemRegionVal (SymbolicRegion Sym) ->
  get_NullabilityMap (C_getState C) (SymbolicRegion Sym) = None ->
  CheckNullPassedToNonnull Filter &&
  bool_decide (getNullConstraint V (C_getState C) = IsNull) &&
  bool_decide (getNullabilityAnnotation (Sym_getType Sym) <> Nonnull) &&
  bool_decide (getNullabilityAnnotation LocType = Nonnull) = false ->
  checkBind Filter L V S C
  = if bool_decide (getNullabilityAnnotation (Sym_getType Sym) = Nullable) then
      Returns (transition
                 (set_NullabilityMap (C_getState C) (SymbolicRegion Sym)
                    (mkNullabilityState Nullable
                       (Some (match dyn_cast_BinaryOperator S with
                              | Some B => getRHS B
                              | None => Bind_stmt S
                              end)))))
    else if bool_decide (getNullabilityAnnotation LocType = Nullable) then
      Returns (transition
                 (set_NullabilityMap (C_getState C) (SymbolicRegion Sym)
                    (mkNullabilityState Nullable
                       (Some (match dyn_cast_BinaryOperator S with
                              | Some B => getLHS B
                              | None => Bind_stmt S
                              end)))))
    else Returns no_effect.
Proof.
  intros Hloc Hptr -> Hfresh Hnil.
  unfold checkBind. rewrite Hloc, Hptr. simpl.
  simpl in Hnil. rewrite Hnil, Hfresh.
  destruct (bool_decide (getNullabilityAnnotation (Sym_getType Sym) = Nullable))
    eqn:Hv.
  - apply bool_decide_eq_true in Hv. rewrite Hv. reflexivity.
  - destruct (bool_decide (getNullabilityAnnotation LocType = Nullable)) eqn:Hl.
    + apply bool_decide_eq_true in Hl. rewrite Hl. reflexivity.
    + reflexivity.
Qed.

Lemma X25_bind_starts_tracking_witness :
  checkBind Sample.allChecks Sample.varP (loc_MemRegionVal Sample.R3)
    Sample.assignStmt (Sample.contextAt Sample.emptyState Sample.PtrTy)
  = Returns (transition
               (set_NullabilityMap Sample.emptyState Sample.R3
                  (mkNullabilityState Nullable (Some 32%positive)))).
Proof.
  refine (X25_bind_starts_tracking Sample.allChecks Sample.varP
            (loc_MemRegionVal Sample.R3) Sample.assignStmt
            (Sample.contextAt Sample.emptyState Sample.PtrTy)
            Sample.PtrTy (mkSymbol 3 Sample.NullablePtrTy) _ _ _ _ _);
    reflexivity.
Defined.

(** X26.  A return statement with a pointer-typed operand whose value
    resolves to a symbolic region, in a routine with a known function type,
    when the rule for null values does not fire.  If the region is tracked,
    the map is not changed, and nullable-returned-to-nonnull is reported,
    naming the region and on a node that is no sink, exactly when the region
    is tracked as Nullable, the solver has not proven the value non-null, the
    return type is annotated Nonnull and the selector
    CheckNullableReturnedFromNonnull is enabled.  If the region is not
    tracked, it becomes tracked as Nullable with the return statement as
    source exactly when the return type is annotated Nullable. *)
Theorem X26_return_of_region
    (Filter : NullabilityChecksFilter) (S : ReturnStmt) (C : CheckerContext)
    (RetExpr : Expr) (RetSVal : SVal) (FuncType : FunctionType)
    (Region : MemRegion) :
  getRetValue S = Some RetExpr ->
  isAnyPointerType (Expr_getType RetExpr) = true ->
  getAs_DefinedOrUnknownSVal (C_getSVal C (Return_stmt S)) = Some RetSVal ->
  C_getFunctionType C = Some FuncType ->
  getTrackRegion RetSVal false = Some Region ->
  CheckNullReturnedFromNonnull Filter &&
  bool_decide (getNullConstraint RetSVal (C_getState C) = IsNull) &&
  bool_decide (getNullabilityAnnotation (getReturnType FuncType) = Nonnull) = false ->
  let N := addTransitionTagged (C_getState C) "NullableReturnedFromNonnull" in
  checkPreStmt Filter S C
  = match get_NullabilityMap (C_getState C) Region with
    | Some TN =>
        if CheckNullableReturnedFromNonnull Filter &&
           bool_decide (getNullConstraint RetSVal (C_getState C) <> IsNotNull) &&
           bool_decide (getValue TN = Nullable) &&
           bool_decide (getNullabilityAnnotation (getReturnType FuncType) = Nonnull)
        then Returns (report_at N
                        (reportBug NullableReturnedToNonnull N (Some Region) None))
        else Returns no_effect
    | None =>
        if bool_decide (getNullabilityAnnotation (getReturnType FuncType) = Nullable)
        then Returns (transition
                        (set_NullabilityMap (C_getState C) Region
                           (mkNullabilityState Nullable (Some (Return_stmt S)))))
        else Returns no_effect
    end.
Proof.
  intros Hret Hptr Hval Hfun Hreg Hnil N.
  unfold checkPreStmt.
  rewrite Hret, Hptr, Hval, Hfun, Hnil, Hreg. simpl.
  destruct (get_NullabilityMap (C_getState C) Region) as [TN |]; [reflexivity |].
  destruct (bool_decide (getNullabilityAnnotation (getReturnType FuncType) = Nullable))
    eqn:Hn; [| reflexivity].
  apply bool_decide_eq_true in Hn. rewrite Hn. reflexivity.
Qed.

Lemma X26_return_of_region_witness :
  checkPreStmt Sample.allChecks Sample.returnP
    (Sample.contextAt Sample.nullableState Sample.NonnullPtrTy)
  = Returns
      (report_at
         (addTransitionTagged Sample.nullableState "NullableReturnedFromNonnull")
         (reportBug NullableReturnedToNonnull
            (addTransitionTagged Sample.nullableState "NullableReturnedFromNonnull")
            (Some Sample.R1) None)).
Proof.
  refine (X26_return_of_region Sample.allChecks Sample.returnP
            (Sample.contextAt Sample.nullableState Sample.NonnullPtrTy)
            (mkExpr 21%positive Sample.PtrTy) (loc_MemRegionVal Sample.R1)
            (mkFunctionType Sample.NonnullPtrTy) Sample.R1 _ _ _ _ _ _);
    reflexivity.
Defined.

(* ===================================================================== *)
(** ** Values proven non-null, and where contradictions come from *)
(* ===================================================================== *)

Lemma checkPreCall_body_proven_nonnull (Filter : NullabilityChecksFilter)
    (Call : CallEvent) (State : ProgramState) (Idx : nat) (Param : ParmVarDecl)
    (e : Effects) :
  getNullConstraint (getArgSVal Call Idx) State = IsNotNull ->
  checkPreCall_body Filter Call State Idx Param <> LoopReturn e.
Proof.
  intros Hnn. unfold checkPreCall_body.
  destruct (getArgSVal Call Idx) eqn:Hval; simpl;
    rewrite ?Hnn; simpl; rewrite ?andb_false_r; simpl;
    repeat case_match; discriminate.
Qed.

Lemma checkPreCall_loop_proven_nonnull (Filter : NullabilityChecksFilter)
    (Call : CallEvent) (Params : list ParmVarDecl) (State0 : ProgramState)
    (e : Effects) :
  (forall i, (i < getNumArgs Call)%nat ->
             getNullConstraint (getArgSVal Call i) State0 = IsNotNull) ->
  forall (State : ProgramState) (Idx : nat),
    isNull State = isNull State0 ->
    (Idx + length Params <= getNumArgs Call)%nat ->
    checkPreCall_loop Filter Call State Idx Params <> LoopReturn e.
Proof.
  intros Hall.
  induction Params as [| Param Rest IH]; intros State Idx Hsolver Hlen; simpl in *.
  - discriminate.
  - assert (Hnn : getNullConstraint (getArgSVal Call Idx) State = IsNotNull)
      by (rewrite (getNullConstraint_ext _ _ _ Hsolver); apply Hall; lia).
    pose proof (checkPreCall_body_proven_nonnull Filter Call State Idx Param e Hnn)
      as Hbody.
    destruct (checkPreCall_body Filter Call State Idx Param) as [S1 | S1 | e1 | f]
      eqn:Hb; try discriminate.
    + apply IH; [| lia].
      destruct (checkPreCall_body_keeps _ _ _ _ _ _ Hb) as [Hs _]. congruence.
    + exact Hbody.
Qed.

(** X27.  A value the solver has proven non-null is never reported: a bind of
    such a value and a return of it return without a report, whatever is
    tracked for it, and the check of a call that passes an argument
    expression for each parameter of its callee and all of whose argument
    values are proven non-null returns without a report and without a
    sink. *)
Theorem X27_proven_nonnull_is_never_reported (Filter : NullabilityChecksFilter) :
  (forall (L V : SVal) (S : BindStmt) (C : CheckerContext),
     getNullConstraint V (C_getState C) = IsNotNull ->
     exists e, checkBind Filter L V S C = Returns e /\ reports e = []) /\
  (forall (S : ReturnStmt) (C : CheckerContext),
     getNullConstraint (C_getSVal C (Return_stmt S)) (C_getState C) = IsNotNull ->
     exists e, checkPreStmt Filter S C = Returns e /\ reports e = []) /\
  (forall (Call : CallEvent) (C : CheckerContext),
     (forall i, (i < getNumArgs Call)%nat -> is_Some (getArgExpr Call i)) ->
     (length (parameters Call) <= getNumArgs Call)%nat ->
     (forall i, (i < getNumArgs Call)%nat ->
                getNullConstraint (getArgSVal Call i) (C_getState C) = IsNotNull) ->
     exists e,
       checkPreCall Filter Call C = Returns e /\
       reports e = [] /\ forall N, In N (nodes e) -> isSink N = false).
Proof.
  split; [| split].
  - intros L V S C Hnn. unfold checkBind.
    destruct V; simpl; rewrite ?Hnn; simpl; rewrite ?andb_false_r; simpl;
      repeat case_match; eexists; split; reflexivity.
  - intros S C Hnn. unfold checkPreStmt.
    destruct (C_getSVal C (Return_stmt S)); simpl; rewrite ?Hnn; simpl;
      rewrite ?andb_false_r; simpl;
      repeat case_match; eexists; split; reflexivity.
  - intros Call C Hargs Hlen Hall.
    pose proof (fun f => checkPreCall_loop_no_fault Filter Call (parameters Call) f
                           Hargs (C_getState C) 0%nat Hlen) as Hnofault.
    pose proof (fun e => checkPreCall_loop_proven_nonnull Filter Call
                           (parameters Call) (C_getState C) e Hall
                           (C_getState C) 0%nat eq_refl Hlen) as Hnoreturn.
    unfold checkPreCall.
    destruct (getDecl Call);
      [| eexists; split; [reflexivity |]; split; [reflexivity | intros N []]].
    destruct (checkPreCall_loop Filter Call (C_getState C) 0 (parameters Call))
      as [S1 | S1 | e1 | f].
    + case_match; eexists; (split; [reflexivity |]); (split; [reflexivity |]);
        [intros N [<- | []]; reflexivity | intros N []].
    + case_match; eexists; (split; [reflexivity |]); (split; [reflexivity |]);
        [intros N [<- | []]; reflexivity | intros N []].
    + exfalso. apply (Hnoreturn e1). reflexivity.
    + exfalso. apply (Hnofault f). reflexivity.
Qed.

Lemma X27_proven_nonnull_witness :
  (exists e,
     checkBind Sample.allChecks Sample.nonnullVar (loc_MemRegionVal Sample.R1)
       Sample.assignStmt
       (Sample.contextAt
          (mkProgramState Sample.provesNonnull (NullabilityMap Sample.nullableState))
          Sample.PtrTy)
     = Returns e /\ reports e = []) /\
  (exists e,
     checkPreCall Sample.allChecks Sample.callTakesNonnull
       (Sample.contextAt
          (mkProgramState Sample.provesNonnull (NullabilityMap Sample.nullableState))
          Sample.PtrTy)
     = Returns e /\
     reports e = [] /\ forall N, In N (nodes e) -> isSink N = false).
Proof.
  split.
  - apply (proj1 (X27_proven_nonnull_is_never_reported Sample.allChecks)).
    reflexivity.
  - apply (proj2 (proj2 (X27_proven_nonnull_is_never_reported Sample.allChecks))).
    + intros i _. eexists. reflexivity.
    + simpl. lia.
    + intros i _. reflexivity.
Defined.

Lemma no_new_contradiction_refl (State : ProgramState) :
  no_new_contradiction State State.
Proof. intros Region H. exact H. Qed.

Lemma no_new_contradiction_trans (S1 S2 S3 : ProgramState) :
  no_new_contradiction S1 S2 -> no_new_contradiction S2 S3 ->
  no_new_contradiction S1 S3.
Proof. intros H12 H23 Region H. apply H12, H23, H. Qed.

Lemma no_new_contradiction_set (State : ProgramState) (Region : MemRegion)
    (v : Nullability) (Source : option Stmt) :
  v = Nullable ->
  no_new_contradiction State
    (set_NullabilityMap State Region (mkNullabilityState v Source)).
Proof.
  intros -> Region' H. unfold trackedValue in *.
  destruct (decide (Region = Region')) as [<- | Hne].
  - rewrite get_set_eq in H. discriminate.
  - rewrite get_set_ne in H by exact Hne. exact H.
Qed.

(** Close [no_new_contradiction] for the state of one branch. *)
Ltac close_no_new :=
  bool_facts;
  first
    [ apply no_new_contradiction_refl
    | apply no_new_contradiction_set; first [assumption | reflexivity] ].

Lemma checkPreCall_body_no_new (Filter : NullabilityChecksFilter) (Call : CallEvent)
    (State : ProgramState) (Idx : nat) (Param : ParmVarDecl) :
  LoopControl_no_new_contradiction State
    (checkPreCall_body Filter Call State Idx Param).
Proof.
  unfold checkPreCall_body.
  repeat case_match; simpl; try exact I; try close_no_new;
    intros N [<- | []]; simpl; apply no_new_contradiction_refl.
Qed.

Lemma checkPreCall_loop_no_new (Filter : NullabilityChecksFilter) (Call : CallEvent)
    (Params : list ParmVarDecl) :
  forall (State : ProgramState) (Idx : nat),
    LoopControl_no_new_contradiction State
      (checkPreCall_loop Filter Call State Idx Params).
Proof.
  induction Params as [| Param Rest IH]; intros State Idx; simpl.
  - apply no_new_contradiction_refl.
  - pose proof (checkPreCall_body_no_new Filter Call State Idx Param) as Hbody.
    destruct (checkPreCall_body Filter Call State Idx Param) as [S1 | S1 | e | f];
      simpl in *; try assumption.
    specialize (IH S1 (S Idx)).
    destruct (checkPreCall_loop Filter Call S1 (S Idx) Rest) as [S2 | S2 | e | f];
      simpl in *; try exact I.
    + eapply no_new_contradiction_trans; eassumption.
    + eapply no_new_contradiction_trans; eassumption.
    + intros N HN.
      eapply no_new_contradiction_trans; [eassumption | apply IH; exact HN].
Qed.

(** X28.  The bind, the call-argument check and the return statement never
    write Contradicted: a location that is contradicted in a state one of
    them produces was contradicted before.  A contradiction only comes from
    an explicit cast, from the call return of a CG header, or from a message
    result. *)
Theorem X28_contradiction_only_from_casts_and_heuristics
    (Filter : NullabilityChecksFilter) (ev : CheckerEvent) (C : CheckerContext)
    (State' : ProgramState) (Region : MemRegion) :
  match ev with
  | OnBind _ _ _ | OnPreCall _ | OnReturn _ => True
  | _ => False
  end ->
  In State' (producedStates (handle Filter ev C)) ->
  trackedValue State' Region = Some Contradicted ->
  trackedValue (C_getState C) Region = Some Contradicted.
Proof.
  intros Hev Hin.
  revert Region. change (no_new_contradiction (C_getState C) State').
  destruct ev as [L V BS | Call | Call | RS | CE | M | SR | Event];
    try contradiction; simpl in Hin; revert Hin.
  - unfold checkBind.
    repeat case_match; simpl; intros Hin;
      repeat match goal with
      | H : False |- _ => destruct H
      | H : _ \/ _ |- _ => destruct H
      end; subst; simpl; close_no_new.
  - unfold checkPreCall.
    destruct (getDecl Call); [| intros []].
    pose proof (checkPreCall_loop_no_new Filter Call (parameters Call)
                  (C_getState C) 0%nat) as Hloop.
    destruct (checkPreCall_loop Filter Call (C_getState C) 0 (parameters Call))
      as [S1 | S1 | e | f]; simpl in *.
    + case_match; simpl; intros Hin; [destruct Hin as [<- | []]; exact Hloop | destruct Hin].
    + case_match; simpl; intros Hin; [destruct Hin as [<- | []]; exact Hloop | destruct Hin].
    + intros Hin. apply in_map_iff in Hin. destruct Hin as [N [<- HN]].
      apply Hloop. exact HN.
    + intros [].
  - unfold checkPreStmt.
    repeat case_match; simpl; intros Hin;
      repeat match goal with
      | H : False |- _ => destruct H
      | H : _ \/ _ |- _ => destruct H
      end; subst; simpl; close_no_new.
Qed.

Lemma X28_contradiction_witness :
  trackedValue Sample.contradictedState Sample.R1 = Some Contradicted.
Proof.
  apply (X28_contradiction_only_from_casts_and_heuristics Sample.allChecks
           (OnBind Sample.varP (loc_MemRegionVal Sample.R3) Sample.assignStmt)
           (Sample.contextAt Sample.contradictedState Sample.PtrTy)
           (set_NullabilityMap Sample.contradictedState Sample.R3
              (mkNullabilityState Nullable (Some 32%positive)))
           Sample.R1).
  - exact I.
  - left. reflexivity.
  - vm_compute. reflexivity.
Defined.

(* ===================================================================== *)
(** ** The cast of a region, and a nullable result that is dereferenced *)
(* ===================================================================== *)

(** X29.  After an explicit cast between pointer types whose destination
    type is annotated and whose value is a symbolic region, the path goes on
    from one state, which reports nothing and differs from the state before
    at most in the entry of that region.  There the region is Contradicted
    when the destination is Nonnull and the solver has proven the value
    null; otherwise, a region that was tracked keeps its value when it
    equals the annotation and is Contradicted when it does not, and a region
    that was not tracked is tracked as Nullable for a destination annotated
    Nullable and stays untracked for one annotated Nonnull. *)
Theorem X29_cast_of_region
    (CE : ExplicitCastExpr) (C : CheckerContext) (Region : MemRegion) :
  isAnyPointerType (Expr_getType (CE_getSubExpr CE)) = true ->
  isAnyPointerType (CE_getType CE) = true ->
  getNullabilityAnnotation (CE_getType CE) <> Unspecified ->
  getTrackRegion (C_getSVal C (CE_stmt CE)) false = Some Region ->
  let Dest := getNullabilityAnnotation (CE_getType CE) in
  exists (e : Effects) (State' : ProgramState),
    checkPostStmt CE C = Returns e /\
    reports e = [] /\
    resultingStates (C_getState C) e = [State'] /\
    (forall Region', Region' <> Region ->
       get_NullabilityMap State' Region' = get_NullabilityMap (C_getState C) Region') /\
    trackedValue State' Region
    = if bool_decide (Dest = Nonnull) &&
         bool_decide (getNullConstraint (C_getSVal C (CE_stmt CE)) (C_getState C)
                      = IsNull)
      then Some Contradicted
      else match trackedValue (C_getState C) Region with
           | Some v => Some (if bool_decide (v = Dest) then v else Contradicted)
           | None => if bool_decide (Dest = Nullable) then Some Nullable else None
           end.
Proof.
  intros Hsrc Hdst Hann Hreg Dest.
  destruct (getTrackRegion_defined _ _ Hreg) as [Hdef Hval].
  unfold checkPostStmt.
  rewrite Hsrc, Hdst, Hdef, Hreg. simpl. fold Dest.
  rewrite (bool_decide_eq_false_2 _ Hann).
  destruct (bool_decide (Dest = Nonnull) &&
            bool_decide (getNullConstraint (C_getSVal C (CE_stmt CE)) (C_getState C)
                         = IsNull)).
  - eexists. eexists. split; [reflexivity |]. split; [reflexivity |].
    split; [reflexivity |]. split.
    + intros Region' Hne. apply get_set_ne. congruence.
    + apply trackedValue_set.
  - unfold trackedValue.
    destruct (get_NullabilityMap (C_getState C) Region) as [TN |] eqn:Hget; simpl.
    + destruct (bool_decide (getValue TN = Dest)) eqn:Hsame.
      * apply bool_decide_eq_true in Hsame.
        rewrite (bool_decide_eq_false_2 (getValue TN <> Dest))
          by (intros H; apply H; exact Hsame).
        simpl. eexists. eexists. split; [reflexivity |]. split; [reflexivity |].
        split; [reflexivity |]. split; [reflexivity |].
        rewrite Hget. reflexivity.
      * apply bool_decide_eq_false in Hsame.
        rewrite (bool_decide_eq_true_2 _ Hsame). simpl.
        destruct (bool_decide (getValue TN <> Contradicted)) eqn:Hc.
        -- eexists. eexists. split; [reflexivity |]. split; [reflexivity |].
           split; [reflexivity |]. split.
           ++ intros Region' Hne. apply get_set_ne. congruence.
           ++ exact (trackedValue_set _ _ _).
        -- apply bool_decide_eq_false in Hc. apply dec_stable in Hc.
           eexists. eexists. split; [reflexivity |]. split; [reflexivity |].
           split; [reflexivity |]. split; [reflexivity |].
           rewrite Hget. simpl. rewrite Hc. reflexivity.
    + destruct (bool_decide (Dest = Nullable)) eqn:Hn.
      * apply bool_decide_eq_true in Hn.
        rewrite (bool_decide_eq_false_2 (Dest <> Nullable))
          by (intros H; apply H; exact Hn).
        eexists. eexists. split; [reflexivity |]. split; [reflexivity |].
        split; [reflexivity |]. split.
        -- intros Region' Hne. apply get_set_ne. congruence.
        -- etransitivity; [exact (trackedValue_set _ _ _) |].
           simpl. rewrite Hn. reflexivity.
      * apply bool_decide_eq_false in Hn.
        rewrite (bool_decide_eq_true_2 _ Hn).
        eexists. eexists. split; [reflexivity |]. split; [reflexivity |].
        split; [reflexivity |]. split; [reflexivity |].
        rewrite Hget. reflexivity.
Qed.

Lemma X29_cast_of_region_witness :
  exists (e : Effects) (State' : ProgramState),
    checkPostStmt Sample.castToNonnull
      (Sample.contextAt Sample.emptyState Sample.PtrTy) = Returns e /\
    reports e = [] /\
    resultingStates Sample.emptyState e = [State'] /\
    (forall Region', Region' <> Sample.R1 ->
       get_NullabilityMap State' Region'
       = get_NullabilityMap Sample.emptyState Region') /\
    trackedValue State' Sample.R1 = None.
Proof.
  refine (X29_cast_of_region Sample.castToNonnull
            (Sample.contextAt Sample.emptyState Sample.PtrTy) Sample.R1 _ _ _ _);
    try reflexivity; discriminate.
Defined.

(** X30.  The result of a call of a function whose return type is a pointer
    annotated Nullable, declared outside the CG headers, at a symbolic region
    that was not tracked, is tracked as Nullable, without a report.  When a
    field, an element or the location itself is then dereferenced in a state
    with that map, and the selector CheckNullableDereferenced is enabled, the
    implicit-dereference event is reported, naming the region: as
    nullable-dereferenced for a direct dereference and as
    nullable-passed-to-nonnull otherwise. *)
Theorem X30_nullable_result_dereferenced
    (Filter : NullabilityChecksFilter) (Call : CallEvent) (C : CheckerContext)
    (D : Decl) (FuncType : FunctionType) (Region : MemRegion)
    (Event : ImplicitNullDerefEvent) :
  getDecl Call = Some D ->
  getKind Call <> CE_ObjCMessage ->
  getFunctionType D = Some FuncType ->
  isAnyPointerType (getReturnType FuncType) = true ->
  getNullabilityAnnotation (getReturnType FuncType) = Nullable ->
  startswith (Decl_filename D) "CG" = false ->
  getTrackRegion (getReturnValue Call) false = Some Region ->
  get_NullabilityMap (C_getState C) Region = None ->
  CheckNullableDereferenced Filter = true ->
  getTrackRegion (Event_Location Event) true = Some Region ->
  let S1 := set_NullabilityMap (C_getState C) Region (NullabilityState_of Nullable) in
  NullabilityMap (getState (Event_SinkNode Event)) = NullabilityMap S1 ->
  checkPostCall Call C = Returns (transition S1) /\
  checkEvent Filter Event
  = Returns (mkEffects []
               [reportBug
                  (if Event_IsDirectDereference Event then NullableDereferenced
                   else NullablePassedToNonnull)
                  (Event_SinkNode Event) (Some Region) None]).
Proof.
  intros Hdecl Hkind Hfun Hptr Hann Hcg Hret Hfresh Hsel Hloc S1 Hmap.
  split.
  - rewrite (checkPostCall_nullable_fresh Call C D FuncType Region); try assumption.
    rewrite Hcg. reflexivity.
  - unfold checkEvent. rewrite Hloc.
    assert (Hget : get_NullabilityMap (getState (Event_SinkNode Event)) Region
                   = Some (NullabilityState_of Nullable)).
    { unfold get_NullabilityMap. rewrite Hmap. apply get_set_eq. }
    rewrite Hget, Hsel. simpl.
    destruct (Event_IsDirectDereference Event); reflexivity.
Qed.

Lemma X30_nullable_result_witness :
  checkEvent Sample.allChecks Sample.derefField
  = Returns (mkEffects []
               [reportBug NullableDereferenced (Event_SinkNode Sample.derefField)
                  (Some Sample.R1) None]).
Proof.
  refine (proj2 (X30_nullable_result_dereferenced Sample.allChecks
                   Sample.callReturnsNullable
                   (Sample.contextAt Sample.emptyState Sample.PtrTy)
                   Sample.returnsNullableDecl (mkFunctionType Sample.NullablePtrTy)
                   Sample.R1 Sample.derefField _ _ _ _ _ _ _ _ _ _ _));
    try reflexivity; discriminate.
Defined.
